(** * hackernews-telegram: staging, graduation and the publish-to-followup bridge

    A shallow embedding of [publish/staging_store.py], [publish/pending_store.py],
    [tasks.py] and [handle_automatic_forward] of [publish/handlers.py], with the
    theorems that settle what the design document says about them.

    Conventions of the embedding
    - Python [float] values (timestamps) are rationals [Q]; rounding, NaN and
      infinities are not modelled.  Python [int] is [Z], [str] is [string].
    - Everything outside the program is one [World]: the Redis contents, the
      wall clock, a script of Redis faults, the replies of the Hacker News,
      reader and Telegram collaborators, and the trace of calls made so far.
    - A Python function with effects is a computation [M A]: it takes a world
      and gives an [outcome] (a value or a raised exception) and the world it
      leaves behind.  [logger] calls have no effect on the world and are left out. *)

From Stdlib Require Import Ascii QArith Qminmax Lqa.
From stdpp Require Import gmap strings list fin_maps pretty sorting.

Set Warnings "-register-all,-clear-no-such-hyp".
Open Scope Z_scope.

(* ===================================================================== *)
(** * Python values and exceptions *)
(* ===================================================================== *)

(** What [json.loads] can return: the JSON data model, with Python's split of
    numbers into [int] and [float].  An object is the loaded [dict] in
    insertion order. *)
Inductive json : Type :=
| JNull
| JBool (b : bool)
| JInt (n : Z)
| JFloat (q : Q)
| JStr (s : string)
| JArr (items : list json)
| JObj (members : list (string * json)).

(** The bytes held under a Redis string key: either text that [json.loads]
    parses, or bytes on which decoding raises ([json.JSONDecodeError] or
    [UnicodeDecodeError], which the code always catches together). *)
Inductive raw : Type :=
| Text (doc : json)
| Garbled (bytes : string).

Inductive py_exn : Type :=
| RedisError
| JSONDecodeError
| AttributeError
| TypeError
| ValueError
| RuntimeError
| TransportError.   (* any exception of a collaborator: requests, Telegram, Exa *)

(** The result of running Python code.  [Unmodelled] is not a Python result:
    it marks the inputs on which the embedding does not follow Python, where
    Python goes on with a value that the typed records below cannot hold (a
    stored payload with the right member names but values of other types than
    the dataclass declares, or a timestamp stored as a string).  No theorem
    below draws a conclusion from it. *)
Inductive outcome (A : Type) : Type :=
| Ok (a : A)
| Raise (e : py_exn)
| Unmodelled.
Arguments Ok {A} a.
Arguments Raise {A} e.
Arguments Unmodelled {A}.

(** What a call to a collaborator ends in: a value, or an exception. *)
Inductive reply (A : Type) : Type :=
| Returned (a : A)
| Failed (e : py_exn).
Arguments Returned {A} a.
Arguments Failed {A} e.

Definition outcome_of {A : Type} (r : reply A) : outcome A :=
  match r with
  | Returned a => Ok a
  | Failed e => Raise e
  end.

(** Arguments of the helpers that accept [int | str | None]. *)
Inductive py_arg : Type :=
| PyNone
| PyInt (z : Z)
| PyStr (s : string).

(** [str(value)] *)
Definition py_str (v : py_arg) : string :=
  match v with
  | PyNone => "None"
  | PyInt z => pretty z
  | PyStr s => s
  end.

(** Truth value of a loaded JSON value ([if x], [x or y], [not x]). *)
Definition truthy (v : json) : bool :=
  match v with
  | JNull => false
  | JBool b => b
  | JInt n => negb (n =? 0)
  | JFloat q => negb (Qeq_bool q 0)
  | JStr s => negb (bool_decide (s = ""))
  | JArr l => negb (bool_decide (length l = 0%nat))
  | JObj l => negb (bool_decide (length l = 0%nat))
  end.

(** [d.get(key)] on a dict given by its items; [None] when the key is absent. *)
Fixpoint dict_get {V : Type} (key : string) (items : list (string * V)) : option V :=
  match items with
  | [] => None
  | (k, v) :: rest => if decide (k = key) then Some v else dict_get key rest
  end.

(** [d[key] = v] on a dict given by its items: replaces in place, else appends. *)
Fixpoint dict_set {K V : Type} `{EqDecision K} (key : K) (v : V)
    (items : list (K * V)) : list (K * V) :=
  match items with
  | [] => [(key, v)]
  | (k, v0) :: rest =>
      if decide (k = key) then (k, v) :: rest else (k, v0) :: dict_set key v rest
  end.

(** [d.get(key)] for the in-memory dicts keyed by int. *)
Fixpoint dict_lookup {K V : Type} `{EqDecision K} (key : K)
    (items : list (K * V)) : option V :=
  match items with
  | [] => None
  | (k, v) :: rest => if decide (k = key) then Some v else dict_lookup key rest
  end.

(** [x or default] on an optional float: [None] and [0.0] are both falsy. *)
Definition float_or (x : option Q) (default : Q) : Q :=
  match x with
  | Some t => if Qeq_bool t 0 then default else t
  | None => default
  end.

(** [x or 0] on an optional int. *)
Definition int_or_zero (x : option Z) : Z :=
  match x with
  | Some n => n
  | None => 0
  end.

(** [float(v)] on a loaded JSON value. *)
Definition py_float (v : json) : outcome Q :=
  match v with
  | JInt n => Ok (inject_Z n)
  | JFloat q => Ok q
  | JBool b => Ok (if b then 1%Q else 0%Q)
  | JStr _ => Unmodelled            (* parses the text, or raises ValueError *)
  | JNull | JArr _ | JObj _ => Raise TypeError
  end.

Definition Qlt_bool (a b : Q) : bool := negb (Qle_bool b a).

(** [list.sort(key=...)]: a stable sort, ascending in the key. *)
Section PySort.
Context {A : Type} (key : A -> Q).

Fixpoint sort_insert (x : A) (l : list A) : list A :=
  match l with
  | [] => [x]
  | y :: rest =>
      if Qle_bool (key x) (key y) then x :: y :: rest
      else y :: sort_insert x rest
  end.

Fixpoint py_sort (l : list A) : list A :=
  match l with
  | [] => []
  | x :: rest => sort_insert x (py_sort rest)
  end.

End PySort.

(* ===================================================================== *)
(** * config.py *)
(* ===================================================================== *)

Definition SECONDS_IN_HOUR : Z := 3600.
Definition SECONDS_IN_MINUTE : Z := 60.
Definition PENDING_REDIS_TTL : Z := 15 * SECONDS_IN_MINUTE.
Definition WORKER_ARTICLE_LIMIT : Z := 15.
Definition ARTICLE_MAX_WAIT_SECONDS : Z := 5 * SECONDS_IN_HOUR.
Definition ARTICLE_METRIC_REFRESH_SECONDS : Z := 10 * SECONDS_IN_MINUTE.
Definition ARTICLE_MIN_POINTS : Z := 50.
Definition ARTICLE_MIN_COMMENTS : Z := 50.
Definition ARTICLE_AGE_FLOOR_POINTS : Z := 10.
Definition ARTICLE_AGE_FLOOR_COMMENTS : Z := 10.

(* ===================================================================== *)
(** * content/reader.py: the Article dataclass *)
(* ===================================================================== *)

Record Article : Type := mkArticle {
  article_id : string;
  title : string;
  url : string;
  discussion_url : string;
  summary : string;
  image_url : option string;
  highlights : list string;
  top_comments : list string;
  references : list (string * string);
  hn_score : option Z;
  hn_comment_count : option Z;
  hn_posted_ts : option Z;
}.

Definition json_opt_str (o : option string) : json :=
  match o with Some s => JStr s | None => JNull end.

Definition json_opt_int (o : option Z) : json :=
  match o with Some n => JInt n | None => JNull end.

(** [dataclasses.asdict(article)] as [json.dumps] writes it: tuples and lists
    are both JSON arrays, so [_serialize_article]'s [list(item)] changes nothing. *)
Definition asdict (a : Article) : json :=
  JObj [ ("article_id", JStr a.(article_id));
         ("title", JStr a.(title));
         ("url", JStr a.(url));
         ("discussion_url", JStr a.(discussion_url));
         ("summary", JStr a.(summary));
         ("image_url", json_opt_str a.(image_url));
         ("highlights", JArr (JStr <$> a.(highlights)));
         ("top_comments", JArr (JStr <$> a.(top_comments)));
         ("references", JArr ((λ r, JArr [JStr r.1; JStr r.2]) <$> a.(references)));
         ("hn_score", json_opt_int a.(hn_score));
         ("hn_comment_count", json_opt_int a.(hn_comment_count));
         ("hn_posted_ts", json_opt_int a.(hn_posted_ts)) ].

Definition required_fields : list string :=
  [ "article_id"; "title"; "url"; "discussion_url"; "summary"; "image_url";
    "highlights"; "top_comments"; "references" ].

Definition optional_fields : list string :=
  [ "hn_score"; "hn_comment_count"; "hn_posted_ts" ].

(** Reading a loaded value at the type the dataclass declares. *)
Definition as_str (v : json) : option string :=
  match v with JStr s => Some s | _ => None end.

Definition as_opt_str (v : json) : option (option string) :=
  match v with JStr s => Some (Some s) | JNull => Some None | _ => None end.

Definition as_opt_int (v : option json) : option (option Z) :=
  match v with
  | None => Some None                (* the dataclass default *)
  | Some JNull => Some None
  | Some (JInt n) => Some (Some n)
  | Some _ => None
  end.

Definition as_str_list (v : json) : option (list string) :=
  match v with JArr l => mapM as_str l | _ => None end.

Definition as_pair (v : json) : option (string * string) :=
  match v with JArr [JStr a; JStr b] => Some (a, b) | _ => None end.

Definition as_pair_list (v : json) : option (list (string * string)) :=
  match v with JArr l => mapM as_pair l | _ => None end.

Definition typed_article (kw : list (string * json)) : option Article :=
  i ← dict_get "article_id" kw ≫= as_str;
  t ← dict_get "title" kw ≫= as_str;
  u ← dict_get "url" kw ≫= as_str;
  d ← dict_get "discussion_url" kw ≫= as_str;
  s ← dict_get "summary" kw ≫= as_str;
  im ← dict_get "image_url" kw ≫= as_opt_str;
  h ← dict_get "highlights" kw ≫= as_str_list;
  c ← dict_get "top_comments" kw ≫= as_str_list;
  r ← dict_get "references" kw ≫= as_pair_list;
  sc ← as_opt_int (dict_get "hn_score" kw);
  cc ← as_opt_int (dict_get "hn_comment_count" kw);
  ts ← as_opt_int (dict_get "hn_posted_ts" kw);
  Some (mkArticle i t u d s im h c r sc cc ts).

(** The call of [Article] on keyword arguments: the generated [__init__] raises [TypeError] on a keyword
    it does not know and on a missing field without default; it does not look
    at the values. *)
Definition Article_init (kw : list (string * json)) : outcome Article :=
  if forallb (λ k, bool_decide (k ∈ required_fields ++ optional_fields)) kw.*1
     && forallb (λ f, bool_decide (f ∈ kw.*1)) required_fields
  then match typed_article kw with
       | Some a => Ok a
       | None => Unmodelled
       end
  else Raise TypeError.

(** [tuple(item)] needs an iterable. *)
Definition iterable (v : json) : bool :=
  match v with
  | JArr _ | JStr _ | JObj _ => true
  | _ => false
  end.

(** [[tuple(item) for item in references]]: raises [TypeError] when
    [references] or one of its items cannot be iterated.  On arrays of arrays,
    which is what the stores write, the result is the argument; on strings and
    objects (iterated by character or key) the argument is passed on as it is
    and [typed_article] refuses it. *)
Definition tuples_of (refs : json) : outcome json :=
  match refs with
  | JArr l => if forallb iterable l then Ok refs else Raise TypeError
  | JStr _ | JObj _ => Ok refs
  | _ => Raise TypeError
  end.

(** [payload.get("references") or []] *)
Definition references_or_empty (kw : list (string * json)) : json :=
  match dict_get "references" kw with
  | Some v => if truthy v then v else JArr []
  | None => JArr []
  end.

(** [payload["references"] = v] *)
Definition set_references (v : json) (kw : list (string * json)) : list (string * json) :=
  dict_set "references" v kw.

(* ===================================================================== *)
(** * The world outside the program *)
(* ===================================================================== *)

(** The keys of the two Redis databases, by namespace:
    [staged_payloads !! id] is the string under [tgnews:staged:<id>],
    [staged_index] the set under [tgnews:staged:index], [published] the set
    under [tgnews:published], and [pending !! n] the string under
    [tgnews:pending:<n>] with the time at which it expires.  (An article id
    is the decimal text of a Hacker News item number; the text [index], whose
    staging key would be the index key, is not one.) *)
Record Redis : Type := mkRedis {
  staged_payloads : gmap string raw;
  staged_index : gset string;
  published : gset string;
  pending : gmap Z (raw * option Q);
}.

Inductive redis_cmd : Type :=
| SET_staged (id : string) (v : raw)
| DEL_staged (id : string)
| GET_staged (id : string)
| MGET_staged (ids : list string)
| SADD_index (id : string)
| SREM_index (id : string)
| SMEMBERS_index
| SADD_published (ids : list string)
| SISMEMBER_published (id : string)
| SET_pending (n : Z) (v : raw) (ex : option Z)
| DEL_pending (n : Z)
| GET_pending (n : Z).

(** What one round trip to Redis can do: answer, fail before the server saw
    the commands, or fail after the server ran them (the reply is lost).  The
    last two raise [RedisError] in the client. *)
Inductive fault : Type :=
| NoFault
| Dropped
| ReplyLost.

(** The message Telegram returns for a sent headline. *)
Record tg_message : Type := mkMessage {
  msg_message_id : option Z;
  msg_linked_chat_id : option Z;      (* message["chat"]["linked_chat_id"] *)
}.

(** One item of [get_story_details]. *)
Record story : Type := mkStory {
  story_id : py_arg;
  story_score : option Z;
  story_descendants : option Z;
  story_time : option Z;
}.

Inductive event : Type :=
| EvRedis (cmds : list redis_cmd)                   (* one command, or one MULTI/EXEC *)
| EvStoryIds (limit : Z)
| EvStoryDetails (ids : list Z)
| EvArticlesByIds (ids : list Z)
| EvSendArticle (chat : option Z) (a : Article)
| EvSendComment (chat : Z) (a : Article) (thread root : option Z).

Record World : Type := mkWorld {
  redis : Redis;
  clock : Q;                                          (* time.time(), and Redis's clock *)
  faults : list fault;                                (* one per round trip; none left: no fault *)
  trace : list event;                                 (* calls made so far, oldest first *)
  CHANNEL_ID : option Z;                              (* TG_CHANNEL_ID *)
  DISCUSSION_ID : option Z;                           (* TG_DISCUSSION_ID *)
  hn_story_ids : Z -> reply (list Z);                 (* get_story_ids(kind="top", limit=...) *)
  hn_story_details : list Z -> reply (list story);    (* get_story_details *)
  reader_articles : list Z -> reply (list Article);   (* get_articles_by_ids *)
  telegram_client : bool;                             (* TG_TOKEN is set / set_telegram was called *)
  tg_send_article : option Z -> Article -> reply (option tg_message);  (* send_article_bundle *)
  tg_send_comment : Z -> Article -> option Z -> option Z -> bool;  (* the sends of send_comment_bundle *)
}.

Definition set_redis (r : Redis) (w : World) : World :=
  mkWorld r w.(clock) w.(faults) w.(trace) w.(CHANNEL_ID) w.(DISCUSSION_ID)
          w.(hn_story_ids) w.(hn_story_details) w.(reader_articles)
          w.(telegram_client) w.(tg_send_article) w.(tg_send_comment).

Definition set_clock (t : Q) (w : World) : World :=
  mkWorld w.(redis) t w.(faults) w.(trace) w.(CHANNEL_ID) w.(DISCUSSION_ID)
          w.(hn_story_ids) w.(hn_story_details) w.(reader_articles)
          w.(telegram_client) w.(tg_send_article) w.(tg_send_comment).

Definition set_faults (fs : list fault) (w : World) : World :=
  mkWorld w.(redis) w.(clock) fs w.(trace) w.(CHANNEL_ID) w.(DISCUSSION_ID)
          w.(hn_story_ids) w.(hn_story_details) w.(reader_articles)
          w.(telegram_client) w.(tg_send_article) w.(tg_send_comment).

Definition log (e : event) (w : World) : World :=
  mkWorld w.(redis) w.(clock) w.(faults) (w.(trace) ++ [e]) w.(CHANNEL_ID) w.(DISCUSSION_ID)
          w.(hn_story_ids) w.(hn_story_details) w.(reader_articles)
          w.(telegram_client) w.(tg_send_article) w.(tg_send_comment).

(** ** Computations *)

Definition M (A : Type) : Type := World -> outcome A * World.

#[global] Instance M_ret : MRet M := λ A a w, (Ok a, w).

#[global] Instance M_bind : MBind M := λ A B f m w,
  match m w with
  | (Ok a, w') => f a w'
  | (Raise e, w') => (Raise e, w')
  | (Unmodelled, w') => (Unmodelled, w')
  end.

(** [raise] and the lifting of a pure result. *)
Definition lift {A : Type} (o : outcome A) : M A := λ w, (o, w).

(** [try: body / except <caught>: handler] *)
Definition try_except {A : Type} (body : M A) (caught : py_exn -> bool) (handler : M A) : M A :=
  λ w, match body w with
       | (Raise e, w') => if caught e then handler w' else (Raise e, w')
       | r => r
       end.

Definition is_RedisError (e : py_exn) : bool :=
  match e with RedisError => true | _ => false end.

Definition is_DecodeError (e : py_exn) : bool :=
  match e with JSONDecodeError => true | _ => false end.

Definition any_Exception (e : py_exn) : bool := true.

Definition time_time : M Q := λ w, (Ok w.(clock), w).

Definition world : M World := λ w, (Ok w, w).

(** ** Redis *)

(** A key set with [EX] is gone once the clock reaches its deadline. *)
Definition live (t : Q) (entry : raw * option Q) : option raw :=
  match entry.2 with
  | Some deadline => if Qlt_bool t deadline then Some entry.1 else None
  | None => Some entry.1
  end.

Definition apply_cmd (t : Q) (r : Redis) (c : redis_cmd) : Redis :=
  match c with
  | SET_staged id v =>
      mkRedis (<[id := v]> r.(staged_payloads)) r.(staged_index) r.(published) r.(pending)
  | DEL_staged id =>
      mkRedis (delete id r.(staged_payloads)) r.(staged_index) r.(published) r.(pending)
  | SADD_index id =>
      mkRedis r.(staged_payloads) ({[id]} ∪ r.(staged_index)) r.(published) r.(pending)
  | SREM_index id =>
      mkRedis r.(staged_payloads) (r.(staged_index) ∖ {[id]}) r.(published) r.(pending)
  | SADD_published ids =>
      mkRedis r.(staged_payloads) r.(staged_index) (list_to_set ids ∪ r.(published)) r.(pending)
  | SET_pending n v ex =>
      mkRedis r.(staged_payloads) r.(staged_index) r.(published)
              (<[n := (v, (λ ttl, t + inject_Z ttl)%Q <$> ex)]> r.(pending))
  | DEL_pending n =>
      mkRedis r.(staged_payloads) r.(staged_index) r.(published) (delete n r.(pending))
  | GET_staged _ | MGET_staged _ | SMEMBERS_index | SISMEMBER_published _ | GET_pending _ => r
  end.

Definition next_fault (w : World) : fault * World :=
  match w.(faults) with
  | [] => (NoFault, w)
  | f :: rest => (f, set_faults rest w)
  end.

(** One round trip that writes: a single command, or a pipeline run as one
    MULTI/EXEC transaction ([client.pipeline()] is transactional by default),
    so the commands take effect together or not at all. *)
Definition redis_exec (cmds : list redis_cmd) : M unit :=
  λ w, let (f, w1) := next_fault (log (EvRedis cmds) w) in
       let done := set_redis (foldl (apply_cmd w1.(clock)) w1.(redis) cmds) w1 in
       match f with
       | NoFault => (Ok (), done)
       | Dropped => (Raise RedisError, w1)
       | ReplyLost => (Raise RedisError, done)
       end.

(** One round trip that reads. *)
Definition redis_query {A : Type} (cmd : redis_cmd) (answer : Q -> Redis -> A) : M A :=
  λ w, let (f, w1) := next_fault (log (EvRedis [cmd]) w) in
       match f with
       | NoFault => (Ok (answer w1.(clock) w1.(redis)), w1)
       | _ => (Raise RedisError, w1)
       end.

(* ===================================================================== *)
(** * publish/staging_store.py *)
(* ===================================================================== *)

Record StagedArticle : Type := mkStaged {
  article : Article;
  staged_at : Q;
  last_checked_ts : Q;
}.

Definition _normalize_article_id (value : py_arg) : string := py_str value.

Definition _serialize_article (a : Article) : json := asdict a.

Definition json_dumps (j : json) : raw := Text j.

(** [json.loads(raw if isinstance(raw, str) else raw.decode("utf-8"))] *)
Definition json_loads (v : raw) : outcome json :=
  match v with
  | Text j => Ok j
  | Garbled _ => Raise JSONDecodeError
  end.

Definition _deserialize_article (payload : option json) : outcome (option Article) :=
  match payload with
  | None => Ok None
  | Some p =>
      if negb (truthy p) then Ok None
      else match p with
           | JObj kw =>
               match tuples_of (references_or_empty kw) with
               | Ok refs =>
                   match Article_init (set_references refs kw) with
                   | Ok a => Ok (Some a)
                   | Raise TypeError => Ok None
                   | Raise e => Raise e
                   | Unmodelled => Unmodelled
                   end
               | Raise e => Raise e
               | Unmodelled => Unmodelled
               end
           | _ => Raise AttributeError
           end
  end.

Definition staged_payload (a : Article) (staged_at last_checked_ts : Q) : json :=
  JObj [ ("article", _serialize_article a);
         ("staged_at", JFloat staged_at);
         ("last_checked_ts", JFloat last_checked_ts) ].

Definition _persist (a : Article) (staged_at last_checked_ts : Q) : M (option StagedArticle) :=
  let article_id := _normalize_article_id (PyStr a.(article_id)) in
  let payload := staged_payload a staged_at last_checked_ts in
  try_except
    (redis_exec [SET_staged article_id (json_dumps payload); SADD_index article_id] ;;
     mret (Some (mkStaged a staged_at last_checked_ts)))
    is_RedisError
    (mret None).

Definition stage_article (a : Article) (now : option Q) : M (option StagedArticle) :=
  t ← time_time;
  let timestamp := float_or now t in
  _persist a timestamp timestamp.

Definition update_staged_article (staged : StagedArticle) (new_article : option Article)
    (score comment_count hn_time : option Z) (last_checked : option Q)
    : M (option StagedArticle) :=
  t ← time_time;
  let checked_at := float_or last_checked t in
  let base_article := default staged.(article) new_article in
  let updated_article :=
    mkArticle base_article.(article_id) base_article.(title) base_article.(url)
              base_article.(discussion_url) base_article.(summary) base_article.(image_url)
              base_article.(highlights) base_article.(top_comments) base_article.(references)
              (match score with Some s => Some s | None => base_article.(hn_score) end)
              (match comment_count with
               | Some c => Some c | None => base_article.(hn_comment_count) end)
              (match hn_time with Some h => Some h | None => base_article.(hn_posted_ts) end) in
  _persist updated_article staged.(staged_at) checked_at.

(** [data.get(key, default)] followed by [float(...)], for a loaded dict. *)
Definition float_member (key : string) (data : list (string * json)) (default : Q) : outcome Q :=
  match dict_get key data with
  | Some v => py_float v
  | None => Ok default
  end.

(** The part of the two readers that turns a loaded payload into a record:
    [data.get("article")], [_deserialize_article], and the two timestamps.
    [None] stands for the [continue] (or [return None]) taken when the article
    cannot be rebuilt. *)
Definition staged_of_data (data : json) : M (option StagedArticle) :=
  match data with
  | JObj members =>
      rebuilt ← lift (_deserialize_article (dict_get "article" members));
      match rebuilt with
      | None => mret None
      | Some a =>
          t ← time_time;
          staged_at ← lift (float_member "staged_at" members t);
          last_checked ← lift (float_member "last_checked_ts" members staged_at);
          mret (Some (mkStaged a staged_at last_checked))
      end
  | _ => lift (Raise AttributeError)        (* only a dict has [get] *)
  end.

(** The [try: data = json.loads(...) / except (JSONDecodeError,
    UnicodeDecodeError)] of the two readers; [None] is the handler's exit. *)
Definition try_json_loads (v : raw) : M (option json) :=
  try_except (data ← lift (json_loads v); mret (Some data)) is_DecodeError (mret None).

(** The second loop of [list_staged_articles], over
    [zip(article_ids, raw_payloads)]. *)
Fixpoint list_staged_loop (entries : list (string * option raw))
    (staged : list StagedArticle) : M (list StagedArticle) :=
  match entries with
  | [] => mret staged
  | (id, None) :: rest =>
      try_except (redis_exec [SREM_index id]) is_RedisError (mret ()) ;;
      list_staged_loop rest staged
  | (id, Some v) :: rest =>
      parsed ← try_json_loads v;
      match parsed with
      | None => list_staged_loop rest staged
      | Some data =>
          record ← staged_of_data data;
          match record with
          | None => list_staged_loop rest staged
          | Some sa => list_staged_loop rest (staged ++ [sa])
          end
      end
  end.

Definition list_staged_articles : M (list StagedArticle) :=
  raw_ids ← try_except
    (ids ← redis_query SMEMBERS_index (λ _ r, elements r.(staged_index)); mret (Some ids))
    is_RedisError (mret None);
  match raw_ids with
  | None => mret []
  | Some [] => mret []
  | Some article_ids =>
      raw_payloads ← try_except
        (vs ← redis_query (MGET_staged article_ids)
                (λ _ r, (λ id, r.(staged_payloads) !! id) <$> article_ids);
         mret (Some vs))
        is_RedisError (mret None);
      match raw_payloads with
      | None => mret []
      | Some payloads =>
          staged ← list_staged_loop (zip article_ids payloads) [];
          mret (py_sort staged_at staged)
      end
  end.

Definition get_staged_article (value : py_arg) : M (option StagedArticle) :=
  let id := _normalize_article_id value in
  fetched ← try_except
    (v ← redis_query (GET_staged id) (λ _ r, r.(staged_payloads) !! id); mret (Some v))
    is_RedisError (mret None);
  match fetched with
  | None | Some None => mret None
  | Some (Some v) =>
      parsed ← try_json_loads v;
      match parsed with
      | None => mret None
      | Some data => staged_of_data data
      end
  end.

Definition is_published (value : py_arg) : M bool :=
  let id := _normalize_article_id value in
  try_except
    (redis_query (SISMEMBER_published id) (λ _ r, bool_decide (id ∈ r.(published))))
    is_RedisError
    (mret false).

Definition mark_published (value : py_arg) : M bool :=
  let id := _normalize_article_id value in
  try_except
    (redis_exec [DEL_staged id; SREM_index id; SADD_published [id]] ;; mret true)
    is_RedisError
    (mret false).

Definition ensure_published (values : list py_arg) : M unit :=
  let normalized := _normalize_article_id <$> values in
  match normalized with
  | [] => mret ()
  | _ => try_except (redis_exec [SADD_published normalized]) is_RedisError (mret ())
  end.

Definition clear_stage (value : py_arg) : M unit :=
  let id := _normalize_article_id value in
  try_except (redis_exec [DEL_staged id; SREM_index id]) is_RedisError (mret ()).

(* ===================================================================== *)
(** * publish/pending_store.py *)
(* ===================================================================== *)

Record PendingPost : Type := mkPending {
  pending_article : Article;
  discussion_chat_id : option Z;
}.

Definition pending_payload (a : Article) (chat : option Z) : json :=
  JObj [ ("article", asdict a); ("discussion_chat_id", json_opt_int chat) ].

(** [PENDING_REDIS_TTL or None] *)
Definition pending_ttl : option Z :=
  if PENDING_REDIS_TTL =? 0 then None else Some PENDING_REDIS_TTL.

Definition store_pending_post (channel_post_id : Z) (a : Article) (chat : option Z) : M bool :=
  let payload := pending_payload a chat in
  let ttl := pending_ttl in
  try_except
    (redis_exec [SET_pending channel_post_id (json_dumps payload) ttl] ;; mret true)
    is_RedisError
    (mret false).

(** The value of [payload.get("discussion_chat_id")], at the type of the
    dataclass field it is stored in. *)
Definition chat_member (payload : list (string * json)) : outcome (option Z) :=
  match as_opt_int (dict_get "discussion_chat_id" payload) with
  | Some chat => Ok chat
  | None => Unmodelled
  end.

(** [pop_pending_post] from the decoded payload on. *)
Definition pending_of_data (payload : json) : outcome (option PendingPost) :=
  match payload with
  | JObj members =>
      (* article_payload = payload.get("article") or {} ; if not article_payload *)
      match dict_get "article" members with
      | None => Ok None
      | Some p =>
          if negb (truthy p) then Ok None
          else match p with
               | JObj kw =>
                   match tuples_of (references_or_empty kw) with
                   | Ok refs =>
                       match Article_init (set_references refs kw) with
                       | Ok a =>
                           match chat_member members with
                           | Ok chat => Ok (Some (mkPending a chat))
                           | Raise e => Raise e
                           | Unmodelled => Unmodelled
                           end
                       | Raise TypeError => Ok None
                       | Raise e => Raise e
                       | Unmodelled => Unmodelled
                       end
                   | Raise e => Raise e
                   | Unmodelled => Unmodelled
                   end
               | _ => Raise AttributeError       (* only a dict has [get] *)
               end
      end
  | _ => Raise AttributeError
  end.

Definition pop_pending_post (channel_post_id : Z) : M (option PendingPost) :=
  fetched ← try_except
    (v ← redis_query (GET_pending channel_post_id)
           (λ t r, r.(pending) !! channel_post_id ≫= live t);
     mret (Some v))
    is_RedisError (mret None);
  match fetched with
  | None => mret None                       (* the read failed *)
  | Some None => mret None                  (* miss *)
  | Some (Some raw_value) =>
      try_except (redis_exec [DEL_pending channel_post_id]) is_RedisError (mret ()) ;;
      parsed ← try_json_loads raw_value;
      match parsed with
      | None => mret None
      | Some payload => lift (pending_of_data payload)
      end
  end.

(* ===================================================================== *)
(** * tasks.py *)
(* ===================================================================== *)

(** ** [int(text)] on ASCII text: optional blanks around, an optional sign,
    then decimal digits, single underscores allowed between digits. *)

Definition is_blank (c : ascii) : bool :=
  let n := nat_of_ascii c in
  ((9 <=? n) && (n <=? 13) || (28 <=? n) && (n <=? 32))%nat.

Definition digit_of (c : ascii) : option Z :=
  let n := nat_of_ascii c in
  if ((48 <=? n) && (n <=? 57))%nat then Some (Z.of_nat n - 48) else None.

Fixpoint digits_value (acc : Z) (after_digit : bool) (cs : list ascii) : option Z :=
  match cs with
  | [] => if after_digit then Some acc else None
  | c :: rest =>
      match digit_of c with
      | Some d => digits_value (10 * acc + d) true rest
      | None =>
          if bool_decide (c = "_"%char) && after_digit
          then digits_value acc false rest
          else None
      end
  end.

Fixpoint drop_blanks (cs : list ascii) : list ascii :=
  match cs with
  | c :: rest => if is_blank c then drop_blanks rest else cs
  | [] => []
  end.

Definition strip (cs : list ascii) : list ascii :=
  reverse (drop_blanks (reverse (drop_blanks cs))).

Definition int_of_text (s : string) : option Z :=
  match strip (String.list_ascii_of_string s) with
  | "-"%char :: digits => Z.opp <$> digits_value 0 false digits
  | "+"%char :: digits => digits_value 0 false digits
  | digits => digits_value 0 false digits
  end.

(** [_int_or_none]: [int(value)], with [TypeError] and [ValueError] turned
    into [None]. *)
Definition _int_or_none (value : py_arg) : option Z :=
  match value with
  | PyNone => None
  | PyInt z => Some z
  | PyStr s => int_of_text s
  end.

Definition arg_of_int (o : option Z) : py_arg :=
  match o with Some z => PyInt z | None => PyNone end.

(** [a or b] on optional ints: [None] and [0] are falsy. *)
Definition int_or (a b : option Z) : option Z :=
  match a with
  | Some n => if n =? 0 then b else Some n
  | None => b
  end.

(** ** The collaborators, as calls into the world *)

Definition get_story_ids (limit : Z) : M (list Z) :=
  λ w, (outcome_of (w.(hn_story_ids) limit), log (EvStoryIds limit) w).

Definition get_story_details (ids : list Z) : M (list story) :=
  λ w, (outcome_of (w.(hn_story_details) ids), log (EvStoryDetails ids) w).

Definition get_articles_by_ids (ids : list Z) : M (list Article) :=
  λ w, (outcome_of (w.(reader_articles) ids), log (EvArticlesByIds ids) w).

Definition send_article_bundle (chat : option Z) (a : Article) : M (option tg_message) :=
  λ w, (outcome_of (w.(tg_send_article) chat a), log (EvSendArticle chat a) w).

(** [send_comment_bundle] refuses to run without a thread or a message to
    reply to; every failure of its sends is caught inside and reported as
    [False]. *)
Definition send_comment_bundle (chat : Z) (a : Article) (thread_id root_reply_id : option Z)
    : M bool :=
  match thread_id, root_reply_id with
  | None, None => lift (Raise ValueError)
  | _, _ =>
      λ w, (Ok (w.(tg_send_comment) chat a thread_id root_reply_id),
            log (EvSendComment chat a thread_id root_reply_id) w)
  end.

(** [_get_telegram] of the worker and [_ensure_telegram] of the handlers. *)
Definition _get_telegram : M unit :=
  λ w, if w.(telegram_client) then (Ok (), w) else (Raise RuntimeError, w).

(** ** The tick *)

Definition _collect_top_story_ids (limit : Z) : M (list Z) :=
  raw_ids ← try_except (ids ← get_story_ids limit; mret (Some ids))
                       any_Exception (mret None);
  match raw_ids with
  | None => mret []
  | Some ids => mret (omap (λ raw_id, _int_or_none (PyInt raw_id)) ids)
  end.

(** The in-memory [staged_map] of a tick: a dict in insertion order. *)
Abbreviation staged_dict := (list (Z * StagedArticle)).

(** First loop of [_stage_new_articles]. *)
Fixpoint unseen_ids (candidate_ids : list Z) (staged_map : staged_dict)
    (pending_ids : list Z) : M (list Z) :=
  match candidate_ids with
  | [] => mret pending_ids
  | story_id :: rest =>
      if bool_decide (is_Some (dict_lookup story_id staged_map))
      then unseen_ids rest staged_map pending_ids
      else
        is_published (PyInt story_id) ≫= λ seen : bool,
        if seen then unseen_ids rest staged_map pending_ids
        else unseen_ids rest staged_map (pending_ids ++ [story_id])
  end.

(** Second loop of [_stage_new_articles]. *)
Fixpoint stage_each (articles : list Article) (staged_map : staged_dict) : M staged_dict :=
  match articles with
  | [] => mret staged_map
  | a :: rest =>
      match _int_or_none (PyStr a.(article_id)) with
      | None => stage_each rest staged_map
      | Some id =>
          staged_record ← stage_article a None;
          match staged_record with
          | None => stage_each rest staged_map
          | Some record => stage_each rest (dict_set id record staged_map)
          end
      end
  end.

(** [_stage_new_articles] changes the dict it is given; here it returns it. *)
Definition _stage_new_articles (candidate_ids : list Z) (staged_map : staged_dict)
    : M staged_dict :=
  pending_ids ← unseen_ids candidate_ids staged_map [];
  match pending_ids with
  | [] => mret staged_map
  | _ =>
      articles ← try_except (l ← get_articles_by_ids pending_ids; mret (Some l))
                            any_Exception (mret None);
      match articles with
      | None => mret staged_map
      | Some l => stage_each l staged_map
      end
  end.

(** [now - staged.last_checked_ts >= ARTICLE_METRIC_REFRESH_SECONDS] *)
Definition refresh_due (now : Q) (staged : StagedArticle) : bool :=
  Qle_bool (inject_Z ARTICLE_METRIC_REFRESH_SECONDS) (now - staged.(last_checked_ts)).

(** First loop of [_refresh_metrics]: the batch sent to Hacker News. *)
Fixpoint refresh_ids (staged_map : staged_dict) (now : Q) : list Z :=
  match staged_map with
  | [] => []
  | (id, staged) :: rest =>
      if refresh_due now staged then id :: refresh_ids rest now else refresh_ids rest now
  end.

(** Second loop of [_refresh_metrics]: [detail_by_id]. *)
Fixpoint index_details (details : list story) (detail_by_id : list (Z * story))
    : list (Z * story) :=
  match details with
  | [] => detail_by_id
  | item :: rest =>
      match _int_or_none item.(story_id) with
      | Some iid => index_details rest (dict_set iid item detail_by_id)
      | None => index_details rest detail_by_id
      end
  end.

(** Third loop of [_refresh_metrics]. *)
Fixpoint refresh_each (ids : list Z) (detail_by_id : list (Z * story)) (now : Q)
    (staged_map : staged_dict) : M staged_dict :=
  match ids with
  | [] => mret staged_map
  | id :: rest =>
      match dict_lookup id staged_map with
      | None => refresh_each rest detail_by_id now staged_map
      | Some staged =>
          let detail := dict_lookup id detail_by_id in
          updated ← update_staged_article staged None
                      (detail ≫= story_score) (detail ≫= story_descendants)
                      (detail ≫= story_time) (Some now);
          match updated with
          | Some record => refresh_each rest detail_by_id now (dict_set id record staged_map)
          | None => refresh_each rest detail_by_id now staged_map
          end
      end
  end.

Definition _refresh_metrics (staged_map : staged_dict) (now : Q) : M staged_dict :=
  match refresh_ids staged_map now with
  | [] => mret staged_map
  | batch =>
      details ← try_except (l ← get_story_details batch; mret (Some l))
                           any_Exception (mret None);
      match details with
      | None => mret staged_map
      | Some l => refresh_each batch (index_details l []) now staged_map
      end
  end.

Inductive reason : Type :=
| by_score          (* "score" *)
| by_comments       (* "comments" *)
| by_age.           (* "age" *)

(** The [extras] dict of [_should_graduate]. *)
Record Extras : Type := mkExtras {
  extras_score : Z;
  extras_comments : Z;
  extras_age_seconds : option Q;
}.

Definition _should_graduate (staged : StagedArticle) (now : Q)
    : bool * option reason * Extras :=
  let a := staged.(article) in
  let score := int_or_zero a.(hn_score) in
  let comments := int_or_zero a.(hn_comment_count) in
  let age_seconds :=
    match a.(hn_posted_ts) with
    | Some ts => if ts =? 0 then None else Some (Qmax 0 (now - inject_Z ts))
    | None => None
    end in
  let why :=
    if ARTICLE_MIN_POINTS <=? score then Some by_score
    else if ARTICLE_MIN_COMMENTS <=? comments then Some by_comments
    else match age_seconds with
         | Some age =>
             if Qle_bool (inject_Z ARTICLE_MAX_WAIT_SECONDS) age then Some by_age else None
         | None => None
         end in
  (bool_decide (is_Some why), why, mkExtras score comments age_seconds).

Abbreviation graduate := (StagedArticle * reason * Extras)%type.

(** [score_val] of [_publish_graduates]: the value in [extras], else the
    article's own, else 0. *)
Definition score_val (staged : StagedArticle) (extras : Extras) : Z :=
  match _int_or_none (PyInt extras.(extras_score)) with
  | Some v => v
  | None => int_or_zero (_int_or_none (arg_of_int staged.(article).(hn_score)))
  end.

Definition comments_val (staged : StagedArticle) (extras : Extras) : Z :=
  match _int_or_none (PyInt extras.(extras_comments)) with
  | Some v => v
  | None => int_or_zero (_int_or_none (arg_of_int staged.(article).(hn_comment_count)))
  end.

(** The test that sends a graduate to the discard branch. *)
Definition below_age_floor (g : graduate) : bool :=
  let '(staged, why, extras) := g in
  match why with
  | by_age =>
      (score_val staged extras <? ARTICLE_AGE_FLOOR_POINTS)
      && (comments_val staged extras <? ARTICLE_AGE_FLOOR_COMMENTS)
  | _ => false
  end.

(** The body of the loop of [_publish_graduates]. *)
Definition publish_graduate (g : graduate) : M unit :=
  let a := g.1.1.(article) in
  if below_age_floor g then
    mark_published (PyStr a.(article_id)) ;; mret ()
  else
    w ← world;
    sent ← try_except (m ← send_article_bundle w.(CHANNEL_ID) a; mret (Some m))
                      any_Exception (mret None);
    match sent with
    | None => mret ()                                   (* left staged for the next tick *)
    | Some main_message =>
        let channel_post_id := main_message ≫= msg_message_id in
        let linked_chat_id := main_message ≫= msg_linked_chat_id in
        let discussion_target := int_or w.(DISCUSSION_ID) linked_chat_id in
        match channel_post_id with
        | Some post_id => store_pending_post post_id a discussion_target ;; mret ()
        | None => mret ()
        end ;;
        mark_published (PyStr a.(article_id)) ;; mret ()
    end.

Fixpoint _publish_graduates (staged_items : list graduate) : M unit :=
  match staged_items with
  | [] => mret ()
  | g :: rest => publish_graduate g ;; _publish_graduates rest
  end.

(** The loop of [publish_latest] that fills [graduates], over
    [staged_map.values()]. *)
Fixpoint collect_graduates (staged_map : staged_dict) (now : Q) : list graduate :=
  match staged_map with
  | [] => []
  | (_, staged) :: rest =>
      match _should_graduate staged now with
      | (true, Some why, extras) => (staged, why, extras) :: collect_graduates rest now
      | _ => collect_graduates rest now
      end
  end.

(** The loop of [publish_latest] that fills [staged_map]. *)
Fixpoint index_staged (staged_articles : list StagedArticle) (staged_map : staged_dict)
    : staged_dict :=
  match staged_articles with
  | [] => staged_map
  | staged :: rest =>
      match _int_or_none (PyStr staged.(article).(article_id)) with
      | None => index_staged rest staged_map
      | Some id => index_staged rest (dict_set id staged staged_map)
      end
  end.

Definition publish_latest : M unit :=
  w ← world;
  match w.(CHANNEL_ID) with
  | None => mret ()
  | Some _ =>
      _get_telegram ;;
      candidate_ids ← _collect_top_story_ids WORKER_ARTICLE_LIMIT;
      staged_articles ← list_staged_articles;
      staged_map ← _stage_new_articles candidate_ids (index_staged staged_articles []);
      match staged_map with
      | [] => mret ()
      | _ =>
          now ← time_time;
          staged_map ← _refresh_metrics staged_map now;
          match collect_graduates staged_map now with
          | [] => mret ()
          | graduates => _publish_graduates (py_sort (λ g : graduate, g.1.1.(staged_at)) graduates)
          end
      end
  end.

(* ===================================================================== *)
(** * publish/handlers.py: the auto-forward handler *)
(* ===================================================================== *)

(** The members of a Telegram message that [handle_automatic_forward] reads. *)
Record Message : Type := mkMsg {
  is_automatic_forward : bool;
  chat_id : Z;                                   (* message["chat"]["id"] *)
  sender_chat_id : option Z;                     (* (message.get("sender_chat") or {}).get("id") *)
  message_id : option Z;
  message_thread_id : option Z;
  forward_origin : option (string * option Z);   (* its "type" and "message_id" *)
  forward_from_message_id : option Z;
}.

Definition origin_of (message : Message) : option Z :=
  let from_origin :=
    match message.(forward_origin) with
    | Some (kind, id) => if bool_decide (kind = "channel") then id else None
    | None => None
    end in
  match from_origin with
  | Some id => Some id
  | None => message.(forward_from_message_id)
  end.

(** [ARTICLE_BY_ID], the bot's in-memory cache behind the inline buttons, is
    written here too; nothing below reads it and it is left out of the world. *)
Definition handle_automatic_forward (message : Message) : M bool :=
  _get_telegram ;;
  if negb message.(is_automatic_forward) then mret false
  else
    w ← world;
    let source_channel_id := message.(sender_chat_id) in
    if bool_decide (w.(CHANNEL_ID) ≠ None ∧ source_channel_id ≠ w.(CHANNEL_ID))
    then mret false
    else
      match origin_of message with
      | None => mret false
      | Some origin_msg_id =>
          claimed ← pop_pending_post origin_msg_id;
          match claimed with
          | None => mret false
          | Some pending_post =>
              let target_chat_id :=
                default message.(chat_id)
                        (int_or pending_post.(discussion_chat_id) None) in
              let thread_id := message.(message_thread_id) in
              let root_reply_id := message.(message_id) in
              send_comment_bundle target_chat_id pending_post.(pending_article)
                                  thread_id root_reply_id ≫= λ posted : bool,
              if posted then mret true
              else
                store_pending_post origin_msg_id pending_post.(pending_article)
                                   pending_post.(discussion_chat_id) ;;
                mret false
          end
      end.

(* ===================================================================== *)
(** * Vocabulary of the statements *)
(* ===================================================================== *)

(** The ids the staging store holds: those with a payload key or an index entry. *)
Definition staged_ids (r : Redis) : gset string :=
  dom r.(staged_payloads) ∪ r.(staged_index).

(** No id is both staged and published. *)
Definition disjoint_stores (r : Redis) : Prop :=
  staged_ids r ## r.(published).

(** The Redis contents after the server ran [cmds] at time [t]. *)
Definition applied (t : Q) (cmds : list redis_cmd) (r : Redis) : Redis :=
  foldl (apply_cmd t) r cmds.

(** The operations of the staging store that write. *)
Inductive store_op : Type :=
| OpStage (a : Article) (now : option Q)
| OpRefresh (staged : StagedArticle) (score comment_count hn_time : option Z) (now : option Q)
| OpMarkPublished (id : py_arg)
| OpEnsurePublished (ids : list py_arg)
| OpClearStage (id : py_arg).

Definition run_op (op : store_op) (w : World) : World :=
  match op with
  | OpStage a now => (stage_article a now w).2
  | OpRefresh staged s c h now => (update_staged_article staged None s c h now w).2
  | OpMarkPublished id => (mark_published id w).2
  | OpEnsurePublished ids => (ensure_published ids w).2
  | OpClearStage id => (clear_stage id w).2
  end.

(** What the callers of the store must see to before an operation: an id
    that is staged or refreshed is not published, and an id that is seeded
    as published is not staged. *)
Definition op_allowed (op : store_op) (r : Redis) : Prop :=
  match op with
  | OpStage a _ => a.(article_id) ∉ r.(published)
  | OpRefresh staged _ _ _ _ => staged.(article).(article_id) ∉ r.(published)
  | OpEnsurePublished ids => ∀ v, v ∈ ids → py_str v ∉ staged_ids r
  | OpMarkPublished _ | OpClearStage _ => True
  end.

(** Histories of the store: allowed operations, with the clock and the
    fault script free to change between them. *)
Inductive history : World -> World -> Prop :=
| history_start w : history w w
| history_op w w' op :
    history w w' -> op_allowed op w'.(redis) -> history w (run_op op w')
| history_env w w' t fs :
    history w w' -> history w (set_clock t (set_faults fs w')).

(** A world to run examples in: empty Redis, no faults, collaborators that
    answer, the clock at 1000 s. *)
Definition quiet_world : World :=
  mkWorld (mkRedis ∅ ∅ ∅ ∅) 1000 [] [] (Some (-100)) None
          (λ _, Returned []) (λ _, Returned []) (λ _, Returned []) true
          (λ _ _, Returned (Some (mkMessage (Some 7) None))) (λ _ _ _ _, true).

Definition art42 : Article :=
  mkArticle "42" "A title" "https://example.org/a" "https://news.ycombinator.com/item?id=42"
            "A summary." None ["A summary."] []
            [("Original story", "https://example.org/a")] (Some 5) (Some 5) (Some 500).

(** The fault, if any, that the next round trip to Redis meets. *)
Definition first_fault (w : World) : fault := default NoFault (head w.(faults)).

(** Two articles that differ at most in the three engagement fields. *)
Definition same_but_metrics (a b : Article) : Prop :=
  a.(article_id) = b.(article_id) ∧ a.(title) = b.(title) ∧ a.(url) = b.(url)
  ∧ a.(discussion_url) = b.(discussion_url) ∧ a.(summary) = b.(summary)
  ∧ a.(image_url) = b.(image_url) ∧ a.(highlights) = b.(highlights)
  ∧ a.(top_comments) = b.(top_comments) ∧ a.(references) = b.(references).

(** [r'] is [r] with the payload [v] written under [id] and [id] in the
    index, whether or not [id] was there before; nothing else differs. *)
Definition upserted (id : string) (v : raw) (r r' : Redis) : Prop :=
  r'.(staged_payloads) !! id = Some v
  ∧ (∀ other, other ≠ id -> r'.(staged_payloads) !! other = r.(staged_payloads) !! other)
  ∧ r'.(staged_index) = {[id]} ∪ r.(staged_index)
  ∧ r'.(published) = r.(published)
  ∧ r'.(pending) = r.(pending).

(** ** The graduation decision *)

Inductive decision : Type :=
| Keep
| Publish (why : reason)
| Discard.

(** What one tick decides for a staged record: [_should_graduate] as
    [publish_latest] reads it, then the age-floor test of [_publish_graduates]. *)
Definition graduation_decision (staged : StagedArticle) (now : Q) : decision :=
  match _should_graduate staged now with
  | (true, Some why, extras) =>
      if below_age_floor (staged, why, extras) then Discard else Publish why
  | _ => Keep
  end.

(** The policy in the words of the design document; a score or comment count
    not yet observed counts as 0. *)
Definition reference_policy (staged : StagedArticle) (now : Q) : decision :=
  let score := default 0 staged.(article).(hn_score) in
  let commentCount := default 0 staged.(article).(hn_comment_count) in
  if bool_decide (score >= ARTICLE_MIN_POINTS) then Publish by_score
  else if bool_decide (commentCount >= ARTICLE_MIN_COMMENTS) then Publish by_comments
  else match staged.(article).(hn_posted_ts) with
       | Some postedAt =>
           if Qle_bool (inject_Z ARTICLE_MAX_WAIT_SECONDS) (now - inject_Z postedAt)
           then if bool_decide (score < ARTICLE_AGE_FLOOR_POINTS
                                ∧ commentCount < ARTICLE_AGE_FLOOR_COMMENTS)
                then Discard
                else Publish by_age
           else Keep
       | None => Keep
       end.

(** A record first seen at 0 s: posted at the epoch itself, 5 points, 5 comments. *)
Definition staged_epoch : StagedArticle :=
  mkStaged (mkArticle "7" "Old" "u" "d" "" None [] [] [] (Some 5) (Some 5) (Some 0)) 0 0.

Definition art7 : Article :=
  mkArticle "7" "Another title" "https://example.org/b" "https://news.ycombinator.com/item?id=7"
            "" None [] [] [("Original story", "https://example.org/b")] (Some 80) (Some 3) (Some 400).

(** The staged map of a tick at 1000 s: record 42 was last checked at 0 s,
    record 7 at 900 s. *)
Definition two_staged : staged_dict :=
  [(42, mkStaged art42 0 0); (7, mkStaged art7 900 900)].

(** ** Pending links *)

(** [x] has the link ([a], [chat]) registered, to expire at [deadline]. *)
Definition registered (x : Z) (a : Article) (chat : option Z) (deadline : option Q)
    (r : Redis) : Prop :=
  r.(pending) !! x = Some (json_dumps (pending_payload a chat), deadline).

Definition unexpired (t : Q) (deadline : option Q) : Prop :=
  match deadline with
  | Some d => (t < d)%Q
  | None => True
  end.

(** Normal operation of one claim: Redis answers its GET, and its DEL
    reaches the server. *)
Definition claim_undisturbed (fs : list fault) : Prop :=
  match fs with
  | [] | [NoFault] => True
  | NoFault :: f :: _ => f ≠ Dropped
  | _ => False
  end.

(** An auto-forward of channel post 7 into the discussion chat -200. *)
Definition forward_of_7 : Message :=
  mkMsg true (-200) (Some (-100)) (Some 31) None (Some ("channel", Some 7)) None.

(** The key [publish_latest] sorts the graduates by. *)
Definition staged_at_of (g : graduate) : Q := g.1.1.(staged_at).

(** The transaction [mark_published] sends for an id. *)
Definition mark_commands (id : string) : list redis_cmd :=
  [DEL_staged id; SREM_index id; SADD_published [id]].

(** ** Tactics that run the computations *)

Ltac run :=
  unfold stage_article, update_staged_article, mark_published, clear_stage, ensure_published,
    _persist, store_pending_post, time_time, world, lift,
    try_except, redis_exec, redis_query, next_fault,
    mbind, M_bind, mret, M_ret, log, set_faults, set_redis, set_clock in *;
  simpl in *.

Ltac split_world w :=
  let r := fresh "r" in let t := fresh "t" in let fs := fresh "fs" in
  destruct w as [r t fs ? ? ? ? ? ? ? ? ?];
  destruct fs as [|[| |] fs].

Ltac run_pending :=
  unfold pop_pending_post, store_pending_post, try_json_loads, try_except, redis_exec,
    redis_query, next_fault, lift, mbind, M_bind, mret, M_ret, log, set_faults, set_redis,
    set_clock in *;
  simpl in *.

(** The world in which a sent headline is marked: after the send, and after
    the pending link was written when the message has an id. *)
Definition after_send (g : graduate) (main_message : option tg_message) (w : World) : World :=
  let a := g.1.1.(article) in
  let sent := log (EvSendArticle w.(CHANNEL_ID) a) w in
  match main_message ≫= msg_message_id with
  | Some post_id =>
      (store_pending_post post_id a
         (int_or w.(DISCUSSION_ID) (main_message ≫= msg_linked_chat_id)) sent).2
  | None => sent
  end.

Definition is_redis_event (e : event) : Prop :=
  match e with EvRedis _ => True | _ => False end.

(** ** Stored payloads *)

(** The payload [_persist] writes for a record. *)
Definition encoded (sa : StagedArticle) : raw :=
  json_dumps (staged_payload sa.(article) sa.(staged_at) sa.(last_checked_ts)).

(** The corrupt and schema-mismatched payloads that the readers are written
    to survive: bytes that do not decode, and objects whose article member
    [_deserialize_article] gives up on (absent, empty, or with other member
    names than [Article] has fields). *)
Definition unreadable (v : raw) : Prop :=
  (∃ bytes, v = Garbled bytes)
  ∨ (∃ members, v = Text (JObj members)
                ∧ _deserialize_article (dict_get "article" members) = Ok None).

(** The record a payload decodes to, for the payloads above and those that
    [_persist] writes. *)
Definition decoded (v : raw) : option StagedArticle :=
  match v with
  | Text (JObj members) =>
      match _deserialize_article (dict_get "article" members),
            dict_get "staged_at" members, dict_get "last_checked_ts" members with
      | Ok (Some a), Some (JFloat s), Some (JFloat l) => Some (mkStaged a s l)
      | _, _, _ => None
      end
  | _ => None
  end.

(** Redis holding one index entry, "1", over the given payload. *)
Definition one_entry (v : raw) : World :=
  set_redis (mkRedis {[ "1" := v ]} {[ "1" ]} ∅ ∅) quiet_world.

(** A payload of another schema: its article has none of the members of
    [Article]. *)
Definition renamed_payload : raw :=
  Text (JObj [("article", JObj [("id", JStr "4")]); ("staged_at", JFloat 900)]).

(** Redis with four index entries: "1" over bytes that do not decode, "2"
    over the payload of a record, "3" over no payload at all, "4" over a
    payload of another schema. *)
Definition mixed_store : World :=
  set_redis (mkRedis (<[ "1" := Garbled "{" ]>
                        (<[ "2" := encoded (mkStaged art42 900 900) ]>
                           (<[ "4" := renamed_payload ]> ∅)))
                     {[ "1"; "2"; "3"; "4" ]} ∅ ∅)
            quiet_world.

(** Ascending in the sort key. *)
Definition key_le {A : Type} (key : A -> Q) (x y : A) : Prop := (key x <= key y)%Q.

(* ===================================================================== *)
(** * Further vocabulary *)
(* ===================================================================== *)



(** A computation that returns in every world. *)
Definition never_raises {A : Type} (m : M A) : Prop :=
  ∀ w, ∃ a, (m w).1 = Ok a.

(** The tick's map is keyed by the integer of each record's article id. *)
Definition keyed_by_id (staged_map : staged_dict) : Prop :=
  ∀ key staged, dict_lookup key staged_map = Some staged ->
    _int_or_none (PyStr staged.(article).(article_id)) = Some key.

(* ===================================================================== *)
(** * publish/formatter.py: the headline caption and the keyboard *)
(* ===================================================================== *)

Definition dquote : string := String "034"%char EmptyString.
Definition newline : string := String "010"%char EmptyString.

(** [html.escape(text, quote)], character by character: the ampersand and the
    angle brackets always, the two quotes when [quote] is set. *)
Fixpoint html_escape (quote : bool) (text : string) : string :=
  match text with
  | EmptyString => EmptyString
  | String c rest =>
      (if bool_decide (c = "&"%char) then "&amp;"
       else if bool_decide (c = "<"%char) then "&lt;"
       else if bool_decide (c = ">"%char) then "&gt;"
       else if quote && bool_decide (c = "034"%char) then "&quot;"
       else if quote && bool_decide (c = "'"%char) then "&#x27;"
       else String c EmptyString) +:+ html_escape quote rest
  end.

Definition escape (text : string) : string := html_escape false text.

(** [f"{value}"] of an optional int. *)
Definition format_int (value : option Z) : string := py_str (arg_of_int value).

(** [article.hn_score > 100 or article.hn_comment_count > 100]: comparing
    [None] with an int raises [TypeError], and [or] does not look at the
    comment count when the score is already above 100. *)
Definition is_hot (a : Article) : outcome bool :=
  match a.(hn_score) with
  | None => Raise TypeError
  | Some score =>
      if 100 <? score then Ok true
      else match a.(hn_comment_count) with
           | None => Raise TypeError
           | Some comments => Ok (100 <? comments)
           end
  end.

(** The articles [is_hot] cannot judge: no score, or a score of at most 100
    and no comment count. *)
Definition numbers_missing (a : Article) : Prop :=
  a.(hn_score) = None
  ∨ ∃ score, a.(hn_score) = Some score ∧ score <= 100 ∧ a.(hn_comment_count) = None.

Definition build_article_caption (a : Article) : outcome string :=
  let article_href := html_escape true a.(url) in
  let discussion_href := html_escape true a.(discussion_url) in
  match is_hot a with
  | Ok hot =>
      Ok ("<b><a href=" +:+ dquote +:+ article_href +:+ dquote +:+ ">"
          +:+ escape a.(title) +:+ "</a></b>" +:+ newline +:+ newline
          +:+ escape a.(summary) +:+ newline +:+ newline
          +:+ "<i><a href=" +:+ dquote +:+ discussion_href +:+ dquote
          +:+ ">Hacker News discussion</a></i>" +:+ newline
          +:+ format_int a.(hn_score) +:+ " points, "
          +:+ format_int a.(hn_comment_count) +:+ " comments"
          +:+ (if hot then " ðŸ”¥" else ""))
  | Raise e => Raise e
  | Unmodelled => Unmodelled
  end.

Definition build_article_keyboard (a : Article) : json :=
  JObj [("inline_keyboard",
         JArr [JArr [JObj [("text", JStr "More details");
                           ("callback_data", JStr ("details:" +:+ a.(article_id)))];
                     JObj [("text", JStr "Top comments");
                           ("callback_data", JStr ("comments:" +:+ a.(article_id)))]];
               JArr [JObj [("text", JStr "Related links");
                           ("callback_data", JStr ("refs:" +:+ a.(article_id)))]]])].

(* ===================================================================== *)
(** * publish/writer.py: sending the headline and the comment *)
(* ===================================================================== *)

Module Writer.

(** What a call of the Telegram client ends in for the writer: the message
    Telegram returned, or an exception, of which the writer reads
    [format_http_error(err).lower()]. *)
Inductive send_result : Type :=
| Sent (message : option tg_message)
| Refused (detail : string).

(** What the writer does to the outside: it sleeps and it calls the client. *)
Inductive call : Type :=
| Sleep (delay : Q)
| SendPhoto (chat_id : Z) (photo_url caption : string) (thread_id : option Z)
            (reply_markup : option json)
| SendMessage (chat_id : Z) (text : string) (thread_id reply_to : option Z)
              (reply_markup : option json) (disable_preview : bool)
              (allow_without_reply : option bool).

Definition is_send (c : call) : bool :=
  match c with Sleep _ => false | _ => true end.

(** The calls to the client among what was done. *)
Definition sends (calls : list call) : list call := filter (λ c, is_send c) calls.

(** The time slept. *)
Definition slept (calls : list call) : Q :=
  foldr (λ c total, match c with Sleep delay => delay + total | _ => total end)%Q 0%Q calls.

(** [if article.image_url:] *)
Definition photo_of (a : Article) : option string :=
  match a.(image_url) with
  | Some (String c rest) => Some (String c rest)
  | _ => None
  end.

(** [needle in text] *)
Fixpoint contains (needle text : string) : bool :=
  String.prefix needle text
  || match text with
     | EmptyString => false
     | String _ rest => contains needle rest
     end.

(** [items[:stop]] *)
Definition slice_to {A : Type} (stop : Z) (items : list A) : list A :=
  if stop <? 0 then take (Z.to_nat (Z.of_nat (length items) + stop)) items
  else take (Z.to_nat stop) items.

Definition backoffs : list Q := [0; 3 # 10; 8 # 10; 15 # 10]%Q.

Section Telegram.

(** The client, by the number of calls made to it before: [telegram n] is
    what call [n] ends in. *)
Variable telegram : nat -> send_result.

Definition send_article_bundle (chat_id : Z) (a : Article) (thread_id : option Z)
    (include_keyboard : bool) : outcome (option tg_message) * list call :=
  match build_article_caption a with
  | Ok caption =>
      let keyboard := if include_keyboard then Some (build_article_keyboard a) else None in
      let text := SendMessage chat_id caption thread_id None keyboard false None in
      let send_message (n : nat) (before : list call) :=
        match telegram n with
        | Sent message => (Ok message, before ++ [text])
        | Refused _ => (Raise TransportError, before ++ [text])
        end in
      match photo_of a with
      | Some photo_url =>
          let photo := SendPhoto chat_id photo_url caption thread_id keyboard in
          match telegram 0 with
          | Sent message => (Ok message, [photo])
          | Refused _ => send_message 1%nat [photo]
          end
      | None => send_message 0%nat []
      end
  | Raise e => (Raise e, [])
  | Unmodelled => (Unmodelled, [])
  end.

Definition recoverable (thread_id : option Z) (detail : string) : bool :=
  match thread_id with
  | Some _ => contains "message thread not found" detail
  | None => contains "message to reply" detail
  end.

(** The loop of [attempt_send] over [enumerate(backoffs[:attempts])], from
    call [n] of the client on. *)
Fixpoint attempt_loop (attempts : Z) (thread_id : option Z) (message : call)
    (steps : list (nat * Q)) (n : nat) : bool * list call :=
  match steps with
  | [] => (false, [])
  | (idx, delay) :: rest =>
      let wait := if Qeq_bool delay 0 then [] else [Sleep delay] in
      match telegram n with
      | Sent _ => (true, wait ++ [message])
      | Refused detail =>
          if recoverable thread_id detail && bool_decide (Z.of_nat idx + 1 < attempts)
          then let later := attempt_loop attempts thread_id message rest (S n) in
               (later.1, wait ++ message :: later.2)
          else (false, wait ++ [message])
      end
  end.

Definition attempt_send (chat_id : Z) (thread_id root_reply_id : option Z) (attempts : Z)
    (text : string) (disable_preview : bool) (reply_markup : option json)
    : bool * list call :=
  let message :=
    SendMessage chat_id text thread_id
                (match thread_id with Some _ => None | None => root_reply_id end)
                reply_markup disable_preview
                (match thread_id with Some _ => None | None => Some true end) in
  attempt_loop attempts thread_id message (imap pair (slice_to attempts backoffs)) 0.

(** [build_comment_body] of the formatter is taken as given. *)
Variable build_comment_body : Article -> string.

Definition send_comment_bundle (chat_id : Z) (a : Article)
    (thread_id root_reply_id : option Z) (attempts : Z) : outcome bool * list call :=
  match thread_id, root_reply_id with
  | None, None => (Raise ValueError, [])
  | _, _ =>
      let sent := attempt_send chat_id thread_id root_reply_id attempts
                               (build_comment_body a) false
                               (Some (build_article_keyboard a)) in
      (Ok sent.1, sent.2)
  end.

End Telegram.

(** What one step of the loop does when it comes to its send. *)
Definition step_calls (message : call) (step : nat * Q) : list call :=
  (if Qeq_bool step.2 0 then [] else [Sleep step.2]) ++ [message].

(** The longest run of [attempt_send]: four sends of the same message, with
    the backoffs between them. *)
Definition full_schedule (message : call) : list call :=
  [message; Sleep (3 # 10); message; Sleep (8 # 10); message; Sleep (15 # 10); message].

(** The message [attempt_send] sends, as many times as it takes. *)
Definition comment_message (chat_id : Z) (thread_id root_reply_id : option Z)
    (text : string) (keyboard : json) : call :=
  SendMessage chat_id text thread_id
              (match thread_id with Some _ => None | None => root_reply_id end)
              (Some keyboard) false
              (match thread_id with Some _ => None | None => Some true end).

(** A client that refuses twice, for a thread it cannot find, and then takes
    the message. *)
Definition flapping (n : nat) : send_result :=
  match n with
  | 0%nat | 1%nat => Refused "bad request: message thread not found"
  | _ => Sent None
  end.

End Writer.

(* ===================================================================== *)
(** * clients/telegram.py: one API call, with its retries *)
(* ===================================================================== *)

Module TelegramClient.

(** What [session.request] ends in: [requests.RequestException], or a
    response, whose [json()] raises [ValueError] on a [Garbled] body. *)
Inductive http_result : Type :=
| RequestException
| Response (status_code : Z) (body : raw).

(** The message a [TelegramAPIError] is built with. *)
Inductive reason : Type :=
| RequestFailed            (* "HTTP request failed: ..." *)
| UndecodableResponse      (* "Failed to decode Telegram response" *)
| HttpStatus               (* "HTTP <status>: <detail>" *)
| NotOk                    (* "Telegram API error: <detail>" *)
| Unspecific.              (* "Telegram request failed without specific error" *)

(** Where its [description] is taken from. *)
Inductive detail : Type :=
| Described (value : json)     (* [payload.get("description")], when truthy *)
| ResponseText                 (* [response.text] *)
| PayloadStr (payload : json). (* [str(payload)] *)

Inductive raised : Type :=
| TelegramAPIError (why : reason) (status_code : option Z) (description : option detail)
| PayloadAttributeError        (* [payload.get] on a payload that is no dict *)
| ResultKeyError.              (* [payload["result"]] on a payload without it *)

Record client : Type := mkClient {
  max_retries : Z;
  backoff : Q;
}.

(** [TelegramClient.__init__]; [None] stands for its [ValueError]. *)
Definition init (token : string) (retries : Z) (pause : Q) : option client :=
  if bool_decide (token = "") then None
  else Some (mkClient (Z.max 1 retries) (Qmax 0 pause)).

(** What the client does to the outside. *)
Inductive net_call : Type :=
| Request
| Sleep (seconds : Q).

(** The body of the loop of [_request] up to its last [if]: the call
    returns, an exception leaves the loop, or [last_error] is set. *)
Inductive attempt_result : Type :=
| Done (result : json)
| Escapes (e : raised)
| Retry (last_error : raised).

Definition described (members : list (string * json)) (otherwise : detail) : detail :=
  match dict_get "description" members with
  | Some value => if truthy value then Described value else otherwise
  | None => otherwise
  end.

Definition one_request (answer : http_result) : attempt_result :=
  match answer with
  | RequestException => Retry (TelegramAPIError RequestFailed None None)
  | Response status (Garbled _) =>
      Retry (TelegramAPIError UndecodableResponse (Some status) (Some ResponseText))
  | Response status (Text payload) =>
      if negb (status =? 200) then
        let found :=
          match payload with
          | JObj members => described members ResponseText
          | _ => ResponseText
          end in
        Retry (TelegramAPIError HttpStatus (Some status) (Some found))
      else
        match payload with
        | JObj members =>
            if negb (truthy (default JNull (dict_get "ok" members))) then
              Retry (TelegramAPIError NotOk (Some status)
                       (Some (described members (PayloadStr payload))))
            else
              match dict_get "result" members with
              | Some result => Done result
              | None => Escapes ResultKeyError
              end
        | _ => Escapes PayloadAttributeError
        end
  end.

(** [sleep_for = self.backoff * (2 ** attempt)], slept when it is not zero. *)
Definition pause (c : client) (attempt : nat) : list net_call :=
  let sleep_for := (c.(backoff) * inject_Z (2 ^ Z.of_nat attempt))%Q in
  if Qeq_bool sleep_for 0 then [] else [Sleep sleep_for].

(** What follows the loop. *)
Definition after_loop (last_error : option raised) : json + raised :=
  inr (default (TelegramAPIError Unspecific None None) last_error).

Section Session.

(** The HTTP session, by the attempt: [http n] is what request [n] of the
    call ends in. *)
Variable http : nat -> http_result.

Fixpoint request_loop (c : client) (attempts : list nat) (last_error : option raised)
    : (json + raised) * list net_call :=
  match attempts with
  | [] => (after_loop last_error, [])
  | attempt :: rest =>
      match one_request (http attempt) with
      | Done result => (inl result, [Request])
      | Escapes e => (inr e, [Request])
      | Retry e =>
          if bool_decide (Z.of_nat attempt + 1 = c.(max_retries))
          then (after_loop (Some e), [Request])
          else let later := request_loop c rest (Some e) in
               (later.1, Request :: pause c attempt ++ later.2)
      end
  end.

Definition _request (c : client) : (json + raised) * list net_call :=
  request_loop c (seq 0 (Z.to_nat c.(max_retries))) None.

End Session.

(** The time slept. *)
Definition slept (calls : list net_call) : Q :=
  foldr (λ call total, match call with Sleep s => s + total | Request => total end)%Q
        0%Q calls.

(** A session that fails to connect once, is told to slow down, and then
    gets its answer. *)
Definition recovering (n : nat) : http_result :=
  match n with
  | 0%nat => RequestException
  | 1%nat => Response 429 (Text (JObj [("ok", JBool false);
                                       ("description", JStr "Too Many Requests")]))
  | _ => Response 200 (Text (JObj [("ok", JBool true); ("result", JInt 1)]))
  end.

End TelegramClient.

(* ===================================================================== *)
(** * clients/hackernews.py: the details of a set of stories *)
(* ===================================================================== *)

Module HackerNews.

(** A normalized story: the dict [_normalize_story] builds. *)
Abbreviation story_dict := (list (string * json)).

(** [d.get(key)] as a JSON value: [None] is [null]. *)
Definition get (key : string) (members : list (string * json)) : json :=
  default JNull (dict_get key members).

(** The first loop of [get_story_details]: the ids as ints, each once, in
    the order of their first occurrence. *)
Fixpoint unique_ints (ids : list py_arg) (unique_ids : list Z) (seen : gset Z) : list Z :=
  match ids with
  | [] => unique_ids
  | raw_id :: rest =>
      match _int_or_none raw_id with
      | None => unique_ints rest unique_ids seen
      | Some iid =>
          if bool_decide (iid ∈ seen) then unique_ints rest unique_ids seen
          else unique_ints rest (unique_ids ++ [iid]) ({[iid]} ∪ seen)
      end
  end.

(** [order[iid]] for [order = {iid: i for i, iid in enumerate(unique_ids)}]. *)
Fixpoint index_of (iid : Z) (unique_ids : list Z) : option Z :=
  match unique_ids with
  | [] => None
  | first :: rest =>
      if bool_decide (first = iid) then Some 0
      else Z.succ <$> index_of iid rest
  end.

(** [order.get(s["id"], 1_000_000)]: an int, a bool and an integral float
    find the int they are equal to, [None] and text find nothing, a list or
    a dict cannot be hashed. *)
Definition sort_key (unique_ids : list Z) (story : story_dict) : outcome Z :=
  let at_int (n : Z) := default 1000000 (index_of n unique_ids) in
  match get "id" story with
  | JInt n => Ok (at_int n)
  | JBool b => Ok (at_int (if b then 1 else 0))
  | JFloat q =>
      Ok (if Qnum q `mod` Z.pos (Qden q) =? 0 then at_int (Qnum q `div` Z.pos (Qden q))
          else 1000000)
  | JNull | JStr _ => Ok 1000000
  | JArr _ | JObj _ => Raise TypeError
  end.

Fixpoint keyed (unique_ids : list Z) (stories : list story_dict)
    : outcome (list (Z * story_dict)) :=
  match stories with
  | [] => Ok []
  | story :: rest =>
      match sort_key unique_ids story with
      | Ok k =>
          match keyed unique_ids rest with
          | Ok l => Ok ((k, story) :: l)
          | Raise e => Raise e
          | Unmodelled => Unmodelled
          end
      | Raise e => Raise e
      | Unmodelled => Unmodelled
      end
  end.

Section Firebase.

(** [_fetch_item]: the JSON of the item, [None] when the request raised. *)
Variable fetch_item : Z -> option json.

(** [HN_WEB_ITEM.format(id=...)] of a JSON value. *)
Variable web_item : json -> string.

Definition _normalize_story (item : json) : outcome (option story_dict) :=
  if negb (truthy item) then Ok None
  else
    match item with
    | JObj members =>
        match dict_get "type" members with
        | Some (JStr kind) =>
            if bool_decide (kind = "story") then
              Ok (Some [("id", get "id" members);
                        ("title", get "title" members);
                        ("by", get "by" members);
                        ("time", get "time" members);
                        ("score", get "score" members);
                        ("descendants", get "descendants" members);
                        ("url", get "url" members);
                        ("hn_url", JStr (web_item (get "id" members)));
                        ("type", JStr "story")])
            else Ok None
        | _ => Ok None
        end
    | _ => Raise AttributeError
    end.

(** The loop over the futures, in the order in which they complete. *)
Fixpoint gather (completed : list Z) (stories : list story_dict)
    : outcome (list story_dict) :=
  match completed with
  | [] => Ok stories
  | iid :: rest =>
      match fetch_item iid with
      | None => gather rest stories
      | Some item =>
          if truthy item then
            match _normalize_story item with
            | Ok (Some story) => gather rest (stories ++ [story])
            | Ok None => gather rest stories
            | Raise e => Raise e
            | Unmodelled => Unmodelled
            end
          else gather rest stories
      end
  end.

(** [get_story_details]; [completed] is the order in which the pool
    finishes the fetches of the unique ids. *)
Definition get_story_details (ids : list py_arg) (completed : list Z)
    : outcome (list story_dict) :=
  match unique_ints ids [] ∅ with
  | [] => Ok []
  | unique_ids =>
      match gather completed [] with
      | Ok stories =>
          match keyed unique_ids stories with
          | Ok decorated => Ok ((py_sort (λ entry, inject_Z entry.1) decorated).*2)
          | Raise e => Raise e
          | Unmodelled => Unmodelled
          end
      | Raise e => Raise e
      | Unmodelled => Unmodelled
      end
  end.

(** The story Firebase has under an id, if it has one. *)
Definition story_of (iid : Z) : option story_dict :=
  match fetch_item iid with
  | Some item =>
      match _normalize_story item with
      | Ok (Some story) => Some story
      | _ => None
      end
  | None => None
  end.

(** The ids under which Firebase has a story. *)
Definition found (unique_ids : list Z) : list Z :=
  filter (λ iid, is_Some (story_of iid)) unique_ids.

(** A story with the key it is sorted by. *)
Definition decorated_of (unique_ids : list Z) (iid : Z) : option (Z * story_dict) :=
  match story_of iid with
  | Some story => Some (default 1000000 (index_of iid unique_ids), story)
  | None => None
  end.

(** Firebase answers with the item that was asked for: an object under
    [iid] carries the id [iid], and nothing else than an object or [null]
    comes back. *)
Definition well_formed (iid : Z) : Prop :=
  match fetch_item iid with
  | Some (JObj members) => members = [] ∨ dict_get "id" members = Some (JInt iid)
  | Some JNull | None => True
  | Some _ => False
  end.

End Firebase.

(** A Firebase with the stories 7 and 42, a comment under 8 and nothing
    under any other id. *)
Definition sample_items (iid : Z) : option json :=
  if iid =? 7 then
    Some (JObj [("id", JInt 7); ("type", JStr "story"); ("title", JStr "Seven");
                ("score", JInt 80)])
  else if iid =? 42 then
    Some (JObj [("id", JInt 42); ("type", JStr "story"); ("title", JStr "Forty-two")])
  else if iid =? 8 then Some (JObj [("id", JInt 8); ("type", JStr "comment")])
  else Some JNull.

(** [HN_WEB_ITEM.format(id=...)] where the id is an int or missing. *)
Definition sample_web_item (id : json) : string :=
  "https://news.ycombinator.com/item?id="
  +:+ match id with JInt n => pretty n | _ => "None" end.

End HackerNews.

(* ===================================================================== *)
(** * content/reader.py: building articles, and the bot's caches *)
(* ===================================================================== *)

Module Reader.

(** [int(value)] of a loaded JSON value, [None] where it raises [TypeError]
    or [ValueError]. *)
Definition _coerce_int (value : json) : option Z :=
  match value with
  | JInt n => Some n
  | JBool b => Some (if b then 1 else 0)
  | JFloat q => Some (Qnum q ÷ Z.pos (Qden q))
  | JStr s => int_of_text s
  | JNull | JArr _ | JObj _ => None
  end.

(** [str(value)], for the values whose text the model has. *)
Definition str_of (value : json) : outcome string :=
  match value with
  | JNull => Ok "None"
  | JBool b => Ok (if b then "True" else "False")
  | JInt n => Ok (pretty n)
  | JStr s => Ok s
  | JFloat _ | JArr _ | JObj _ => Unmodelled
  end.

(** [a or b] *)
Definition py_or (a b : json) : json := if truthy a then a else b.

(** A value that the dataclass declares as text. *)
Definition as_text (value : json) : outcome string :=
  match value with
  | JStr s => Ok s
  | _ => Unmodelled
  end.

(** [text.strip()]: the ASCII blanks are stripped as Python strips them;
    text that then begins or ends outside ASCII, where Python knows further
    blanks, is not modelled. *)
Definition py_strip (text : string) : outcome string :=
  let stripped := strip (String.list_ascii_of_string text) in
  let ascii_end (c : option ascii) :=
    match c with
    | Some c => (nat_of_ascii c <? 128)%nat
    | None => true
    end in
  if ascii_end (head stripped) && ascii_end (last stripped)
  then Ok (String.string_of_list_ascii stripped)
  else Unmodelled.

(** [(payload.get("summary") or "").strip()] *)
Definition summary_of (payload : list (string * json)) : outcome string :=
  match py_or (HackerNews.get "summary" payload) (JStr "") with
  | JStr text => py_strip text
  | _ => Raise AttributeError
  end.

Definition _build_article (payload : list (string * json)) : outcome Article :=
  let get key := HackerNews.get key payload in
  let url := py_or (get "url") (get "hn_url") in
  let discussion_url := py_or (get "hn_url") (py_or url (JStr "")) in
  match summary_of payload with
  | Ok summary =>
      match str_of (get "id"),
            as_text (py_or (get "title") (JStr "Untitled")),
            as_text (py_or url (JStr "https://news.ycombinator.com/")),
            as_text (py_or discussion_url (JStr "https://news.ycombinator.com/")),
            (match get "image" with
             | JNull => Ok None
             | JStr image => Ok (Some image)
             | _ => Unmodelled
             end)
      with
      | Ok id, Ok title, Ok url_text, Ok discussion_text, Ok image =>
          Ok (mkArticle id title url_text discussion_text summary image
                (if bool_decide (summary = "") then [] else [summary])
                []
                ((if truthy url then [("Original story", url_text)] else [])
                 ++ (if truthy discussion_url
                     then [("Hacker News discussion", discussion_text)] else []))
                (_coerce_int (get "score"))
                (_coerce_int (get "comment_count"))
                (_coerce_int (get "hn_time")))
      | _, _, _, _, _ => Unmodelled
      end
  | Raise e => Raise e
  | Unmodelled => Unmodelled
  end.

(** [[_build_article(p) for p in payloads]] *)
Fixpoint build_all (payloads : list (list (string * json))) : outcome (list Article) :=
  match payloads with
  | [] => Ok []
  | payload :: rest =>
      match _build_article payload with
      | Ok a =>
          match build_all rest with
          | Ok l => Ok (a :: l)
          | Raise e => Raise e
          | Unmodelled => Unmodelled
          end
      | Raise e => Raise e
      | Unmodelled => Unmodelled
      end
  end.

Definition ARTICLE_CACHE_TTL : Q := 180.

(** The module state of the bot process that the reader and the handlers
    share.  [ARTICLE_BY_ID] is a name in two modules: [publish/handlers.py]
    imports it from [content/reader.py], which binds the handlers' name to
    the dict the reader's name is bound to at that moment.  The dicts are
    kept in [objects], and each name holds the position of its dict. *)
Record Modules : Type := mkModules {
  objects : list (list (string * Article));
  reader_ARTICLE_BY_ID : nat;
  handlers_ARTICLE_BY_ID : nat;
  ARTICLE_CACHE : list Article;
  ARTICLE_CACHE_TS : Q;
  fetches : nat;   (* the calls made to [get_top_articles_with_exa] *)
}.

(** The state after the imports: one empty dict, under both names. *)
Definition imported : Modules := mkModules [[]] 0 0 [] 0 0.

(** [d[key] = value] on the dict a name is bound to. *)
Definition store_in (name : nat) (a : Article) (m : Modules) : Modules :=
  mkModules (alter (dict_set a.(article_id) a) name m.(objects))
            m.(reader_ARTICLE_BY_ID) m.(handlers_ARTICLE_BY_ID)
            m.(ARTICLE_CACHE) m.(ARTICLE_CACHE_TS) m.(fetches).

(** [d.get(key)] on the dict a name is bound to. *)
Definition lookup_in (name : nat) (id : string) (m : Modules) : option Article :=
  m.(objects) !! name ≫= dict_get id.

(** The loop that ends [get_articles_by_ids] and [get_random_articles]:
    [ARTICLE_BY_ID[article.article_id] = article], in the reader. *)
Definition index_articles (articles : list Article) (m : Modules) : Modules :=
  foldl (λ m a, store_in m.(reader_ARTICLE_BY_ID) a m) m articles.

(** [ARTICLE_BY_ID[...] = article] in [handle_get] and
    [handle_automatic_forward], and [ARTICLE_BY_ID.get(article_id)] in
    [handle_callback_query]. *)
Definition handlers_store (a : Article) (m : Modules) : Modules :=
  store_in m.(handlers_ARTICLE_BY_ID) a m.

Definition handlers_lookup (id : string) (m : Modules) : option Article :=
  lookup_in m.(handlers_ARTICLE_BY_ID) id m.

Section Upstream.

(** [get_top_articles_with_exa(limit=...)]: the payloads, or an exception;
    [RuntimeError] stands for [ExaError] and every other [RuntimeError]. *)
Variable get_top_articles_with_exa : Z -> reply (list (list (string * json))).

(** [_refresh_articles]; [at_time] is what its [time.time()] returns. *)
Definition _refresh_articles (limit : Z) (at_time : Q) (m : Modules)
    : outcome unit * Modules :=
  let asked := mkModules m.(objects) m.(reader_ARTICLE_BY_ID) m.(handlers_ARTICLE_BY_ID)
                         m.(ARTICLE_CACHE) m.(ARTICLE_CACHE_TS) (S m.(fetches)) in
  match get_top_articles_with_exa limit with
  | Failed e => (Raise e, asked)
  | Returned payloads =>
      match build_all payloads with
      | Ok [] => (Raise RuntimeError, asked)
      | Ok articles =>
          (Ok (),
           mkModules (m.(objects) ++ [foldl (λ d a, dict_set a.(article_id) a d) [] articles])
                     (length m.(objects)) m.(handlers_ARTICLE_BY_ID)
                     articles at_time (S m.(fetches)))
      | Raise e => (Raise e, asked)
      | Unmodelled => (Unmodelled, asked)
      end
  end.

(** [_ensure_articles]; [now] is what its own [time.time()] returns. *)
Definition _ensure_articles (limit : Z) (now at_time : Q) (m : Modules)
    : outcome (list Article) * Modules :=
  if negb (bool_decide (m.(ARTICLE_CACHE) = []))
     && Qlt_bool (now - m.(ARTICLE_CACHE_TS)) ARTICLE_CACHE_TTL
     && (limit <=? Z.of_nat (length m.(ARTICLE_CACHE)))
  then (Ok m.(ARTICLE_CACHE), m)
  else
    match _refresh_articles limit at_time m with
    | (Ok _, m') => (Ok m'.(ARTICLE_CACHE), m')
    | (Raise RuntimeError, m') =>
        match m'.(ARTICLE_CACHE) with
        | [] => (Raise RuntimeError, m')
        | cached => (Ok cached, m')
        end
    | (Raise e, m') => (Raise e, m')
    | (Unmodelled, m') => (Unmodelled, m')
    end.

Definition get_articles (count : Z) (now at_time : Q) (m : Modules)
    : outcome (list Article) * Modules :=
  if count <=? 0 then (Ok [], m)
  else
    match _ensure_articles count now at_time m with
    | (Ok articles, m') => (Ok (take (Z.to_nat count) articles), m')
    | other => other
    end.

End Upstream.

(** ** [_enrich_story_payloads] and [get_articles_by_ids] *)

(** [exa_results[key] = item] for every item of the Exa answer that has an
    id or a url.  The dict is modelled for keys that are text. *)
Fixpoint exa_index (items : list json) (exa_results : list (string * list (string * json)))
    : outcome (list (string * list (string * json))) :=
  match items with
  | [] => Ok exa_results
  | JObj item :: rest =>
      match py_or (HackerNews.get "id" item) (HackerNews.get "url" item) with
      | JStr key =>
          if bool_decide (key = "") then exa_index rest exa_results
          else exa_index rest (dict_set key item exa_results)
      | JArr (_ :: _) | JObj (_ :: _) => Raise TypeError        (* no hash *)
      | JNull | JArr [] | JObj [] => exa_index rest exa_results
      | key => if truthy key then Unmodelled else exa_index rest exa_results
      end
  | _ :: _ => Raise AttributeError                              (* [item.get] *)
  end.

(** [exa_payload.get("results", []) or []], as the items the loop visits. *)
Definition exa_items (exa_payload : json) : outcome (list json) :=
  match exa_payload with
  | JObj members =>
      match dict_get "results" members with
      | None => Ok []
      | Some results =>
          if negb (truthy results) then Ok []
          else match results with
               | JArr items => Ok items
               | JObj _ | JStr _ => Raise AttributeError   (* the keys, the characters *)
               | _ => Raise TypeError                      (* not iterable *)
               end
      end
  | _ => Raise AttributeError
  end.

(** [exa_results.get(source_url) or {}] *)
Definition exa_entry_of (exa_results : list (string * list (string * json)))
    (source_url : json) : outcome (list (string * json)) :=
  match source_url with
  | JStr text => Ok (default [] (dict_get text exa_results))
  | JArr _ | JObj _ => Raise TypeError
  | _ => Ok []
  end.

Definition enriched_payload (story exa_entry : list (string * json)) : list (string * json) :=
  [("id", HackerNews.get "id" story);
   ("title", HackerNews.get "title" story);
   ("url", HackerNews.get "url" story);
   ("hn_url", HackerNews.get "hn_url" story);
   ("summary", py_or (HackerNews.get "summary" exa_entry) (JStr ""));
   ("image", HackerNews.get "image" exa_entry);
   ("author", HackerNews.get "by" story);
   ("score", HackerNews.get "score" story);
   ("comment_count", HackerNews.get "descendants" story);
   ("hn_time", HackerNews.get "time" story);
   ("published", HackerNews.get "publishedDate" exa_entry)].

Fixpoint enrich_each (exa_results : list (string * list (string * json)))
    (stories : list (list (string * json))) : outcome (list (list (string * json))) :=
  match stories with
  | [] => Ok []
  | story :: rest =>
      match exa_entry_of exa_results (HackerNews.get "url" story) with
      | Ok exa_entry =>
          match enrich_each exa_results rest with
          | Ok l => Ok (enriched_payload story exa_entry :: l)
          | Raise e => Raise e
          | Unmodelled => Unmodelled
          end
      | Raise e => Raise e
      | Unmodelled => Unmodelled
      end
  end.

(** The urls sent to Exa: those of the stories that have one. *)
Definition story_urls (stories : list (list (string * json))) : list json :=
  filter (λ u, truthy u) (HackerNews.get "url" <$> stories).

Section Exa.

(** [exa_fetch_contents(urls, ...)]: the decoded answer, or an exception. *)
Variable exa_fetch_contents : list json -> reply json.

(** [_enrich_story_payloads], with the calls it made to Exa.  Every
    exception of the call is raised again as [ExaError], a [RuntimeError]. *)
Definition _enrich_story_payloads (stories : list (list (string * json)))
    : outcome (list (list (string * json))) * list (list json) :=
  match stories with
  | [] => (Ok [], [])
  | _ =>
      match story_urls stories with
      | [] => (enrich_each [] stories, [])
      | urls =>
          (match exa_fetch_contents urls with
           | Failed _ => Raise RuntimeError
           | Returned exa_payload =>
               match exa_items exa_payload with
               | Ok items =>
                   match exa_index items [] with
                   | Ok exa_results => enrich_each exa_results stories
                   | Raise e => Raise e
                   | Unmodelled => Unmodelled
                   end
               | Raise e => Raise e
               | Unmodelled => Unmodelled
               end
           end, [urls])
      end
  end.

(** [get_articles_by_ids]: the articles, the calls made to Exa and the
    module state; [completed] is the order in which the fetches of
    [get_story_details] finish. *)
Definition get_articles_by_ids (fetch_item : Z -> option json) (web_item : json -> string)
    (ids : list py_arg) (completed : list Z) (m : Modules)
    : outcome (list Article) * list (list json) * Modules :=
  match HackerNews.unique_ints ids [] ∅ with
  | [] => (Ok [], [], m)
  | normalized_ids =>
      match HackerNews.get_story_details fetch_item web_item
                                         (PyInt <$> normalized_ids) completed with
      | Ok [] => (Ok [], [], m)
      | Ok stories =>
          match _enrich_story_payloads stories with
          | (Ok enriched, calls) =>
              match build_all enriched with
              | Ok articles => (Ok articles, calls, index_articles articles m)
              | Raise e => (Raise e, calls, m)
              | Unmodelled => (Unmodelled, calls, m)
              end
          | (Raise e, calls) => (Raise e, calls, m)
          | (Unmodelled, calls) => (Unmodelled, calls, m)
          end
      | Raise e => (Raise e, [], m)
      | Unmodelled => (Unmodelled, [], m)
      end
  end.

End Exa.

(** An enriched payload as [_enrich_story_payloads] builds it. *)
Definition sample_payload : list (string * json) :=
  [("id", JInt 42); ("title", JStr "Forty-two"); ("url", JStr "https://example.org/a");
   ("hn_url", JStr "https://news.ycombinator.com/item?id=42");
   ("summary", JStr " A summary. "); ("image", JNull); ("author", JStr "pg");
   ("score", JInt 5); ("comment_count", JInt 5); ("hn_time", JInt 500);
   ("published", JNull)].

End Reader.

(* ===================================================================== *)
(** * Running the store operations *)
(* ===================================================================== *)

(** A round trip that writes leaves Redis as it was, or as the server left it
    after running every command. *)
Lemma redis_exec_redis cmds w :
  redis (redis_exec cmds w).2 = redis w ∨
  redis (redis_exec cmds w).2 = applied (clock w) cmds (redis w).
Proof. split_world w; run; auto. Qed.

Lemma persist_redis a s l w :
  let id := a.(article_id) in
  redis (_persist a s l w).2 = redis w ∨
  redis (_persist a s l w).2 =
    applied (clock w) [SET_staged id (json_dumps (staged_payload a s l)); SADD_index id] (redis w).
Proof. split_world w; run; auto. Qed.

Lemma mark_published_redis v w :
  let id := py_str v in
  redis (mark_published v w).2 = redis w ∨
  redis (mark_published v w).2 =
    applied (clock w) [DEL_staged id; SREM_index id; SADD_published [id]] (redis w).
Proof. split_world w; run; auto. Qed.

Lemma mark_published_true v w :
  (mark_published v w).1 = Ok true ->
  let id := py_str v in
  redis (mark_published v w).2 =
    applied (clock w) [DEL_staged id; SREM_index id; SADD_published [id]] (redis w).
Proof. split_world w; run; intros; auto; discriminate. Qed.

Lemma clear_stage_redis v w :
  let id := py_str v in
  redis (clear_stage v w).2 = redis w ∨
  redis (clear_stage v w).2 = applied (clock w) [DEL_staged id; SREM_index id] (redis w).
Proof. split_world w; run; auto. Qed.

Lemma ensure_published_redis vs w :
  redis (ensure_published vs w).2 = redis w ∨
  redis (ensure_published vs w).2 = applied (clock w) [SADD_published (py_str <$> vs)] (redis w).
Proof.
  destruct vs as [|v vs]; [left; reflexivity|].
  split_world w; run; auto.
Qed.

(** Marking an id that is published and not staged changes nothing in Redis. *)
Lemma mark_applied_noop t id r :
  id ∈ r.(published) -> id ∉ staged_ids r ->
  applied t [DEL_staged id; SREM_index id; SADD_published [id]] r = r.
Proof.
  intros Hp Hs. destruct r as [sp si pu pe]. unfold applied, staged_ids in *. simpl in *.
  f_equal.
  - apply delete_id. apply not_elem_of_dom. set_solver.
  - set_solver.
  - set_solver.
Qed.

Lemma mark_applied_published t id r :
  let r' := applied t [DEL_staged id; SREM_index id; SADD_published [id]] r in
  id ∈ r'.(published) ∧ id ∉ staged_ids r'.
Proof.
  destruct r as [sp si pu pe]. unfold applied, staged_ids. simpl. split; [set_solver|].
  rewrite dom_delete_L. set_solver.
Qed.

(** C8. [mark_published] is idempotent: once a call has succeeded, calling it
    again on the same id, at any later time and whatever Redis does, leaves
    the published set, the staging store and the pending links as they are. *)
Theorem mark_published_idempotent (v : py_arg) (w : World) (t : Q) (fs : list fault) :
  (mark_published v w).1 = Ok true ->
  let w1 := (mark_published v w).2 in
  let w2 := (mark_published v (set_clock t (set_faults fs w1))).2 in
  py_str v ∈ w1.(redis).(published) ∧ w2.(redis) = w1.(redis).
Proof.
  intros Hok w1 w2.
  pose proof (mark_published_true v w Hok) as Hw1. cbv zeta in Hw1. fold w1 in Hw1.
  pose proof (mark_applied_published (clock w) (py_str v) (redis w)) as Hmark.
  cbv zeta in Hmark. rewrite <- Hw1 in Hmark. destruct Hmark as [Hin Hout].
  split; [exact Hin|].
  destruct (mark_published_redis v (set_clock t (set_faults fs w1))) as [H|H];
    cbv zeta in H; fold w2 in H; rewrite H.
  - destruct w1; reflexivity.
  - replace (redis (set_clock t (set_faults fs w1))) with (redis w1) by (destruct w1; reflexivity).
    apply mark_applied_noop; assumption.
Qed.

Lemma mark_published_idempotent_witness :
  let w1 := (mark_published (PyInt 42) (stage_article art42 None quiet_world).2).2 in
  "42" ∈ w1.(redis).(published) ∧
  (mark_published (PyStr "42") (set_clock 2000 (set_faults [Dropped] w1))).2.(redis) = w1.(redis).
Proof.
  apply (mark_published_idempotent (PyStr "42") (stage_article art42 None quiet_world).2
           2000 [Dropped]).
  reflexivity.
Defined.

(** ** Disjointness of the staging store and the published set *)

Lemma persist_applied_ids t id v r :
  let r' := applied t [SET_staged id v; SADD_index id] r in
  staged_ids r' = {[id]} ∪ staged_ids r ∧ r'.(published) = r.(published).
Proof.
  destruct r as [sp si pu pe]. unfold applied, staged_ids. simpl. split; [|reflexivity].
  rewrite dom_insert_L. set_solver.
Qed.

Lemma mark_applied_ids t id r :
  let r' := applied t [DEL_staged id; SREM_index id; SADD_published [id]] r in
  staged_ids r' = staged_ids r ∖ {[id]} ∧ r'.(published) = {[id]} ∪ r.(published).
Proof.
  destruct r as [sp si pu pe]. unfold applied, staged_ids. simpl. split; [|set_solver].
  rewrite dom_delete_L. set_solver.
Qed.

Lemma clear_applied_ids t id r :
  let r' := applied t [DEL_staged id; SREM_index id] r in
  staged_ids r' = staged_ids r ∖ {[id]} ∧ r'.(published) = r.(published).
Proof.
  destruct r as [sp si pu pe]. unfold applied, staged_ids. simpl. split; [|reflexivity].
  rewrite dom_delete_L. set_solver.
Qed.

Lemma ensure_applied_ids t ids r :
  let r' := applied t [SADD_published ids] r in
  staged_ids r' = staged_ids r ∧ r'.(published) = list_to_set ids ∪ r.(published).
Proof. destruct r as [sp si pu pe]. unfold applied, staged_ids. simpl. split; reflexivity. Qed.

Lemma update_staged_article_eq staged new s c h last_checked w :
  update_staged_article staged new s c h last_checked w =
  let base := default staged.(article) new in
  _persist (mkArticle base.(article_id) base.(title) base.(url) base.(discussion_url)
              base.(summary) base.(image_url) base.(highlights) base.(top_comments)
              base.(references)
              (match s with Some x => Some x | None => base.(hn_score) end)
              (match c with Some x => Some x | None => base.(hn_comment_count) end)
              (match h with Some x => Some x | None => base.(hn_posted_ts) end))
           staged.(staged_at) (float_or last_checked (clock w)) w.
Proof. reflexivity. Qed.

Lemma stage_article_redis a now w :
  let id := a.(article_id) in
  redis (stage_article a now w).2 = redis w ∨
  ∃ v, redis (stage_article a now w).2 = applied (clock w) [SET_staged id v; SADD_index id] (redis w).
Proof.
  pose proof (persist_redis a (float_or now (clock w)) (float_or now (clock w)) w) as [H|H];
    [left|right; eexists]; exact H.
Qed.

Lemma update_staged_article_redis staged new s c h now w :
  let id := (default staged.(article) new).(article_id) in
  redis (update_staged_article staged new s c h now w).2 = redis w ∨
  ∃ v, redis (update_staged_article staged new s c h now w).2 =
       applied (clock w) [SET_staged id v; SADD_index id] (redis w).
Proof.
  rewrite update_staged_article_eq. cbv zeta.
  match goal with |- context [_persist ?a ?s ?l w] =>
    pose proof (persist_redis a s l w) as [H|H] end;
    [left|right; eexists]; exact H.
Qed.

(** One allowed operation keeps the stores disjoint and loses no published id. *)
Lemma run_op_disjoint op w :
  disjoint_stores w.(redis) -> op_allowed op w.(redis) ->
  disjoint_stores (run_op op w).(redis) ∧
  w.(redis).(published) ⊆ (run_op op w).(redis).(published).
Proof.
  unfold disjoint_stores. intros Hd Hg. destruct op as [a now|st s c h now|v|vs|v]; simpl in *.
  - destruct (stage_article_redis a now w) as [H|[x H]]; cbv zeta in H; rewrite H; [set_solver|].
    destruct (persist_applied_ids (clock w) (article_id a) x (redis w)) as [-> ->]. set_solver.
  - destruct (update_staged_article_redis st None s c h now w) as [H|[x H]];
      cbv zeta in H; simpl (default _ _) in H; rewrite H; [set_solver|].
    destruct (persist_applied_ids (clock w) (article_id (article st)) x (redis w)) as [-> ->].
    set_solver.
  - destruct (mark_published_redis v w) as [H|H]; cbv zeta in H; rewrite H; [set_solver|].
    destruct (mark_applied_ids (clock w) (py_str v) (redis w)) as [-> ->]. set_solver.
  - destruct (ensure_published_redis vs w) as [H|H]; rewrite H; [set_solver|].
    destruct (ensure_applied_ids (clock w) (py_str <$> vs) (redis w)) as [-> ->].
    split; [|set_solver].
    intros id Hs Hp. apply elem_of_union in Hp as [Hp|Hp]; [|set_solver].
    apply elem_of_list_to_set, list_elem_of_fmap in Hp as (v & -> & Hv).
    exact (Hg v Hv Hs).
  - destruct (clear_stage_redis v w) as [H|H]; cbv zeta in H; rewrite H; [set_solver|].
    destruct (clear_applied_ids (clock w) (py_str v) (redis w)) as [-> ->]. set_solver.
Qed.

(** C1, as the code has it.  [mark_published] and [clear_stage] keep the
    staging store and the published set disjoint whatever the state;
    [stage_article] (and the refresh write) keeps them disjoint when its id is
    not published, and [ensure_published] when none of its ids is staged,
    which the store leaves to its callers.  Along every history of such calls
    the two stay disjoint, no id leaves the published set, and an id that is
    published is never staged again. *)
Theorem stores_stay_disjoint (w w' : World) :
  disjoint_stores w.(redis) -> history w w' ->
  disjoint_stores w'.(redis)
  ∧ w.(redis).(published) ⊆ w'.(redis).(published)
  ∧ ∀ id, id ∈ w.(redis).(published) -> id ∉ staged_ids w'.(redis).
Proof.
  intros Hd Hh.
  assert (disjoint_stores (redis w') ∧ published (redis w) ⊆ published (redis w')) as [H1 H2].
  { induction Hh as [w|w w' op Hh IH Hg|w w' t fs Hh IH].
    - split; [assumption|reflexivity].
    - destruct (IH Hd) as [IH1 IH2].
      destruct (run_op_disjoint op w' IH1 Hg) as [H1 H2].
      split; [assumption|]. etransitivity; eassumption.
    - destruct w'; exact (IH Hd). }
  split; [assumption|]. split; [assumption|].
  intros id Hp Hs. exact (H1 id Hs (H2 id Hp)).
Qed.

Lemma stores_stay_disjoint_witness :
  let w' := run_op (OpMarkPublished (PyInt 42)) (run_op (OpStage art42 None) quiet_world) in
  disjoint_stores w'.(redis)
  ∧ quiet_world.(redis).(published) ⊆ w'.(redis).(published)
  ∧ ∀ id, id ∈ quiet_world.(redis).(published) -> id ∉ staged_ids w'.(redis).
Proof.
  apply (stores_stay_disjoint quiet_world).
  - unfold disjoint_stores. vm_compute. set_solver.
  - apply (history_op _ _ (OpMarkPublished (PyInt 42))); [|exact I].
    apply (history_op _ _ (OpStage art42 None)); [apply history_start|].
    simpl. set_solver.
Defined.

(** C1 as stated fails on the code: seeding a staged id as published, and
    staging a published id, each put the id in both stores. *)
Lemma unchecked_calls_break_disjointness :
  let w1 := (stage_article art42 None quiet_world).2 in
  let w2 := (ensure_published [PyInt 42] w1).2 in
  let w3 := (mark_published (PyInt 42) quiet_world).2 in
  let w4 := (stage_article art42 None w3).2 in
  (disjoint_stores w1.(redis) ∧ ¬ disjoint_stores w2.(redis))
  ∧ (disjoint_stores w3.(redis) ∧ "42" ∈ w3.(redis).(published)
     ∧ "42" ∈ staged_ids w4.(redis) ∧ ¬ disjoint_stores w4.(redis)).
Proof.
  cbv zeta. unfold disjoint_stores.
  assert (∀ (X Y : gset string), bool_decide (X ## Y) = true -> X ## Y) as yes
    by (intros X Y; apply bool_decide_eq_true).
  assert (∀ (X Y : gset string), bool_decide (X ## Y) = false -> ¬ X ## Y) as no
    by (intros X Y; apply bool_decide_eq_false).
  assert (∀ (x : string) (X : gset string), bool_decide (x ∈ X) = true -> x ∈ X) as isin
    by (intros x X; apply bool_decide_eq_true).
  split; [split|split; [|split; [|split]]].
  - apply yes. vm_compute. reflexivity.
  - apply no. vm_compute. reflexivity.
  - apply yes. vm_compute. reflexivity.
  - apply isin. vm_compute. reflexivity.
  - apply isin. vm_compute. reflexivity.
  - apply no. vm_compute. reflexivity.
Qed.

(** ** Refresh *)

Lemma persist_run a s l w :
  let id := a.(article_id) in
  let v := json_dumps (staged_payload a s l) in
  match first_fault w with
  | NoFault =>
      (_persist a s l w).1 = Ok (Some (mkStaged a s l))
      ∧ upserted id v w.(redis) (_persist a s l w).2.(redis)
  | Dropped =>
      (_persist a s l w).1 = Ok None ∧ (_persist a s l w).2.(redis) = w.(redis)
  | ReplyLost =>
      (_persist a s l w).1 = Ok None
      ∧ upserted id v w.(redis) (_persist a s l w).2.(redis)
  end.
Proof.
  assert (∀ r t, upserted (article_id a) (json_dumps (staged_payload a s l)) r
            (applied t [SET_staged (article_id a) (json_dumps (staged_payload a s l));
                        SADD_index (article_id a)] r)) as Hup.
  { intros [sp si pu pe] t. unfold upserted, applied. simpl.
    split; [apply lookup_insert_eq|]. split; [|auto].
    intros other Hne. apply lookup_insert_ne. congruence. }
  split_world w; unfold first_fault; run; (split; [reflexivity|]); try reflexivity;
    match goal with |- upserted _ _ ?r _ => apply (Hup r 0%Q) end.
Qed.

Lemma float_or_nonzero (now default : Q) : ¬ (now == 0)%Q -> float_or (Some now) default = now.
Proof.
  intros H. unfold float_or. destruct (Qeq_bool now 0) eqn:E; [|reflexivity].
  apply Qeq_bool_iff in E. contradiction.
Qed.

(** C6, as the code has it.  A refresh with a time [now] other than 0
    computes a record that differs from the one given in the engagement
    fields alone, each replaced by the new value when one is given, with
    [staged_at] kept and [last_checked_ts] set to [now]; it writes the payload
    of that record under the id and puts the id in the index, without looking
    whether the id is staged, and returns the record; nothing else in Redis
    changes.  Only a Redis fault makes it return [None]. *)
Theorem refresh_replaces_metrics_and_upserts
    (staged : StagedArticle) (score comment_count hn_time : option Z) (now : Q) (w : World) :
  ¬ (now == 0)%Q ->
  let result := update_staged_article staged None score comment_count hn_time (Some now) w in
  ∃ record : StagedArticle,
    same_but_metrics record.(article) staged.(article)
    ∧ record.(article).(hn_score) = from_option Some staged.(article).(hn_score) score
    ∧ record.(article).(hn_comment_count)
      = from_option Some staged.(article).(hn_comment_count) comment_count
    ∧ record.(article).(hn_posted_ts) = from_option Some staged.(article).(hn_posted_ts) hn_time
    ∧ record.(staged_at) = staged.(staged_at)
    ∧ record.(last_checked_ts) = now
    ∧ let id := staged.(article).(article_id) in
      let v := json_dumps (staged_payload record.(article) record.(staged_at) now) in
      match first_fault w with
      | NoFault => result.1 = Ok (Some record) ∧ upserted id v w.(redis) result.2.(redis)
      | Dropped => result.1 = Ok None ∧ result.2.(redis) = w.(redis)
      | ReplyLost => result.1 = Ok None ∧ upserted id v w.(redis) result.2.(redis)
      end.
Proof.
  intros Hnow result. subst result.
  rewrite update_staged_article_eq. cbv zeta.
  rewrite (float_or_nonzero now (clock w) Hnow). simpl (default _ None).
  match goal with |- context [_persist ?a ?s ?l w] =>
    pose proof (persist_run a s l w) as Hrun; exists (mkStaged a s l) end.
  cbv zeta in Hrun. simpl in Hrun |- *.
  split; [repeat split|].
  split; [destruct score; reflexivity|].
  split; [destruct comment_count; reflexivity|].
  split; [destruct hn_time; reflexivity|].
  split; [reflexivity|]. split; [reflexivity|].
  exact Hrun.
Qed.

Lemma refresh_replaces_metrics_and_upserts_witness :
  ∃ record : StagedArticle,
    same_but_metrics record.(article) art42
    ∧ record.(article).(hn_score) = Some 60
    ∧ record.(article).(hn_comment_count) = Some 5
    ∧ record.(article).(hn_posted_ts) = Some 500
    ∧ record.(staged_at) = 900%Q
    ∧ record.(last_checked_ts) = 1500%Q
    ∧ (update_staged_article (mkStaged art42 900 900) None (Some 60) None None (Some 1500%Q)
         quiet_world).1 = Ok (Some record)
    ∧ upserted "42" (json_dumps (staged_payload record.(article) record.(staged_at) 1500))
        quiet_world.(redis)
        (update_staged_article (mkStaged art42 900 900) None (Some 60) None None (Some 1500%Q)
           quiet_world).2.(redis).
Proof.
  destruct (refresh_replaces_metrics_and_upserts (mkStaged art42 900 900) (Some 60) None None
              1500 quiet_world) as (record & H1 & H2 & H3 & H4 & H5 & H6 & H7).
  - intros H. discriminate H.
  - exists record. repeat (split; [assumption|]). exact H7.
Defined.

(** C6 as stated fails on the code: a refresh of a record that is not staged
    is neither an error nor a no-op, it stages the record; and a [now] of 0
    is taken as absent, so the wall clock is stored instead. *)
Lemma refresh_of_unstaged_record_stages_it :
  let staged := mkStaged art42 900 900 in
  let result := update_staged_article staged None (Some 60) None None (Some 1500%Q) quiet_world in
  let at_zero := update_staged_article staged None (Some 60) None None (Some 0%Q) quiet_world in
  staged_ids quiet_world.(redis) = ∅
  ∧ (∃ record, result.1 = Ok (Some record))
  ∧ "42" ∈ staged_ids result.2.(redis)
  ∧ (∃ record, at_zero.1 = Ok (Some record) ∧ record.(last_checked_ts) = 1000%Q).
Proof.
  cbv zeta. split; [|split; [|split]].
  - apply (bool_decide_eq_true _). vm_compute. reflexivity.
  - eexists. vm_compute. reflexivity.
  - apply (bool_decide_eq_true _). vm_compute. reflexivity.
  - eexists. split; [vm_compute; reflexivity|reflexivity].
Qed.

(** ** The graduation policy *)

Lemma int_or_none_int z : _int_or_none (PyInt z) = Some z.
Proof. reflexivity. Qed.

(** Clamping the age at 0 does not change the test against a positive wait. *)
Lemma age_test_clamped (x : Q) :
  Qle_bool (inject_Z ARTICLE_MAX_WAIT_SECONDS) (Qmax 0 x)
  = Qle_bool (inject_Z ARTICLE_MAX_WAIT_SECONDS) x.
Proof.
  apply Bool.eq_iff_eq_true. rewrite !Qle_bool_iff, Q.max_le_iff.
  split; [intros [H|H]; [|exact H]|intros H; right; exact H].
  exfalso. revert H. unfold ARTICLE_MAX_WAIT_SECONDS, SECONDS_IN_HOUR. simpl.
  unfold Qle. simpl. lia.
Qed.

(** C2, as the code has it.  For a record whose posting time is not the
    value 0 (which the code takes as unknown), what a tick decides is the
    policy of the design document: publish for the score, else for the
    comments, else, once the age has reached the maximal wait, discard below
    both floors and publish for the age otherwise, else keep.  A graduation
    for the score or the comments is never sent to the discard branch.  And
    the tick acts on that decision: a kept record is not among the graduates,
    a discarded one is marked published with nothing else done, and for a
    published one the loop goes on to the publish side effect. *)
Theorem graduation_follows_policy (staged : StagedArticle) (now : Q) :
  staged.(article).(hn_posted_ts) ≠ Some 0 ->
  graduation_decision staged now = reference_policy staged now
  ∧ (∀ why extras, why ≠ by_age -> below_age_floor (staged, why, extras) = false)
  ∧ ∀ key : Z,
      match graduation_decision staged now with
      | Keep => collect_graduates [(key, staged)] now = []
      | Discard =>
          ∃ g, collect_graduates [(key, staged)] now = [g] ∧ g.1.1 = staged
               ∧ ∀ w, publish_graduate g w
                      = (mark_published (PyStr staged.(article).(article_id)) ;; mret ()) w
      | Publish why =>
          ∃ extras, collect_graduates [(key, staged)] now = [(staged, why, extras)]
                    ∧ below_age_floor (staged, why, extras) = false
      end.
Proof.
  intros Hts. split; [|split].
  - unfold graduation_decision, reference_policy, _should_graduate, below_age_floor,
      score_val, comments_val.
    destruct staged as [a sa lc]. destruct a as [i t u d s im h c r sc cc ts].
    cbn [article hn_score hn_comment_count hn_posted_ts extras_score extras_comments] in *.
    rewrite !int_or_none_int.
    change (default 0 sc) with (int_or_zero sc). change (default 0 cc) with (int_or_zero cc).
    generalize (int_or_zero sc) (int_or_zero cc). intros score comments.
    generalize (age_test_clamped (now - inject_Z (default 0 ts))). intros Hage.
    unfold ARTICLE_MIN_POINTS, ARTICLE_MIN_COMMENTS, ARTICLE_AGE_FLOOR_POINTS,
      ARTICLE_AGE_FLOOR_COMMENTS in *.
    destruct (Z.leb_spec 50 score) as [H1|H1].
    { rewrite (bool_decide_eq_true_2 (score >= 50)) by lia. reflexivity. }
    rewrite (bool_decide_eq_false_2 (score >= 50)) by lia.
    destruct (Z.leb_spec 50 comments) as [H2|H2].
    { rewrite (bool_decide_eq_true_2 (comments >= 50)) by lia. reflexivity. }
    rewrite (bool_decide_eq_false_2 (comments >= 50)) by lia.
    destruct ts as [ts|]; [|reflexivity].
    destruct (Z.eqb_spec ts 0) as [->|Hne]; [congruence|].
    simpl in Hage. rewrite Hage. clear Hage.
    destruct (Qle_bool _ _); [|reflexivity]. simpl.
    destruct (Z.ltb_spec score 10) as [H3|H3];
      destruct (Z.ltb_spec comments 10) as [H4|H4]; simpl;
      [rewrite (bool_decide_eq_true_2 (score < 10 ∧ comments < 10)) by (split; assumption)
      |rewrite (bool_decide_eq_false_2 (score < 10 ∧ comments < 10)) by lia ..]; reflexivity.
  - intros why extras Hwhy. destruct why; try reflexivity. congruence.
  - intros key. unfold graduation_decision, collect_graduates.
    destruct (_should_graduate staged now) as [[[|] [why|]] extras] eqn:E; try reflexivity.
    destruct (below_age_floor (staged, why, extras)) eqn:F; cbv beta iota.
    + exists (staged, why, extras). split; [reflexivity|]. split; [reflexivity|].
      intros w. unfold publish_graduate. rewrite F. reflexivity.
    + exists extras. split; [reflexivity|]. exact F.
Qed.

Lemma graduation_follows_policy_witness :
  graduation_decision (mkStaged art42 0 0) 20000 = reference_policy (mkStaged art42 0 0) 20000
  ∧ graduation_decision (mkStaged art42 0 0) 20000 = Discard.
Proof.
  split; [|reflexivity].
  apply (graduation_follows_policy (mkStaged art42 0 0) 20000).
  simpl. discriminate.
Defined.

(** C2 as stated fails on the code: a record whose posting time is known to
    be 0 is kept, however old, where the policy discards it. *)
Lemma epoch_timestamp_is_taken_as_unknown :
  staged_epoch.(article).(hn_posted_ts) = Some 0
  ∧ graduation_decision staged_epoch 20000 = Keep
  ∧ reference_policy staged_epoch 20000 = Discard.
Proof. split; [reflexivity|]. split; reflexivity. Qed.

(** ** Refresh gating *)

Lemma dict_lookup_elem {V : Type} (key : Z) (v : V) (items : list (Z * V)) :
  dict_lookup key items = Some v -> (key, v) ∈ items.
Proof.
  induction items as [|[k v0] rest IH]; simpl; [discriminate|].
  destruct (decide (k = key)) as [->|Hne].
  - intros [= ->]. apply list_elem_of_here.
  - intros H. apply list_elem_of_further, IH, H.
Qed.

Lemma dict_lookup_unique {V : Type} (key : Z) (v v' : V) (items : list (Z * V)) :
  NoDup items.*1 -> dict_lookup key items = Some v -> (key, v') ∈ items -> v' = v.
Proof.
  induction items as [|[k v0] rest IH]; simpl; [discriminate|].
  intros Hnd Hl Hin. apply NoDup_cons in Hnd as [Hk Hnd].
  destruct (decide (k = key)) as [->|Hne].
  - injection Hl as ->. apply elem_of_cons in Hin as [[= ->]|Hin]; [reflexivity|].
    exfalso. apply Hk. apply list_elem_of_fmap. exists (key, v'). split; [reflexivity|exact Hin].
  - apply elem_of_cons in Hin as [[= -> ->]|Hin]; [congruence|]. exact (IH Hnd Hl Hin).
Qed.

Lemma dict_lookup_set_ne {V : Type} (key other : Z) (v : V) (items : list (Z * V)) :
  other ≠ key -> dict_lookup other (dict_set key v items) = dict_lookup other items.
Proof.
  intros Hne. induction items as [|[k v0] rest IH]; simpl.
  - destruct (decide (key = other)); [congruence|reflexivity].
  - destruct (decide (k = key)) as [->|Hk]; simpl.
    + destruct (decide (key = other)); [congruence|reflexivity].
    + destruct (decide (k = other)); [reflexivity|exact IH].
Qed.

Lemma refresh_ids_elem (staged_map : staged_dict) (now : Q) (id : Z) :
  id ∈ refresh_ids staged_map now
  ↔ ∃ staged, (id, staged) ∈ staged_map ∧ refresh_due now staged = true.
Proof.
  induction staged_map as [|[k st] rest IH]; simpl.
  - split; [intros H; inversion H|intros (st & H & _); inversion H].
  - destruct (refresh_due now st) eqn:E.
    + rewrite elem_of_cons, IH. split.
      * intros [->|(s & Hin & Hd)]; [exists st|exists s]; split; auto;
          [apply list_elem_of_here|apply list_elem_of_further, Hin].
      * intros (s & Hin & Hd). apply elem_of_cons in Hin as [[= -> ->]|Hin];
          [left; reflexivity|right; exists s; auto].
    + rewrite IH. split.
      * intros (s & Hin & Hd). exists s. split; [apply list_elem_of_further, Hin|exact Hd].
      * intros (s & Hin & Hd). apply elem_of_cons in Hin as [[= -> ->]|Hin];
          [congruence|exists s; auto].
Qed.

(** A write through [_persist] never raises and sends one transaction. *)
Lemma persist_ok a s l w :
  ∃ res, (_persist a s l w).1 = Ok res
         ∧ ∃ cmds, trace (_persist a s l w).2 = trace w ++ [EvRedis cmds].
Proof. split_world w; run; eexists; (split; [reflexivity|]); eexists; reflexivity. Qed.

Lemma refresh_each_ok ids details now (staged_map : staged_dict) w :
  ∃ staged_map' new,
    refresh_each ids details now staged_map w
    = (Ok staged_map', (refresh_each ids details now staged_map w).2)
    ∧ (∀ id, id ∉ ids -> dict_lookup id staged_map' = dict_lookup id staged_map)
    ∧ trace (refresh_each ids details now staged_map w).2 = trace w ++ new
    ∧ Forall is_redis_event new.
Proof.
  revert staged_map w. induction ids as [|id rest IH]; intros staged_map w; simpl.
  - exists staged_map, []. rewrite app_nil_r. repeat split; auto.
  - destruct (dict_lookup id staged_map) as [staged|] eqn:El.
    + unfold mbind, M_bind. rewrite update_staged_article_eq. cbv zeta.
      match goal with |- context [_persist ?a ?s ?l w] =>
        destruct (persist_ok a s l w) as (res & Hres & cmds & Htr);
        destruct (_persist a s l w) as [o w1] eqn:Ep end.
      simpl in Hres, Htr. subst o.
      destruct res as [record|].
      * destruct (IH (dict_set id record staged_map) w1) as (m' & new & Hrun & Hl & Ht & Hf).
        exists m', (EvRedis cmds :: new). rewrite Hrun at 1. simpl.
        split; [reflexivity|]. split; [|split].
        -- intros other Ho. rewrite Hl by set_solver. apply dict_lookup_set_ne. set_solver.
        -- rewrite Ht, Htr, <- app_assoc. reflexivity.
        -- constructor; [exact I|exact Hf].
      * destruct (IH staged_map w1) as (m' & new & Hrun & Hl & Ht & Hf).
        exists m', (EvRedis cmds :: new). rewrite Hrun at 1. simpl.
        split; [reflexivity|]. split; [|split].
        -- intros other Ho. apply Hl. set_solver.
        -- rewrite Ht, Htr, <- app_assoc. reflexivity.
        -- constructor; [exact I|exact Hf].
    + destruct (IH staged_map w) as (m' & new & Hrun & Hl & Ht & Hf).
      exists m', new. split; [exact Hrun|]. split; [|split; assumption].
      intros other Ho. apply Hl. set_solver.
Qed.

(** C9.  A record of the tick's staged map is in the refresh batch exactly
    when [now - last_checked_ts >= ARTICLE_METRIC_REFRESH_SECONDS].
    [_refresh_metrics] asks Hacker News for that batch and nothing else, and
    a record that is not due comes out of it unchanged, whatever the other
    records are. *)
Theorem refresh_batch_is_the_due_records
    (staged_map : staged_dict) (now : Q) (id : Z) (staged : StagedArticle) (w : World) :
  NoDup staged_map.*1 ->
  dict_lookup id staged_map = Some staged ->
  (id ∈ refresh_ids staged_map now
   ↔ (inject_Z ARTICLE_METRIC_REFRESH_SECONDS <= now - staged.(last_checked_ts))%Q)
  ∧ ∃ staged_map' new,
      (_refresh_metrics staged_map now w).1 = Ok staged_map'
      ∧ (id ∉ refresh_ids staged_map now -> dict_lookup id staged_map' = Some staged)
      ∧ trace (_refresh_metrics staged_map now w).2 = trace w ++ new
      ∧ ∀ ids, EvStoryDetails ids ∈ new -> ids = refresh_ids staged_map now.
Proof.
  intros Hnd Hl. split.
  - rewrite refresh_ids_elem. unfold refresh_due. split.
    + intros (st & Hin & Hd). rewrite (dict_lookup_unique id staged st staged_map Hnd Hl Hin) in Hd.
      apply Qle_bool_iff, Hd.
    + intros Hd. exists staged. split; [apply dict_lookup_elem, Hl|apply Qle_bool_iff, Hd].
  - unfold _refresh_metrics.
    destruct (refresh_ids staged_map now) as [|first rest] eqn:Eb.
    { exists staged_map, []. rewrite app_nil_r. simpl.
      repeat split; auto. intros ids H. inversion H. }
    remember (first :: rest) as batch eqn:Hb.
    assert ((let details := try_except (l ← get_story_details batch; mret (Some l))
                              any_Exception (mret None) in
             details ≫= λ details,
               match details with
               | None => mret staged_map
               | Some l => refresh_each batch (index_details l []) now staged_map
               end) w
            = match hn_story_details w batch with
              | Returned l => refresh_each batch (index_details l []) now staged_map
                                (log (EvStoryDetails batch) w)
              | Failed _ => (Ok staged_map, log (EvStoryDetails batch) w)
              end) as Hrun.
    { unfold mbind, M_bind, try_except, get_story_details. simpl.
      destruct (hn_story_details w batch); reflexivity. }
    cbv zeta in Hrun. rewrite Hrun. clear Hrun.
    destruct (hn_story_details w batch) as [l|e].
    + destruct (refresh_each_ok batch (index_details l []) now staged_map
                  (log (EvStoryDetails batch) w)) as (m' & new & Hrun & Hk & Ht & Hf).
      exists m', (EvStoryDetails batch :: new).
      rewrite Hrun at 1. split; [reflexivity|]. split; [|split].
      * intros Hni. rewrite Hk by exact Hni. exact Hl.
      * rewrite Ht. simpl. rewrite <- app_assoc. reflexivity.
      * intros ids Hin. apply elem_of_cons in Hin as [[= ->]|Hin]; [reflexivity|].
        rewrite Forall_forall in Hf. destruct (Hf _ Hin).
    + exists staged_map, [EvStoryDetails batch]. simpl.
      split; [reflexivity|]. split; [auto|]. split; [reflexivity|].
      intros ids Hin. apply list_elem_of_singleton in Hin as [= ->]. reflexivity.
Qed.

Lemma refresh_batch_is_the_due_records_witness :
  (7 ∈ refresh_ids two_staged 1000
   ↔ (inject_Z ARTICLE_METRIC_REFRESH_SECONDS <= 1000 - 900)%Q)
  ∧ ∃ staged_map' new,
      (_refresh_metrics two_staged 1000 quiet_world).1 = Ok staged_map'
      ∧ (7 ∉ refresh_ids two_staged 1000
         -> dict_lookup 7 staged_map' = Some (mkStaged art7 900 900))
      ∧ trace (_refresh_metrics two_staged 1000 quiet_world).2 = trace quiet_world ++ new
      ∧ ∀ ids, EvStoryDetails ids ∈ new -> ids = refresh_ids two_staged 1000.
Proof.
  apply (refresh_batch_is_the_due_records two_staged 1000 7 (mkStaged art7 900 900) quiet_world).
  - apply (bool_decide_eq_true _). vm_compute. reflexivity.
  - reflexivity.
Defined.

(** ** What the stores write can be read back *)

Lemma mapM_as_str (l : list string) : mapM as_str (JStr <$> l) = Some l.
Proof. apply mapM_fmap_Some. reflexivity. Qed.

Lemma mapM_as_pair (l : list (string * string)) :
  mapM as_pair ((λ r, JArr [JStr r.1; JStr r.2]) <$> l) = Some l.
Proof. apply mapM_fmap_Some. intros [a b]. reflexivity. Qed.

Lemma forallb_iterable_refs (l : list (string * string)) :
  forallb iterable ((λ r, JArr [JStr r.1; JStr r.2]) <$> l) = true.
Proof. induction l as [|x l IH]; [reflexivity|]. simpl. exact IH. Qed.


Lemma typed_article_members (i t u d s : string) (vim vh vc vr vsc vcc vts : json) :
  typed_article [ ("article_id", JStr i); ("title", JStr t); ("url", JStr u);
                  ("discussion_url", JStr d); ("summary", JStr s); ("image_url", vim);
                  ("highlights", vh); ("top_comments", vc); ("references", vr);
                  ("hn_score", vsc); ("hn_comment_count", vcc); ("hn_posted_ts", vts) ]
  = (im ← as_opt_str vim; h ← as_str_list vh; c ← as_str_list vc; r ← as_pair_list vr;
     sc ← as_opt_int (Some vsc); cc ← as_opt_int (Some vcc); ts ← as_opt_int (Some vts);
     Some (mkArticle i t u d s im h c r sc cc ts)).
Proof. reflexivity. Qed.

Lemma as_opt_int_json (o : option Z) : as_opt_int (Some (json_opt_int o)) = Some o.
Proof. destruct o; reflexivity. Qed.

Lemma as_opt_str_json (o : option string) : as_opt_str (json_opt_str o) = Some o.
Proof. destruct o; reflexivity. Qed.

(** Rebuilding an article from what [asdict] wrote gives the article back. *)
Lemma rebuild_asdict (a : Article) (kw : list (string * json)) :
  asdict a = JObj kw ->
  ∃ refs, tuples_of (references_or_empty kw) = Ok refs
          ∧ Article_init (set_references refs kw) = Ok a.
Proof.
  destruct a as [i t u d s im h c r sc cc ts]. intros [= <-].
  exists (JArr ((λ p, JArr [JStr p.1; JStr p.2]) <$> r)). split.
  - unfold references_or_empty.
    replace (dict_get "references" _)
      with (Some (JArr ((λ p : string * string, JArr [JStr p.1; JStr p.2]) <$> r)))
      by reflexivity.
    cbn [article_id title url discussion_url summary image_url highlights top_comments
         references hn_score hn_comment_count hn_posted_ts].
    match goal with |- context [truthy (JArr ?l)] =>
      replace (if truthy (JArr l) then JArr l else JArr []) with (JArr l)
        by (destruct l; reflexivity) end.
    unfold tuples_of. rewrite forallb_iterable_refs. reflexivity.
  - unfold Article_init.
    replace (forallb _ _ && forallb _ _) with true by reflexivity.
    match goal with |- context [typed_article ?l] =>
      replace (typed_article l) with (Some (mkArticle i t u d s im h c r sc cc ts)) end;
      [reflexivity|].
    symmetry. etransitivity; [apply typed_article_members|].
    unfold as_str_list, as_pair_list.
    cbn [article_id title url discussion_url summary image_url highlights top_comments
         references hn_score hn_comment_count hn_posted_ts].
    rewrite as_opt_str_json, !mapM_as_str, mapM_as_pair, !as_opt_int_json. reflexivity.
Qed.

Lemma pending_of_data_payload (a : Article) (chat : option Z) :
  pending_of_data (pending_payload a chat) = Ok (Some (mkPending a chat)).
Proof.
  unfold pending_of_data, pending_payload.
  replace (dict_get "article" _) with (Some (asdict a)) by reflexivity.
  destruct (asdict a) as [| | | | | |kw] eqn:E; try discriminate E.
  replace (negb (truthy (JObj kw))) with false
    by (injection E as <-; reflexivity).
  destruct (rebuild_asdict a kw E) as (refs & -> & ->).
  unfold chat_member.
  replace (dict_get "discussion_chat_id" _) with (Some (json_opt_int chat)) by reflexivity.
  rewrite as_opt_int_json. reflexivity.
Qed.

(** ** Claiming a pending link *)

Lemma live_unexpired t v deadline : unexpired t deadline -> live t (v, deadline) = Some v.
Proof.
  unfold live, unexpired, Qlt_bool. simpl. destruct deadline as [d|]; [|reflexivity].
  intros H. destruct (Qle_bool d t) eqn:E; [|reflexivity].
  apply Qle_bool_iff in E. exfalso. apply (Qlt_not_le _ _ H E).
Qed.

Lemma live_expired t v d : (d <= t)%Q -> live t (v, Some d) = None.
Proof.
  unfold live, Qlt_bool. simpl. intros H. apply Qle_bool_iff in H. rewrite H. reflexivity.
Qed.

(** A claim that finds no live entry returns [None], with or without faults. *)
Lemma pop_absent x w :
  w.(redis).(pending) !! x ≫= live w.(clock) = None ->
  (pop_pending_post x w).1 = Ok None ∧ (pop_pending_post x w).2.(redis) = w.(redis).
Proof.
  intros H. split_world w; run_pending; try rewrite H; split; reflexivity.
Qed.

(** A claim in normal operation of a registered, unexpired link returns it
    and removes it. *)
Lemma pop_registered x a chat deadline w :
  registered x a chat deadline w.(redis) -> unexpired w.(clock) deadline ->
  claim_undisturbed w.(faults) ->
  (pop_pending_post x w).1 = Ok (Some (mkPending a chat))
  ∧ (pop_pending_post x w).2.(redis).(pending) = delete x w.(redis).(pending)
  ∧ (pop_pending_post x w).2.(clock) = w.(clock)
  ∧ (pop_pending_post x w).2.(faults) = drop 2 w.(faults).
Proof.
  unfold registered. intros Hr Hu Hf.
  pose proof (live_unexpired (clock w) (json_dumps (pending_payload a chat)) deadline Hu) as Hl.
  pose proof (pending_of_data_payload a chat) as Hd.
  destruct w as [r t fs ? ? ? ? ? ? ? ? ?]. simpl in *.
  destruct fs as [|[| |] [|f fs]]; simpl in Hf; try contradiction;
    try (destruct f; try congruence);
    run_pending; rewrite Hr; simpl; rewrite Hl; simpl; rewrite Hd; auto.
Qed.

Lemma store_pending_registers x a chat w :
  first_fault w ≠ Dropped ->
  registered x a chat (Some (w.(clock) + inject_Z PENDING_REDIS_TTL)%Q)
             (store_pending_post x a chat w).2.(redis).
Proof.
  unfold registered, first_fault. intros Hf.
  split_world w; simpl in Hf; try congruence; run_pending; apply lookup_insert_eq.
Qed.

Lemma store_pending_true x a chat w :
  (store_pending_post x a chat w).1 = Ok true -> first_fault w = NoFault.
Proof. unfold first_fault. split_world w; run_pending; intros; congruence. Qed.

(** C3.  A link registered under [x] and claimed before it expires, in
    normal operation (Redis answers the GET and the DEL reaches the server),
    is returned by that claim and removed with it; a second claim of [x], at
    any time and whatever Redis does, returns [None].  So does the claim of
    an id with no entry, and the claim of a link whose time has run out. *)
Theorem pending_link_is_claimed_once
    (x : Z) (a : Article) (chat : option Z) (w : World) (t1 t2 : Q) (fs1 fs2 : list fault) :
  (store_pending_post x a chat w).1 = Ok true ->
  (t1 < w.(clock) + inject_Z PENDING_REDIS_TTL)%Q ->
  claim_undisturbed fs1 ->
  let w0 := (store_pending_post x a chat w).2 in
  let first := pop_pending_post x (set_clock t1 (set_faults fs1 w0)) in
  let second := pop_pending_post x (set_clock t2 (set_faults fs2 first.2)) in
  first.1 = Ok (Some (mkPending a chat))
  ∧ first.2.(redis).(pending) !! x = None
  ∧ second.1 = Ok None
  ∧ (∀ w' y, w'.(redis).(pending) !! y = None -> (pop_pending_post y w').1 = Ok None)
  ∧ ((w.(clock) + inject_Z PENDING_REDIS_TTL <= t2)%Q ->
     (pop_pending_post x (set_clock t2 (set_faults fs2 w0))).1 = Ok None).
Proof.
  intros Hstored Ht1 Hfs1 w0 first second.
  assert (registered x a chat (Some (clock w + inject_Z PENDING_REDIS_TTL)%Q) (redis w0)) as Hreg.
  { apply store_pending_registers. rewrite (store_pending_true _ _ _ _ Hstored). discriminate. }
  destruct (pop_registered x a chat (Some (clock w + inject_Z PENDING_REDIS_TTL)%Q)
              (set_clock t1 (set_faults fs1 w0))) as (Hfirst & Hgone & _ & _).
  { destruct w0; exact Hreg. }
  { destruct w0; exact Ht1. }
  { destruct w0; exact Hfs1. }
  fold first in Hfirst, Hgone.
  assert (pending (redis first.2) !! x = None) as Hnone.
  { rewrite Hgone. apply lookup_delete_eq. }
  split; [exact Hfirst|]. split; [exact Hnone|]. split; [|split].
  - apply pop_absent. destruct first.2 as [r ? ? ? ? ? ? ? ? ? ? ?]. simpl in *.
    rewrite Hnone. reflexivity.
  - intros w' y Hy. apply pop_absent. rewrite Hy. reflexivity.
  - intros Hlate. apply pop_absent. unfold registered in Hreg.
    destruct w0 as [r ? ? ? ? ? ? ? ? ? ? ?]. simpl in *. rewrite Hreg. simpl.
    apply live_expired, Hlate.
Qed.

Lemma pending_link_is_claimed_once_witness :
  let w0 := (store_pending_post 7 art42 (Some (-200)) quiet_world).2 in
  let first := pop_pending_post 7 (set_clock 1100 (set_faults [] w0)) in
  let second := pop_pending_post 7 (set_clock 1200 (set_faults [Dropped] first.2)) in
  first.1 = Ok (Some (mkPending art42 (Some (-200))))
  ∧ first.2.(redis).(pending) !! 7 = None
  ∧ second.1 = Ok None
  ∧ (∀ w' y, w'.(redis).(pending) !! y = None -> (pop_pending_post y w').1 = Ok None)
  ∧ ((quiet_world.(clock) + inject_Z PENDING_REDIS_TTL <= 1200)%Q ->
     (pop_pending_post 7 (set_clock 1200 (set_faults [Dropped] w0))).1 = Ok None).
Proof.
  apply (pending_link_is_claimed_once 7 art42 (Some (-200)) quiet_world 1100 1200 [] [Dropped]).
  - reflexivity.
  - reflexivity.
  - exact I.
Defined.

(** Outside normal operation the code prefers a second reply to a lost one:
    when the DEL of a claim never reaches Redis, the claim still returns the
    link, and the link stays to be claimed again. *)
Remark claim_with_dropped_delete_keeps_link :
  let w0 := (store_pending_post 7 art42 None quiet_world).2 in
  let first := pop_pending_post 7 (set_faults [NoFault; Dropped] w0) in
  first.1 = Ok (Some (mkPending art42 None))
  ∧ (pop_pending_post 7 first.2).1 = Ok (Some (mkPending art42 None)).
Proof. split; vm_compute; reflexivity. Qed.

(** What the handler does once its guards are passed and the claim has
    returned a link. *)
Lemma handle_automatic_forward_claimed message x p w :
  w.(telegram_client) = true ->
  message.(is_automatic_forward) = true ->
  (w.(CHANNEL_ID) = None ∨ message.(sender_chat_id) = w.(CHANNEL_ID)) ->
  origin_of message = Some x ->
  (pop_pending_post x w).1 = Ok (Some p) ->
  handle_automatic_forward message w
  = (let target := default message.(chat_id) (int_or p.(discussion_chat_id) None) in
     send_comment_bundle target p.(pending_article)
                         message.(message_thread_id) message.(message_id) ≫= λ posted : bool,
     if posted then mret true
     else store_pending_post x p.(pending_article) p.(discussion_chat_id) ;; mret false)
    (pop_pending_post x w).2.
Proof.
  intros Htc Hauto Hch Ho Hpop.
  unfold handle_automatic_forward, _get_telegram, world.
  unfold mbind at 1, M_bind at 1. rewrite Htc, Hauto. cbn [negb].
  unfold mbind at 1, M_bind at 1.
  rewrite bool_decide_eq_false_2 by (destruct Hch as [H|H]; rewrite H; tauto).
  rewrite Ho.
  unfold mbind at 1, M_bind at 1.
  destruct (pop_pending_post x w) as [o w1]. simpl in Hpop. subst o. reflexivity.
Qed.

(** C10.  When the handler has claimed the link of channel post [x] and the
    comment bundle could not be posted, it ends by writing the same link back
    under [x] through [store_pending_post] and returns [False].  Unless that
    write is lost on its way to Redis, [x] is registered again with a fresh
    expiry, and a later claim returns the link that was claimed. *)
Theorem failed_reply_restores_pending_link
    (message : Message) (x : Z) (p : PendingPost) (w : World) :
  w.(telegram_client) = true ->
  message.(is_automatic_forward) = true ->
  (w.(CHANNEL_ID) = None ∨ message.(sender_chat_id) = w.(CHANNEL_ID)) ->
  origin_of message = Some x ->
  (pop_pending_post x w).1 = Ok (Some p) ->
  (is_Some message.(message_thread_id) ∨ is_Some message.(message_id)) ->
  let w1 := (pop_pending_post x w).2 in
  let target := default message.(chat_id) (int_or p.(discussion_chat_id) None) in
  w1.(tg_send_comment) target p.(pending_article)
      message.(message_thread_id) message.(message_id) = false ->
  let w2 := log (EvSendComment target p.(pending_article)
                   message.(message_thread_id) message.(message_id)) w1 in
  let result := handle_automatic_forward message w in
  result.1 = Ok false
  ∧ result.2 = (store_pending_post x p.(pending_article) p.(discussion_chat_id) w2).2
  ∧ result.2.(trace)
    = w2.(trace) ++ [EvRedis [SET_pending x
                                (json_dumps (pending_payload p.(pending_article)
                                                             p.(discussion_chat_id)))
                                (Some PENDING_REDIS_TTL)]]
  ∧ (first_fault w2 ≠ Dropped ->
     registered x p.(pending_article) p.(discussion_chat_id)
                (Some (w2.(clock) + inject_Z PENDING_REDIS_TTL)%Q) result.2.(redis)
     ∧ ∀ t fs, (t < w2.(clock) + inject_Z PENDING_REDIS_TTL)%Q -> claim_undisturbed fs ->
         (pop_pending_post x (set_clock t (set_faults fs result.2))).1 = Ok (Some p)).
Proof.
  intros Htc Hauto Hch Ho Hpop Hreply w1 target Hsend w2 result.
  assert (result = (store_pending_post x (pending_article p) (discussion_chat_id p) ;;
                    mret false) w2) as Hres.
  { subst result. rewrite (handle_automatic_forward_claimed message x p w) by assumption.
    fold w1. cbv zeta. fold target.
    unfold send_comment_bundle.
    destruct (message_thread_id message) as [th|] eqn:Eth;
      [|destruct (message_id message) as [mi|] eqn:Emi;
        [|destruct Hreply as [[? H]|[? H]]; discriminate H]];
      unfold mbind at 1, M_bind at 1; rewrite Hsend; reflexivity. }
  assert (result.1 = Ok false
          ∧ result.2 = (store_pending_post x (pending_article p) (discussion_chat_id p) w2).2
          ∧ trace result.2
            = trace w2 ++ [EvRedis [SET_pending x
                                      (json_dumps (pending_payload (pending_article p)
                                                                   (discussion_chat_id p)))
                                      (Some PENDING_REDIS_TTL)]]) as (H1 & H2 & H3).
  { rewrite Hres. clear. split_world w2; run_pending; auto. }
  split; [exact H1|]. split; [exact H2|]. split; [exact H3|].
  intros Hf.
  pose proof (store_pending_registers x (pending_article p) (discussion_chat_id p) w2 Hf) as Hreg.
  rewrite <- H2 in Hreg. split; [exact Hreg|].
  intros t fs Ht Hfs.
  destruct (pop_registered x (pending_article p) (discussion_chat_id p)
              (Some (clock w2 + inject_Z PENDING_REDIS_TTL)%Q)
              (set_clock t (set_faults fs result.2))) as (Hagain & _).
  { destruct result.2; exact Hreg. }
  { destruct result.2; exact Ht. }
  { destruct result.2; exact Hfs. }
  rewrite Hagain. destruct p; reflexivity.
Qed.

Lemma failed_reply_restores_pending_link_witness :
  let w := mkWorld (store_pending_post 7 art42 (Some (-200)) quiet_world).2.(redis)
             1100 [] [] (Some (-100)) None
             (λ _, Returned []) (λ _, Returned []) (λ _, Returned []) true
             (λ _ _, Failed TransportError) (λ _ _ _ _, false) in
  let result := handle_automatic_forward forward_of_7 w in
  result.1 = Ok false
  ∧ registered 7 art42 (Some (-200)) (Some (1100 + inject_Z PENDING_REDIS_TTL)%Q)
               result.2.(redis)
  ∧ (pop_pending_post 7 (set_clock 1500 (set_faults [] result.2))).1
    = Ok (Some (mkPending art42 (Some (-200)))).
Proof.
  intros w result.
  destruct (failed_reply_restores_pending_link forward_of_7 7 (mkPending art42 (Some (-200))) w)
    as (H1 & _ & _ & H4); try reflexivity.
  - right. reflexivity.
  - right. eexists. reflexivity.
  - split; [exact H1|]. destruct H4 as [Hreg Hpop]; [discriminate|].
    split; [exact Hreg|]. apply Hpop; [reflexivity|exact I].
Defined.

(** ** The publish loop *)

Lemma mark_published_ok v w :
  ∃ b, (mark_published v w).1 = Ok b
       ∧ trace (mark_published v w).2 = trace w ++ [EvRedis (mark_commands (py_str v))]
       ∧ (first_fault w ≠ Dropped ->
          redis (mark_published v w).2 = applied (clock w) (mark_commands (py_str v)) (redis w)).
Proof.
  unfold first_fault.
  split_world w; run; eexists; (split; [reflexivity|]); (split; [reflexivity|]);
    intros; try reflexivity; congruence.
Qed.

Lemma store_pending_ok x a chat w :
  ∃ b, (store_pending_post x a chat w).1 = Ok b
       ∧ ∃ cmds, trace (store_pending_post x a chat w).2 = trace w ++ [EvRedis cmds].
Proof.
  split_world w; run_pending; eexists; (split; [reflexivity|]); eexists; reflexivity.
Qed.

Lemma bind_ok {A B : Type} (m : M A) (k : A -> M B) (w : World) (a : A) :
  (m w).1 = Ok a -> (m ≫= k) w = k a (m w).2.
Proof. unfold mbind, M_bind. destruct (m w) as [o w1]. simpl. intros ->. reflexivity. Qed.

Lemma publish_graduate_run (g : graduate) (w : World) :
  let a := g.1.1.(article) in
  publish_graduate g w =
  if below_age_floor g then (mark_published (PyStr a.(article_id)) ;; mret ()) w
  else match w.(tg_send_article) w.(CHANNEL_ID) a with
       | Failed _ => (Ok (), log (EvSendArticle w.(CHANNEL_ID) a) w)
       | Returned main_message =>
           (mark_published (PyStr a.(article_id)) ;; mret ()) (after_send g main_message w)
       end.
Proof.
  cbv zeta. unfold publish_graduate. destruct (below_age_floor g); [reflexivity|].
  unfold world, try_except, send_article_bundle, after_send.
  unfold mbind, M_bind, mret, M_ret. cbv beta.
  destruct (tg_send_article w (CHANNEL_ID w) (article g.1.1)) as [main_message|e];
    cbv beta iota delta [outcome_of]; [|reflexivity].
  destruct (option_bind _ _ msg_message_id main_message) as [post_id|];
    cbv beta iota; [|reflexivity].
  match goal with |- context [store_pending_post ?x ?a ?c ?w0] =>
    destruct (store_pending_ok x a c w0) as (b & Hb & _);
    destruct (store_pending_post x a c w0) as [o w1] end.
  simpl in Hb. subst o. reflexivity.
Qed.

Lemma mark_then_done v w :
  (mark_published v ;; mret ()) w = (Ok (), (mark_published v w).2).
Proof.
  destruct (mark_published_ok v w) as (b & Hb & _).
  unfold mbind, M_bind. destruct (mark_published v w) as [o w1]. simpl in *. subst o.
  reflexivity.
Qed.

(** The loop body never raises, and only adds to the trace. *)
Lemma publish_graduate_ok g w :
  (publish_graduate g w).1 = Ok () ∧ trace w `prefix_of` trace (publish_graduate g w).2.
Proof.
  rewrite publish_graduate_run. cbv zeta.
  destruct (below_age_floor g).
  { rewrite mark_then_done. cbn [fst snd]. split; [reflexivity|].
    destruct (mark_published_ok (PyStr (article_id (article g.1.1))) w) as (b & _ & -> & _).
    apply prefix_app_r. reflexivity. }
  destruct (tg_send_article w (CHANNEL_ID w) (article g.1.1)) as [m|e].
  - rewrite mark_then_done. cbn [fst snd]. split; [reflexivity|].
    match goal with |- context [mark_published ?v ?w0] =>
      destruct (mark_published_ok v w0) as (b & _ & -> & _) end.
    apply prefix_app_r. unfold after_send.
    destruct (m ≫= msg_message_id) as [post_id|].
    + match goal with |- context [store_pending_post ?x ?a ?c ?w0] =>
        destruct (store_pending_ok x a c w0) as (b' & _ & cmds & ->) end.
      simpl. rewrite <- app_assoc. apply prefix_app_r. reflexivity.
    + simpl. apply prefix_app_r. reflexivity.
  - split; [reflexivity|]. simpl. apply prefix_app_r. reflexivity.
Qed.

Lemma publish_graduates_cons g rest w :
  _publish_graduates (g :: rest) w = _publish_graduates rest (publish_graduate g w).2.
Proof.
  exact (bind_ok (publish_graduate g) (λ _, _publish_graduates rest) w ()
           (proj1 (publish_graduate_ok g w))).
Qed.

Lemma publish_graduates_ok l w :
  (_publish_graduates l w).1 = Ok () ∧ trace w `prefix_of` trace (_publish_graduates l w).2.
Proof.
  revert w. induction l as [|g rest IH]; intros w.
  - split; reflexivity.
  - rewrite publish_graduates_cons. destruct (IH (publish_graduate g w).2) as [H1 H2].
    split; [exact H1|]. etransitivity; [apply publish_graduate_ok|exact H2].
Qed.

(** The loop takes its items one after the other, in the order of the list. *)
Lemma publish_graduates_app l1 l2 w :
  _publish_graduates (l1 ++ l2) w = _publish_graduates l2 (_publish_graduates l1 w).2.
Proof.
  revert w. induction l1 as [|g rest IH]; intros w; [reflexivity|].
  rewrite <- app_comm_cons, !publish_graduates_cons. apply IH.
Qed.

(** C4.  For a graduate that the loop of [_publish_graduates] takes to the
    publish branch: when the send of the headline raises, the loop body ends
    there, with Redis untouched and nothing sent to it, so the record stays
    staged; when the send returns, the body goes on to [mark_published] in
    the world left by the send and by the write of the pending link, whether
    that write succeeded or not, and if the transaction reaches Redis the id
    is published and no longer staged. *)
Theorem publish_failure_keeps_staged_success_marks
    (before after : list graduate) (g : graduate) (w0 : World) :
  below_age_floor g = false ->
  let w := (_publish_graduates before w0).2 in
  let a := g.1.1.(article) in
  _publish_graduates (before ++ g :: after) w0
  = _publish_graduates after (publish_graduate g w).2
  ∧ match w.(tg_send_article) w.(CHANNEL_ID) a with
    | Failed _ =>
        (publish_graduate g w).2.(redis) = w.(redis)
        ∧ (publish_graduate g w).2.(trace) = w.(trace) ++ [EvSendArticle w.(CHANNEL_ID) a]
    | Returned main_message =>
        let w1 := after_send g main_message w in
        (∀ post_id, main_message ≫= msg_message_id = Some post_id ->
           ∃ stored : bool,
             store_pending_post post_id a
               (int_or w.(DISCUSSION_ID) (main_message ≫= msg_linked_chat_id))
               (log (EvSendArticle w.(CHANNEL_ID) a) w) = (Ok stored, w1))
        ∧ publish_graduate g w = (Ok (), (mark_published (PyStr a.(article_id)) w1).2)
        ∧ (publish_graduate g w).2.(trace)
          = w1.(trace) ++ [EvRedis (mark_commands a.(article_id))]
        ∧ (first_fault w1 ≠ Dropped ->
           a.(article_id) ∈ (publish_graduate g w).2.(redis).(published)
           ∧ a.(article_id) ∉ staged_ids (publish_graduate g w).2.(redis))
    end.
Proof.
  intros Hfloor w a. split.
  { rewrite publish_graduates_app, publish_graduates_cons. reflexivity. }
  rewrite publish_graduate_run. cbv zeta. rewrite Hfloor. fold a.
  destruct (tg_send_article w (CHANNEL_ID w) a) as [main_message|e].
  - rewrite mark_then_done. cbn [fst snd].
    destruct (mark_published_ok (PyStr (article_id a)) (after_send g main_message w))
      as (b & _ & Htrace & Hredis).
    split; [|split; [reflexivity|split; [exact Htrace|]]].
    + intros post_id Hid. unfold after_send. fold a. rewrite Hid.
      match goal with |- context [store_pending_post ?x ?a ?c ?w0] =>
        destruct (store_pending_ok x a c w0) as (stored & Hs & _);
        destruct (store_pending_post x a c w0) as [o w1] end.
      simpl in Hs. subst o. exists stored. reflexivity.
    + intros Hf. simpl. rewrite (Hredis Hf). apply mark_applied_published.
  - split; reflexivity.
Qed.

Lemma publish_failure_keeps_staged_success_marks_witness :
  let g : graduate := (mkStaged art7 900 900, by_score, mkExtras 80 3 (Some 600%Q)) in
  let w := (stage_article art7 (Some 900%Q) quiet_world).2 in
  "7" ∈ staged_ids w.(redis)
  ∧ "7" ∈ (publish_graduate g w).2.(redis).(published)
  ∧ "7" ∉ staged_ids (publish_graduate g w).2.(redis).
Proof.
  intros g w.
  destruct (publish_failure_keeps_staged_success_marks [] [] g w) as [_ H].
  - reflexivity.
  - simpl in H. destruct H as (_ & _ & _ & H). split.
    + apply (bool_decide_eq_true _). vm_compute. reflexivity.
    + apply H. discriminate.
Defined.

(** ** Sorting the graduates *)

Lemma sort_insert_perm {A : Type} (key : A -> Q) (x : A) (l : list A) : sort_insert key x l ≡ₚ x :: l.
Proof.
  induction l as [|y rest IH]; simpl; [reflexivity|].
  destruct (Qle_bool (key x) (key y)); [reflexivity|].
  rewrite IH. apply Permutation_swap.
Qed.

Lemma py_sort_perm {A : Type} (key : A -> Q) (l : list A) : py_sort key l ≡ₚ l.
Proof.
  induction l as [|x rest IH]; simpl; [reflexivity|].
  rewrite sort_insert_perm, IH. reflexivity.
Qed.

Lemma sort_insert_sorted {A : Type} (key : A -> Q) (x : A) (l : list A) :
  StronglySorted (key_le key) l -> StronglySorted (key_le key) (sort_insert key x l).
Proof.
  induction l as [|y rest IH]; simpl; intros Hs.
  - constructor; constructor.
  - apply StronglySorted_inv in Hs as [Hrest Hy].
    destruct (Qle_bool (key x) (key y)) eqn:E.
    + apply Qle_bool_iff in E. constructor; [constructor; assumption|].
      constructor; [exact E|].
      eapply Forall_impl; [exact Hy|]. intros z Hz. unfold key_le in *.
      eapply Qle_trans; eassumption.
    + constructor; [apply IH, Hrest|].
      rewrite sort_insert_perm. constructor; [|exact Hy].
      unfold key_le. destruct (Qlt_le_dec (key y) (key x)) as [H|H].
      * apply Qlt_le_weak, H.
      * apply Qle_bool_iff in H. congruence.
Qed.

Lemma py_sort_sorted {A : Type} (key : A -> Q) (l : list A) :
  StronglySorted (key_le key) (py_sort key l).
Proof.
  induction l as [|x rest IH]; simpl; [constructor|]. apply sort_insert_sorted, IH.
Qed.

(** In the sorted list, an element with a smaller key stands before one with
    a larger key. *)
Lemma py_sort_order {A : Type} (key : A -> Q) (l : list A) (a b : A) :
  a ∈ l -> b ∈ l -> (key a < key b)%Q ->
  ∃ l1 l2 l3, py_sort key l = l1 ++ a :: l2 ++ b :: l3.
Proof.
  intros Ha Hb Hlt.
  rewrite <- (py_sort_perm key l) in Ha, Hb.
  pose proof (py_sort_sorted key l) as Hs.
  apply list_elem_of_split in Ha as (l1 & rest & Hsplit).
  rewrite Hsplit in Hb, Hs.
  apply elem_of_app in Hb as [Hb|Hb].
  - exfalso. assert (key_le key b a) as Hle.
    { apply (StronglySorted_app_1_elem_of (key_le key) l1 (a :: rest)); [exact Hs|exact Hb|].
      apply list_elem_of_here. }
    unfold key_le in Hle. apply (Qlt_not_le _ _ Hlt Hle).
  - apply elem_of_cons in Hb as [->|Hb]; [exfalso; apply (Qlt_irrefl _ Hlt)|].
    apply list_elem_of_split in Hb as (l2 & l3 & ->).
    exists l1, l2, l3. exact Hsplit.
Qed.


(** C5.  Of two graduates of a tick, the one staged earlier is taken first:
    in the list that [publish_latest] hands to [_publish_graduates], sorted
    by [staged_at], it stands before the other, and the loop takes its items
    in the order of the list.  So everything the loop does for the earlier
    one, up to and including its publish or discard and its commit, is on
    the trace before the loop starts on the later one. *)
Theorem graduates_are_processed_oldest_first
    (staged_map : staged_dict) (now : Q) (gA gB : graduate) (w : World) :
  let graduates := collect_graduates staged_map now in
  gA ∈ graduates -> gB ∈ graduates ->
  (staged_at_of gA < staged_at_of gB)%Q ->
  ∃ l1 l2 l3,
    py_sort staged_at_of graduates = l1 ++ gA :: l2 ++ gB :: l3
    ∧ let wA := (_publish_graduates l1 w).2 in
      let doneA := (publish_graduate gA wA).2 in
      let wB := (_publish_graduates l2 doneA).2 in
      let doneB := (publish_graduate gB wB).2 in
      _publish_graduates (py_sort staged_at_of graduates) w = _publish_graduates l3 doneB
      ∧ doneA.(trace) `prefix_of` wB.(trace)
      ∧ wB.(trace) `prefix_of` doneB.(trace).
Proof.
  intros graduates HA HB Hlt.
  destruct (py_sort_order staged_at_of graduates gA gB HA HB Hlt) as (l1 & l2 & l3 & Hsort).
  exists l1, l2, l3. split; [exact Hsort|]. cbv zeta. split; [|split].
  - rewrite Hsort. rewrite publish_graduates_app, publish_graduates_cons,
      publish_graduates_app, publish_graduates_cons. reflexivity.
  - apply publish_graduates_ok.
  - apply publish_graduate_ok.
Qed.

Lemma graduates_are_processed_oldest_first_witness :
  let old : StagedArticle := mkStaged art42 100 100 in
  let young : StagedArticle := mkStaged art7 900 900 in
  let staged_map : staged_dict := [(7, young); (42, old)] in
  let gA : graduate := (old, by_age, mkExtras 5 5 (Some 19500%Q)) in
  let gB : graduate := (young, by_score, mkExtras 80 3 (Some 19600%Q)) in
  ∃ l1 l2 l3,
    py_sort staged_at_of (collect_graduates staged_map 20000) = l1 ++ gA :: l2 ++ gB :: l3
    ∧ let wA := (_publish_graduates l1 quiet_world).2 in
      let doneA := (publish_graduate gA wA).2 in
      let wB := (_publish_graduates l2 doneA).2 in
      let doneB := (publish_graduate gB wB).2 in
      _publish_graduates (py_sort staged_at_of (collect_graduates staged_map 20000)) quiet_world
      = _publish_graduates l3 doneB
      ∧ doneA.(trace) `prefix_of` wB.(trace)
      ∧ wB.(trace) `prefix_of` doneB.(trace).
Proof.
  intros old young staged_map gA gB.
  apply (graduates_are_processed_oldest_first staged_map 20000 gA gB quiet_world).
  - apply list_elem_of_further, list_elem_of_here.
  - apply list_elem_of_here.
  - reflexivity.
Defined.

(** ** Listing the staged records *)

Lemma deserialize_asdict (a : Article) : _deserialize_article (Some (asdict a)) = Ok (Some a).
Proof.
  unfold _deserialize_article.
  destruct (asdict a) as [| | | | | |kw] eqn:E; try discriminate E.
  replace (negb (truthy (JObj kw))) with false by (injection E as <-; reflexivity).
  destruct (rebuild_asdict a kw E) as (refs & -> & ->). reflexivity.
Qed.

Lemma decoded_encoded (sa : StagedArticle) : decoded (encoded sa) = Some sa.
Proof.
  destruct sa as [a s l].
  unfold decoded, encoded, json_dumps, staged_payload, _serialize_article.
  cbn [article staged_at last_checked_ts].
  change (dict_get "article" _) with (Some (asdict a)).
  rewrite deserialize_asdict. reflexivity.
Qed.

Lemma decoded_unreadable (v : raw) : unreadable v -> decoded v = None.
Proof.
  intros [[bytes ->]|(members & -> & H)]; [reflexivity|]. unfold decoded. rewrite H. reflexivity.
Qed.

(** What one turn of the loop does with a payload that is there. *)
Lemma staged_entry_run (v : raw) (w : World) :
  unreadable v ∨ (∃ sa, v = encoded sa) ->
  ∃ data, try_json_loads v w = (Ok data, w)
          ∧ match data with
            | Some d => staged_of_data d w = (Ok (decoded v), w)
            | None => decoded v = None
            end.
Proof.
  intros [[[bytes ->]|(members & -> & H)]|[sa ->]].
  - exists None. split; reflexivity.
  - exists (Some (JObj members)). split; [reflexivity|].
    unfold staged_of_data, decoded, lift, mbind, M_bind. rewrite H. reflexivity.
  - exists (Some (staged_payload (article sa) (staged_at sa) (last_checked_ts sa))).
    split; [reflexivity|]. rewrite decoded_encoded.
    destruct sa as [a s l].
    unfold staged_of_data, staged_payload, _serialize_article, lift, mbind, M_bind.
    cbn [article staged_at last_checked_ts].
    change (dict_get "article" _) with (Some (asdict a)).
    rewrite deserialize_asdict. reflexivity.
Qed.

Lemma srem_run (id : string) (w : World) :
  w.(faults) = [] ->
  ∃ w', try_except (redis_exec [SREM_index id]) is_RedisError (mret ()) w = (Ok (), w')
        ∧ w'.(faults) = []
        ∧ w'.(redis) = applied w.(clock) [SREM_index id] w.(redis)
        ∧ w'.(clock) = w.(clock).
Proof.
  destruct w as [r t fs ? ? ? ? ? ? ? ? ?]. simpl. intros ->.
  eexists. split; [reflexivity|]. simpl. auto.
Qed.

Lemma kept_cons (id : string) (o : option raw) (rest : list (string * option raw)) :
  omap (λ e : string * option raw, e.2 ≫= decoded) ((id, o) :: rest)
  = match o ≫= decoded with
    | Some sa => sa :: omap (λ e : string * option raw, e.2 ≫= decoded) rest
    | None => omap (λ e : string * option raw, e.2 ≫= decoded) rest
    end.
Proof. reflexivity. Qed.

Lemma pruned_cons (id : string) (o : option raw) (rest : list (string * option raw)) :
  omap (λ e : string * option raw, match e.2 with None => Some e.1 | Some _ => None end)
       ((id, o) :: rest)
  = match o with
    | None => id :: omap (λ e : string * option raw,
                            match e.2 with None => Some e.1 | Some _ => None end) rest
    | Some _ => omap (λ e : string * option raw,
                        match e.2 with None => Some e.1 | Some _ => None end) rest
    end.
Proof. destruct o; reflexivity. Qed.

(** The loop over the fetched payloads, in normal operation: it returns the
    records of the payloads that decode, and removes from the index the ids
    whose payload is missing, and only those. *)
Lemma list_staged_loop_run (entries : list (string * option raw))
    (staged : list StagedArticle) (w : World) :
  w.(faults) = [] ->
  (∀ id v, (id, Some v) ∈ entries -> unreadable v ∨ ∃ sa, v = encoded sa) ->
  ∃ w', list_staged_loop entries staged w
        = (Ok (staged ++ omap (λ e, e.2 ≫= decoded) entries), w')
        ∧ w'.(redis).(staged_index)
          = w.(redis).(staged_index) ∖ list_to_set (omap (λ e, match e.2 with
                                                                | None => Some e.1
                                                                | Some _ => None
                                                                end) entries)
        ∧ w'.(redis).(staged_payloads) = w.(redis).(staged_payloads)
        ∧ w'.(redis).(published) = w.(redis).(published).
Proof.
  revert staged w. induction entries as [|[id [v|]] rest IH]; intros staged w Hf Hb.
  - exists w. simpl. rewrite app_nil_r. split; [reflexivity|]. split; [set_solver|]. auto.
  - assert (∀ id v, (id, Some v) ∈ rest -> unreadable v ∨ ∃ sa, v = encoded sa) as Hrest
      by (intros i x Hi; apply (Hb i x), list_elem_of_further, Hi).
    destruct (staged_entry_run v w (Hb id v (list_elem_of_here _ _))) as (data & Hload & Hdata).
    cbn [list_staged_loop]. rewrite (bind_ok _ _ w data) by (rewrite Hload; reflexivity).
    rewrite Hload, kept_cons, pruned_cons. cbn [snd]. simpl (_ ≫= decoded).
    destruct data as [d|].
    + rewrite (bind_ok _ _ w (decoded v)) by (rewrite Hdata; reflexivity).
      rewrite Hdata. cbn [snd].
      destruct (decoded v) as [sa|].
      * destruct (IH (staged ++ [sa]) w Hf Hrest) as (w' & Hrun & Hi & Hp & Hpub).
        exists w'. rewrite Hrun, <- app_assoc. split; [reflexivity|].
        split; [exact Hi|]. split; assumption.
      * destruct (IH staged w Hf Hrest) as (w' & Hrun & Hi & Hp & Hpub).
        exists w'. split; [exact Hrun|]. split; [exact Hi|]. split; assumption.
    + rewrite Hdata.
      destruct (IH staged w Hf Hrest) as (w' & Hrun & Hi & Hp & Hpub).
      exists w'. split; [exact Hrun|]. split; [exact Hi|]. split; assumption.
  - assert (∀ id v, (id, Some v) ∈ rest -> unreadable v ∨ ∃ sa, v = encoded sa) as Hrest
      by (intros i x Hi; apply (Hb i x), list_elem_of_further, Hi).
    destruct (srem_run id w Hf) as (w1 & Hsrem & Hf1 & Hr1 & _).
    cbn [list_staged_loop]. rewrite (bind_ok _ _ w ()) by (rewrite Hsrem; reflexivity).
    rewrite Hsrem, kept_cons, pruned_cons. cbn [snd]. simpl (_ ≫= decoded).
    destruct (IH staged w1 Hf1 Hrest) as (w' & Hrun & Hi & Hp & Hpub).
    exists w'. split; [exact Hrun|]. rewrite Hi, Hp, Hpub, Hr1.
    destruct (redis w) as [sp si pu pe]. unfold applied. simpl. split; [set_solver|]. auto.
Qed.

Lemma smembers_run (w : World) :
  w.(faults) = [] ->
  try_except
    (ids ← redis_query SMEMBERS_index (λ _ r, elements r.(staged_index)); mret (Some ids))
    is_RedisError (mret None) w
  = (Ok (Some (elements w.(redis).(staged_index))), log (EvRedis [SMEMBERS_index]) w).
Proof. destruct w as [r t fs ? ? ? ? ? ? ? ? ?]. simpl. intros ->. reflexivity. Qed.

Lemma mget_run (ids : list string) (w : World) :
  w.(faults) = [] ->
  try_except
    (vs ← redis_query (MGET_staged ids) (λ _ r, (λ id, r.(staged_payloads) !! id) <$> ids);
     mret (Some vs))
    is_RedisError (mret None) w
  = (Ok (Some ((λ id, w.(redis).(staged_payloads) !! id) <$> ids)),
     log (EvRedis [MGET_staged ids]) w).
Proof. destruct w as [r t fs ? ? ? ? ? ? ? ? ?]. simpl. intros ->. reflexivity. Qed.

Lemma zip_with_lookup {A B : Type} (f : A -> B) (l : list A) :
  zip l (f <$> l) = (λ x, (x, f x)) <$> l.
Proof. induction l as [|x l IH]; [reflexivity|]. simpl. f_equal. exact IH. Qed.

(** C7, as the code has it.  In normal operation, over a store whose payloads
    are each either written by [_persist] or unreadable (bytes that do not
    decode, or an object whose article cannot be rebuilt for want of the right
    members), [list_staged_articles] does not raise; it returns, oldest first,
    exactly the records of the payloads that [_persist] wrote, so every
    unreadable one is dropped; and it removes from the index the ids whose
    payload key is missing, and no other: the index entry of an unreadable
    payload stays. *)
Theorem list_staged_drops_unreadable_prunes_missing (w : World) :
  w.(faults) = [] ->
  (∀ id v, id ∈ w.(redis).(staged_index) -> w.(redis).(staged_payloads) !! id = Some v ->
           unreadable v ∨ ∃ sa, v = encoded sa) ->
  let result := list_staged_articles w in
  ∃ records,
    result.1 = Ok records
    ∧ (∀ sa, sa ∈ records
             ↔ ∃ id, id ∈ w.(redis).(staged_index)
                     ∧ w.(redis).(staged_payloads) !! id = Some (encoded sa))
    ∧ StronglySorted (key_le staged_at) records
    ∧ (∀ id, id ∈ result.2.(redis).(staged_index)
             ↔ id ∈ w.(redis).(staged_index) ∧ is_Some (w.(redis).(staged_payloads) !! id))
    ∧ result.2.(redis).(staged_payloads) = w.(redis).(staged_payloads)
    ∧ result.2.(redis).(published) = w.(redis).(published).
Proof.
  intros Hf Hb result. subst result. unfold list_staged_articles.
  rewrite (bind_ok _ _ w (Some (elements (staged_index (redis w)))))
    by (rewrite (smembers_run w Hf); reflexivity).
  rewrite (smembers_run w Hf). cbn [snd].
  set (w1 := log (EvRedis [SMEMBERS_index]) w).
  assert (faults w1 = [] ∧ redis w1 = redis w) as [Hf1 Hr1]
    by (subst w1; destruct w; simpl in *; split; [assumption|reflexivity]).
  destruct (elements (staged_index (redis w))) as [|first others] eqn:Eids.
  { apply elements_empty_inv in Eids. apply leibniz_equiv in Eids.
    exists []. unfold mret, M_ret. cbn [fst snd]. rewrite Hr1, Eids.
    split; [reflexivity|]. split; [|split; [constructor|]].
    - intros sa. split; [intros H; inversion H|intros (id & Hid & _); set_solver].
    - split; [|auto]. intros id. split; [set_solver|intros [H _]; set_solver]. }
  rewrite <- Eids. set (ids := elements (staged_index (redis w))).
  assert (∀ id, id ∈ ids ↔ id ∈ staged_index (redis w)) as Hids
    by (intros id; apply elem_of_elements).
  replace (match ids with [] => mret [] | _ => _ end)
    with (raw_payloads ← try_except
            (vs ← redis_query (MGET_staged ids)
                    (λ _ r, (λ id, r.(staged_payloads) !! id) <$> ids);
             mret (Some vs))
            is_RedisError (mret None);
          match raw_payloads with
          | None => mret []
          | Some payloads =>
              staged ← list_staged_loop (zip ids payloads) [];
              mret (py_sort staged_at staged)
          end)
    by (subst ids; rewrite Eids; reflexivity).
  rewrite (bind_ok _ _ w1 (Some ((λ id, w1.(redis).(staged_payloads) !! id) <$> ids)))
    by (rewrite (mget_run ids w1 Hf1); reflexivity).
  rewrite (mget_run ids w1 Hf1). cbn [snd]. rewrite Hr1.
  set (w2 := log (EvRedis [MGET_staged ids]) w1).
  assert (faults w2 = [] ∧ redis w2 = redis w) as [Hf2 Hr2]
    by (subst w2; rewrite <- Hr1; clearbody w1; destruct w1; simpl in *;
        split; [assumption|reflexivity]).
  rewrite zip_with_lookup.
  set (entries := (λ id, (id, staged_payloads (redis w) !! id)) <$> ids).
  destruct (list_staged_loop_run entries [] w2 Hf2) as (w' & Hrun & Hi & Hp & Hpub).
  { intros id v Hin. apply list_elem_of_fmap in Hin as (id' & [= -> Hv] & Hid).
    apply (Hb id' v); [apply Hids, Hid|symmetry; exact Hv]. }
  rewrite (bind_ok _ _ w2 (omap (λ e, e.2 ≫= decoded) entries))
    by (rewrite Hrun; reflexivity).
  rewrite Hrun. unfold mret, M_ret. cbn [fst snd]. rewrite Hi, Hp, Hpub, Hr2.
  exists (py_sort staged_at (omap (λ e : string * option raw, e.2 ≫= decoded) entries)).
  split; [reflexivity|]. split; [|split; [apply (py_sort_sorted staged_at)|split; [|auto]]].
  - intros sa. rewrite (py_sort_perm staged_at), list_elem_of_omap. split.
    + intros ([id o] & Hin & Hdec). simpl in Hdec.
      apply list_elem_of_fmap in Hin as (id' & [= -> ->] & Hid).
      exists id'. split; [apply Hids, Hid|].
      destruct (staged_payloads (redis w) !! id') as [v|] eqn:Ev; [|discriminate].
      simpl in Hdec. f_equal.
      destruct (Hb id' v (proj1 (Hids id') Hid) Ev) as [Hu|[sa' ->]].
      * rewrite (decoded_unreadable v Hu) in Hdec. discriminate.
      * rewrite decoded_encoded in Hdec. congruence.
    + intros (id & Hid & Hv). exists (id, Some (encoded sa)). split.
      * apply list_elem_of_fmap. exists id. split; [rewrite Hv; reflexivity|apply Hids, Hid].
      * simpl. apply decoded_encoded.
  - intros id. rewrite elem_of_difference, elem_of_list_to_set, list_elem_of_omap. split.
    + intros [Hin Hnot]. split; [exact Hin|].
      destruct (staged_payloads (redis w) !! id) as [v|] eqn:Ev; [eexists; reflexivity|].
      exfalso. apply Hnot. exists (id, None). split; [|reflexivity].
      apply list_elem_of_fmap. exists id. split; [rewrite Ev; reflexivity|apply Hids, Hin].
    + intros [Hin [v Hv]]. split; [exact Hin|].
      intros ([id' o] & Hin' & Hg). apply list_elem_of_fmap in Hin' as (i & [= -> ->] & _).
      simpl in Hg. destruct (staged_payloads (redis w) !! i) eqn:E; [discriminate|].
      injection Hg as ->. congruence.
Qed.

Lemma list_staged_drops_unreadable_prunes_missing_witness :
  ∃ records,
    (list_staged_articles mixed_store).1 = Ok records
    ∧ (∀ sa, sa ∈ records
             ↔ ∃ id, id ∈ mixed_store.(redis).(staged_index)
                     ∧ mixed_store.(redis).(staged_payloads) !! id = Some (encoded sa))
    ∧ StronglySorted (key_le staged_at) records
    ∧ (∀ id, id ∈ (list_staged_articles mixed_store).2.(redis).(staged_index)
             ↔ id ∈ mixed_store.(redis).(staged_index)
               ∧ is_Some (mixed_store.(redis).(staged_payloads) !! id))
    ∧ (list_staged_articles mixed_store).2.(redis).(staged_payloads)
      = mixed_store.(redis).(staged_payloads)
    ∧ (list_staged_articles mixed_store).2.(redis).(published)
      = mixed_store.(redis).(published).
Proof.
  apply (list_staged_drops_unreadable_prunes_missing mixed_store).
  - reflexivity.
  - intros id v _ Hl. simpl in Hl.
    apply lookup_insert_Some in Hl as [[_ <-]|[_ Hl]].
    + left. left. eexists. reflexivity.
    + apply lookup_insert_Some in Hl as [[_ <-]|[_ Hl]].
      * right. eexists. reflexivity.
      * apply lookup_insert_Some in Hl as [[_ <-]|[_ Hl]].
        -- left. right. eexists. split; reflexivity.
        -- rewrite lookup_empty in Hl. discriminate.
Defined.

(** C7 as stated fails on the code: the index entry of a payload that does
    not decode, or whose article cannot be rebuilt, is left in place; and a
    stored document that is not an object makes the reader raise. *)
Lemma unreadable_entry_stays_indexed_and_odd_shape_raises :
  let garbled := one_entry (Garbled "{") in
  let renamed := one_entry renamed_payload in
  let array := one_entry (Text (JArr [])) in
  ((list_staged_articles garbled).1 = Ok []
   ∧ "1" ∈ (list_staged_articles garbled).2.(redis).(staged_index))
  ∧ ((list_staged_articles renamed).1 = Ok []
     ∧ "1" ∈ (list_staged_articles renamed).2.(redis).(staged_index))
  ∧ (list_staged_articles array).1 = Raise AttributeError.
Proof.
  cbv zeta.
  assert (∀ (x : string) (X : gset string), bool_decide (x ∈ X) = true -> x ∈ X) as isin
    by (intros x X; apply bool_decide_eq_true).
  split; [split|split; [split|]].
  - vm_compute. reflexivity.
  - apply isin. vm_compute. reflexivity.
  - vm_compute. reflexivity.
  - apply isin. vm_compute. reflexivity.
  - vm_compute. reflexivity.
Qed.

(* ===================================================================== *)
(** * Further properties of the stores *)
(* ===================================================================== *)

Lemma staged_of_data_world (d : json) (w : World) : (staged_of_data d w).2 = w.
Proof.
  unfold staged_of_data, lift, time_time, mbind, M_bind, mret, M_ret.
  destruct d as [| | | | | |members]; try reflexivity.
  destruct (_deserialize_article (dict_get "article" members)) as [[a|]|e|]; try reflexivity.
  destruct (float_member "staged_at" members (clock w)) as [s|e|]; try reflexivity.
  destruct (float_member "last_checked_ts" members s) as [l|e|]; reflexivity.
Qed.

Lemma try_json_loads_run (v : raw) (w : World) :
  try_json_loads v w
  = (Ok (match v with Text d => Some d | Garbled _ => None end), w).
Proof. destruct v; reflexivity. Qed.

(** What [get_staged_article] does, by the fault its GET meets. *)
Lemma get_staged_article_run (value : py_arg) (w : World) :
  let id := py_str value in
  let w1 := (next_fault (log (EvRedis [GET_staged id]) w)).2 in
  get_staged_article value w
  = match first_fault w with
    | NoFault =>
        match w.(redis).(staged_payloads) !! id with
        | Some (Text d) => staged_of_data d w1
        | _ => (Ok None, w1)
        end
    | _ => (Ok None, w1)
    end.
Proof.
  unfold first_fault.
  destruct w as [r t fs ? ? ? ? ? ? ? ? ?]. destruct fs as [|[| |] fs]; try reflexivity.
  - unfold get_staged_article, _normalize_article_id, try_except, redis_query,
      mbind, M_bind, mret, M_ret. simpl.
    destruct (staged_payloads r !! py_str value) as [[d|b]|]; reflexivity.
  - unfold get_staged_article, _normalize_article_id, try_except, redis_query,
      mbind, M_bind, mret, M_ret. simpl.
    destruct (staged_payloads r !! py_str value) as [[d|b]|]; reflexivity.
Qed.

Lemma bind_raise {A B : Type} (m : M A) (k : A -> M B) (w : World) :
  (m ≫= k) w
  = match (m w).1 with
    | Ok a => k a (m w).2
    | Raise e => (Raise e, (m w).2)
    | Unmodelled => (Unmodelled, (m w).2)
    end.
Proof. unfold mbind, M_bind. destruct (m w) as [[a|e|] w1]; reflexivity. Qed.

Lemma next_fault_redis (w : World) : redis (next_fault w).2 = redis w.
Proof. destruct w as [r t fs ? ? ? ? ? ? ? ? ?]. destruct fs; reflexivity. Qed.

(** X1.  A record that [stage_article] returned is the record that
    [get_staged_article] reads back under its id, at any later time, when
    Redis answers the GET. *)
Theorem staged_record_is_read_back
    (a : Article) (now : option Q) (w : World) (record : StagedArticle) (t : Q) :
  (stage_article a now w).1 = Ok (Some record) ->
  let w1 := set_clock t (set_faults [] (stage_article a now w).2) in
  record.(article) = a
  ∧ record.(staged_at) = record.(last_checked_ts)
  ∧ (get_staged_article (PyStr a.(article_id)) w1).1 = Ok (Some record).
Proof.
  intros Hstaged w1.
  set (ts := float_or now (clock w)).
  change (stage_article a now w) with (_persist a ts ts w) in *.
  pose proof (persist_run a ts ts w) as Hrun. cbv zeta in Hrun.
  destruct (first_fault w); destruct Hrun as [Hres Hup];
    rewrite Hres in Hstaged; try discriminate Hstaged.
  injection Hstaged as <-. split; [reflexivity|]. split; [reflexivity|].
  destruct Hup as (Hpayload & _).
  rewrite get_staged_article_run. cbv zeta.
  replace (first_fault w1) with NoFault by (subst w1; destruct (_persist a ts ts w).2; reflexivity).
  replace (redis w1) with (redis (_persist a ts ts w).2)
    by (subst w1; destruct (_persist a ts ts w).2; reflexivity).
  cbn [py_str]. rewrite Hpayload. unfold json_dumps.
  match goal with |- (staged_of_data ?d ?w0).1 = _ =>
    destruct (staged_entry_run (encoded (mkStaged a ts ts)) w0) as (data & Hload & Hdata);
      [right; eexists; reflexivity|] end.
  rewrite try_json_loads_run in Hload. injection Hload as <-.
  unfold encoded, json_dumps in Hdata. cbn [article staged_at last_checked_ts] in Hdata.
  rewrite Hdata. cbn [fst]. f_equal. apply (decoded_encoded (mkStaged a ts ts)).
Qed.

Lemma staged_record_is_read_back_witness :
  (get_staged_article (PyStr "42")
     (set_clock 5000 (set_faults [] (stage_article art42 (Some 900%Q) quiet_world).2))).1
  = Ok (Some (mkStaged art42 900 900)).
Proof.
  apply (staged_record_is_read_back art42 (Some 900%Q) quiet_world (mkStaged art42 900 900) 5000).
  reflexivity.
Defined.

(** X2.  [get_staged_article] only reads: it leaves Redis as it is.  It
    answers [None] when the id has no payload, when the payload does not
    decode, and when Redis fails. *)
Theorem get_staged_article_only_reads (value : py_arg) (w : World) :
  (get_staged_article value w).2.(redis) = w.(redis)
  ∧ (w.(redis).(staged_payloads) !! py_str value = None ->
     (get_staged_article value w).1 = Ok None)
  ∧ (∀ bytes, w.(redis).(staged_payloads) !! py_str value = Some (Garbled bytes) ->
     (get_staged_article value w).1 = Ok None)
  ∧ (first_fault w ≠ NoFault -> (get_staged_article value w).1 = Ok None).
Proof.
  rewrite get_staged_article_run. cbv zeta.
  set (w1 := (next_fault (log (EvRedis [GET_staged (py_str value)]) w)).2).
  assert (redis w1 = redis w) as Hr
    by (subst w1; rewrite next_fault_redis; destruct w; reflexivity).
  split; [|split; [|split]].
  - destruct (first_fault w); try exact Hr.
    destruct (staged_payloads (redis w) !! py_str value) as [[d|b]|]; try exact Hr.
    rewrite staged_of_data_world. exact Hr.
  - intros ->. destruct (first_fault w); reflexivity.
  - intros b ->. destruct (first_fault w); reflexivity.
  - intros Hf. destruct (first_fault w); [contradiction|reflexivity..].
Qed.

Lemma get_staged_article_only_reads_witness :
  (get_staged_article (PyInt 42) quiet_world).1 = Ok None.
Proof.
  apply (proj1 (proj2 (get_staged_article_only_reads (PyInt 42) quiet_world))). reflexivity.
Defined.

(** What [is_published] does, by the fault its round trip meets. *)
Lemma is_published_run (value : py_arg) (w : World) :
  (is_published value w).2.(redis) = w.(redis)
  ∧ (is_published value w).1
    = Ok (match first_fault w with
          | NoFault => bool_decide (py_str value ∈ w.(redis).(published))
          | _ => false
          end).
Proof.
  unfold first_fault. destruct w as [r t fs ? ? ? ? ? ? ? ? ?].
  destruct fs as [|[| |] fs]; split; reflexivity.
Qed.

(** X3.  [is_published] only reads and never raises.  When Redis answers,
    it tells whether the normalized id is in the published set; when Redis
    fails it answers [False], also for an id that is published.  The first
    loop of [_stage_new_articles] then takes a candidate that is not in the
    staged map for unseen: it joins the ids to fetch whether or not it was
    published before. *)
Theorem is_published_fails_open (value : py_arg) (w : World) :
  (is_published value w).2.(redis) = w.(redis)
  ∧ (is_published value w).1
    = Ok (match first_fault w with
          | NoFault => bool_decide (py_str value ∈ w.(redis).(published))
          | _ => false
          end)
  ∧ ∀ (story_id : Z) (rest : list Z) (staged_map : staged_dict) (pending_ids : list Z),
      dict_lookup story_id staged_map = None ->
      first_fault w ≠ NoFault ->
      unseen_ids (story_id :: rest) staged_map pending_ids w
      = unseen_ids rest staged_map (pending_ids ++ [story_id])
                   (is_published (PyInt story_id) w).2.
Proof.
  destruct (is_published_run value w) as [Hr Hres].
  split; [exact Hr|]. split; [exact Hres|].
  intros story_id rest staged_map pending_ids Hs Hf.
  cbn [unseen_ids]. rewrite Hs.
  rewrite bool_decide_eq_false_2 by (intros [x Hx]; discriminate).
  rewrite bind_raise. destruct (is_published_run (PyInt story_id) w) as [_ ->].
  destruct (first_fault w); [contradiction|reflexivity..].
Qed.

(** X4.  [mark_published] and [is_published] compose: once a call of
    [mark_published] has succeeded, [is_published] answers [True] for that
    id at any later time, whenever Redis answers. *)
Theorem marked_id_is_published (value : py_arg) (w : World) (t : Q) :
  (mark_published value w).1 = Ok true ->
  (is_published value (set_clock t (set_faults [] (mark_published value w).2))).1 = Ok true.
Proof.
  intros Hok.
  pose proof (mark_applied_published (clock w) (py_str value) (redis w)) as [Hin _].
  cbv zeta in Hin. rewrite <- (mark_published_true value w Hok) in Hin.
  destruct (is_published_run value
              (set_clock t (set_faults [] (mark_published value w).2))) as [_ ->].
  replace (first_fault _) with NoFault by (destruct (mark_published value w).2; reflexivity).
  rewrite bool_decide_eq_true_2; [reflexivity|].
  destruct (mark_published value w).2; exact Hin.
Qed.

Lemma marked_id_is_published_witness :
  (is_published (PyInt 42)
     (set_clock 5000 (set_faults [] (mark_published (PyInt 42) quiet_world).2))).1 = Ok true.
Proof. apply (marked_id_is_published (PyInt 42) quiet_world 5000). reflexivity. Defined.

(** X5.  [clear_stage] forgets without publishing.  It never raises; when
    its transaction reaches Redis the id is no longer staged, every other
    payload and index entry is as before, and the published set and the
    pending links are untouched; when the transaction is dropped nothing
    changes. *)
Theorem clear_stage_forgets (value : py_arg) (w : World) :
  let id := py_str value in
  let r' := (clear_stage value w).2.(redis) in
  (clear_stage value w).1 = Ok ()
  ∧ r'.(published) = w.(redis).(published)
  ∧ r'.(pending) = w.(redis).(pending)
  ∧ match first_fault w with
    | Dropped => r' = w.(redis)
    | _ => (id ∉ staged_ids r')
           ∧ r'.(staged_payloads) = delete id w.(redis).(staged_payloads)
           ∧ r'.(staged_index) = w.(redis).(staged_index) ∖ {[id]}
    end.
Proof.
  cbv zeta. unfold first_fault, staged_ids.
  destruct w as [r t fs ? ? ? ? ? ? ? ? ?]. destruct r as [sp si pu pe].
  destruct fs as [|[| |] fs]; simpl;
    (split; [reflexivity|]); (split; [reflexivity|]); (split; [reflexivity|]);
    try reflexivity;
    (split; [rewrite dom_delete_L; set_solver|split; reflexivity]).
Qed.

(** X6.  [ensure_published] with no ids does not talk to Redis at all.
    With ids it never raises and never touches a staged payload, the index
    or the pending links; when its SADD reaches Redis every given id is in
    the published set afterwards and no id has left it. *)
Theorem ensure_published_seeds (values : list py_arg) (w : World) :
  let r' := (ensure_published values w).2.(redis) in
  (values = [] -> ensure_published values w = (Ok (), w))
  ∧ (ensure_published values w).1 = Ok ()
  ∧ r'.(staged_payloads) = w.(redis).(staged_payloads)
  ∧ r'.(staged_index) = w.(redis).(staged_index)
  ∧ r'.(pending) = w.(redis).(pending)
  ∧ w.(redis).(published) ⊆ r'.(published)
  ∧ (first_fault w ≠ Dropped -> ∀ v, v ∈ values -> py_str v ∈ r'.(published)).
Proof.
  cbv zeta. split; [intros ->; reflexivity|].
  destruct values as [|v0 rest].
  { simpl. repeat (split; [reflexivity|]). intros _ v Hv. inversion Hv. }
  assert (∀ v, v ∈ v0 :: rest ->
            py_str v ∈ (list_to_set (py_str <$> (v0 :: rest)) : gset string)) as Hall.
  { intros v Hv. apply elem_of_list_to_set, list_elem_of_fmap.
    exists v. split; [reflexivity|exact Hv]. }
  unfold first_fault.
  destruct w as [r t fs ? ? ? ? ? ? ? ? ?]. destruct r as [sp si pu pe].
  destruct fs as [|[| |] fs]; cbn -[list_to_set]; split_and!; try reflexivity;
    try (intros Hf v Hv; first [congruence|apply elem_of_union_l, Hall, Hv]);
    apply union_subseteq_r.
Qed.

(* ===================================================================== *)
(** * Further properties of the pending links *)
(* ===================================================================== *)

(** X7.  Registering under an id that already has a link replaces it: the
    next claim returns the link registered last, and the expiry is counted
    from the last registration. *)
Theorem latest_registration_wins
    (x : Z) (a1 a2 : Article) (chat1 chat2 : option Z) (w : World)
    (t2 t3 : Q) (fs2 fs3 : list fault) :
  let w1 := (store_pending_post x a1 chat1 w).2 in
  let second := store_pending_post x a2 chat2 (set_clock t2 (set_faults fs2 w1)) in
  second.1 = Ok true ->
  (t3 < t2 + inject_Z PENDING_REDIS_TTL)%Q ->
  claim_undisturbed fs3 ->
  (pop_pending_post x (set_clock t3 (set_faults fs3 second.2))).1
  = Ok (Some (mkPending a2 chat2)).
Proof.
  intros w1 second Hok Ht Hf.
  assert (registered x a2 chat2 (Some (t2 + inject_Z PENDING_REDIS_TTL)%Q) (redis second.2))
    as Hreg.
  { pose proof (store_pending_registers x a2 chat2 (set_clock t2 (set_faults fs2 w1))) as H.
    replace (clock (set_clock t2 (set_faults fs2 w1))) with t2 in H by (destruct w1; reflexivity).
    apply H. rewrite (store_pending_true _ _ _ _ Hok). discriminate. }
  destruct (pop_registered x a2 chat2 (Some (t2 + inject_Z PENDING_REDIS_TTL)%Q)
              (set_clock t3 (set_faults fs3 second.2))) as (Hpop & _).
  - destruct second.2; exact Hreg.
  - destruct second.2; exact Ht.
  - destruct second.2; exact Hf.
  - exact Hpop.
Qed.

Lemma latest_registration_wins_witness :
  let w1 := (store_pending_post 7 art42 (Some (-200)) quiet_world).2 in
  let second := store_pending_post 7 art7 None (set_clock 1500 (set_faults [] w1)) in
  (pop_pending_post 7 (set_clock 2300 (set_faults [] second.2))).1
  = Ok (Some (mkPending art7 None)).
Proof.
  apply (latest_registration_wins 7 art42 art7 (Some (-200)) None quiet_world 1500 2300 [] []).
  - reflexivity.
  - reflexivity.
  - exact I.
Defined.

(** X8.  A claim in normal operation removes the entry it found whatever
    the entry holds.  For bytes that do not decode, and for an object
    without an article, it answers [None]: such a link is consumed by the
    claim that finds it and cannot be claimed again. *)
Theorem claim_consumes_what_it_finds
    (x : Z) (v : raw) (deadline : option Q) (w : World) :
  w.(redis).(pending) !! x = Some (v, deadline) ->
  unexpired w.(clock) deadline ->
  claim_undisturbed w.(faults) ->
  (pop_pending_post x w).2.(redis).(pending) = delete x w.(redis).(pending)
  ∧ (∀ bytes, v = Garbled bytes -> (pop_pending_post x w).1 = Ok None)
  ∧ (∀ members, v = Text (JObj members) -> dict_get "article" members = None ->
       (pop_pending_post x w).1 = Ok None)
  ∧ (∀ items, v = Text (JArr items) -> (pop_pending_post x w).1 = Raise AttributeError).
Proof.
  intros Hv Hu Hf.
  pose proof (live_unexpired (clock w) v deadline Hu) as Hl.
  destruct w as [r t fs ? ? ? ? ? ? ? ? ?]. simpl in *.
  assert (∀ (w0 : World), (lift (pending_of_data
            match v with Text d => d | Garbled _ => JNull end) w0).2 = w0) as Hw by reflexivity.
  destruct fs as [|[| |] [|f fs]]; simpl in Hf; try contradiction;
    try (destruct f; try congruence);
    run_pending; rewrite Hv; simpl; rewrite Hl; simpl;
    (split; [destruct v; reflexivity|]);
    (split; [intros b ->; reflexivity|]);
    (split; [intros members -> Hm; simpl; rewrite Hm; reflexivity|]);
    intros items ->; reflexivity.
Qed.

Lemma claim_consumes_what_it_finds_witness :
  let w := set_redis (mkRedis ∅ ∅ ∅ {[ 7 := (Garbled "{", None) ]}) quiet_world in
  (pop_pending_post 7 w).2.(redis).(pending) !! 7 = None
  ∧ (pop_pending_post 7 w).1 = Ok None.
Proof.
  intros w.
  destruct (claim_consumes_what_it_finds 7 (Garbled "{") None w) as (H1 & H2 & _).
  - reflexivity.
  - exact I.
  - exact I.
  - split; [rewrite H1; apply lookup_delete_eq|apply (H2 "{"); reflexivity].
Defined.

(* ===================================================================== *)
(** * Further properties of the tick *)
(* ===================================================================== *)

Lemma never_raises_ret {A : Type} (a : A) : never_raises (mret a).
Proof. intros w. exists a. reflexivity. Qed.

Lemma never_raises_bind {A B : Type} (m : M A) (k : A -> M B) :
  never_raises m -> (∀ a, never_raises (k a)) -> never_raises (m ≫= k).
Proof.
  intros Hm Hk w. destruct (Hm w) as [a Ha].
  rewrite (bind_ok m k w a Ha). apply Hk.
Qed.

Lemma is_published_never_raises v : never_raises (is_published v).
Proof. intros w. eexists. apply is_published_run. Qed.

Lemma stage_article_never_raises a now : never_raises (stage_article a now).
Proof.
  intros w. destruct (persist_ok a (float_or now (clock w)) (float_or now (clock w)) w)
    as (res & Hres & _). exists res. exact Hres.
Qed.

Lemma collect_top_story_ids_never_raises limit : never_raises (_collect_top_story_ids limit).
Proof.
  intros w. unfold _collect_top_story_ids, try_except, get_story_ids, mbind, M_bind, mret, M_ret.
  destruct (hn_story_ids w limit); eexists; reflexivity.
Qed.

Lemma unseen_ids_never_raises candidates staged_map pending_ids :
  never_raises (unseen_ids candidates staged_map pending_ids).
Proof.
  revert pending_ids. induction candidates as [|id rest IH]; intros pending_ids.
  - apply never_raises_ret.
  - cbn [unseen_ids]. destruct (bool_decide _); [apply IH|].
    apply never_raises_bind; [apply is_published_never_raises|].
    intros [|]; apply IH.
Qed.

Lemma stage_each_never_raises articles staged_map :
  never_raises (stage_each articles staged_map).
Proof.
  revert staged_map. induction articles as [|a rest IH]; intros staged_map.
  - apply never_raises_ret.
  - cbn [stage_each]. destruct (_int_or_none _); [|apply IH].
    apply never_raises_bind; [apply stage_article_never_raises|].
    intros [record|]; apply IH.
Qed.

Lemma stage_new_articles_never_raises candidates staged_map :
  never_raises (_stage_new_articles candidates staged_map).
Proof.
  unfold _stage_new_articles.
  apply never_raises_bind; [apply unseen_ids_never_raises|].
  intros [|id ids]; [apply never_raises_ret|].
  apply never_raises_bind.
  - intros w. unfold try_except, get_articles_by_ids, mbind, M_bind, mret, M_ret.
    destruct (reader_articles w (id :: ids)); eexists; reflexivity.
  - intros [l|]; [apply stage_each_never_raises|apply never_raises_ret].
Qed.

(** What [_refresh_metrics] does, by the answer of Hacker News. *)
Lemma refresh_metrics_run (staged_map : staged_dict) (now : Q) (w : World) :
  _refresh_metrics staged_map now w
  = match refresh_ids staged_map now with
    | [] => (Ok staged_map, w)
    | batch =>
        match hn_story_details w batch with
        | Returned l =>
            refresh_each batch (index_details l []) now staged_map
                         (log (EvStoryDetails batch) w)
        | Failed _ => (Ok staged_map, log (EvStoryDetails batch) w)
        end
    end.
Proof.
  unfold _refresh_metrics.
  destruct (refresh_ids staged_map now) as [|first rest]; [reflexivity|].
  remember (first :: rest) as batch.
  unfold mbind, M_bind, try_except, get_story_details. simpl.
  destruct (hn_story_details w batch); reflexivity.
Qed.

Lemma refresh_metrics_never_raises staged_map now :
  never_raises (_refresh_metrics staged_map now).
Proof.
  intros w. rewrite refresh_metrics_run.
  destruct (refresh_ids staged_map now) as [|first rest]; [eexists; reflexivity|].
  cbv beta iota zeta.
  destruct (hn_story_details w (first :: rest)) as [l|e] eqn:E; [|eexists; reflexivity].
  destruct (refresh_each_ok (first :: rest) (index_details l []) now staged_map
              (log (EvStoryDetails (first :: rest)) w)) as (m' & _ & Hrun & _).
  exists m'. rewrite Hrun. reflexivity.
Qed.

(** X9.  With a channel and a Telegram client configured, a tick raises
    exactly when the listing of the staged records raises, and with the same
    exception: fetching the candidates, staging, refreshing and publishing
    all return whatever Redis, Hacker News and Telegram do.  Without a
    channel the tick returns at once and leaves the world as it is. *)
Theorem tick_raises_only_through_the_listing (w : World) :
  (w.(CHANNEL_ID) = None -> publish_latest w = (Ok (), w))
  ∧ (w.(telegram_client) = true -> is_Some w.(CHANNEL_ID) ->
     (publish_latest w).1
     = match (list_staged_articles (_collect_top_story_ids WORKER_ARTICLE_LIMIT w).2).1 with
       | Ok _ => Ok ()
       | Raise e => Raise e
       | Unmodelled => Unmodelled
       end).
Proof.
  split.
  { intros H. unfold publish_latest, world. unfold mbind at 1, M_bind at 1. rewrite H. reflexivity. }
  intros Hclient [c Hc].
  unfold publish_latest, world. unfold mbind at 1, M_bind at 1. rewrite Hc.
  unfold _get_telegram at 1. unfold mbind at 1, M_bind at 1. rewrite Hclient.
  destruct (collect_top_story_ids_never_raises WORKER_ARTICLE_LIMIT w) as [ids Hids].
  rewrite (bind_ok _ _ w ids Hids).
  set (w1 := (_collect_top_story_ids WORKER_ARTICLE_LIMIT w).2).
  rewrite bind_raise.
  destruct (list_staged_articles w1) as [[staged|e|] w2]; cbn [fst snd]; try reflexivity.
  destruct (stage_new_articles_never_raises ids (index_staged staged []) w2) as [m Hm].
  rewrite (bind_ok _ _ w2 m Hm).
  destruct m as [|entry m]; [reflexivity|].
  set (w3 := (_stage_new_articles ids (index_staged staged []) w2).2).
  unfold time_time at 1. unfold mbind at 1, M_bind at 1.
  destruct (refresh_metrics_never_raises (entry :: m) (clock w3) w3) as [m' Hm'].
  rewrite (bind_ok _ _ w3 m' Hm').
  destruct (collect_graduates m' (clock w3)) as [|g gs]; [reflexivity|].
  apply publish_graduates_ok.
Qed.

Lemma tick_raises_only_through_the_listing_witness :
  (publish_latest (one_entry (Text (JArr [])))).1 = Raise AttributeError
  ∧ (publish_latest mixed_store).1 = Ok ().
Proof.
  split.
  - rewrite (proj2 (tick_raises_only_through_the_listing (one_entry (Text (JArr [])))));
      [reflexivity|reflexivity|eexists; reflexivity].
  - rewrite (proj2 (tick_raises_only_through_the_listing mixed_store));
      [reflexivity|reflexivity|eexists; reflexivity].
Defined.



Lemma trace_log (e : event) (w : World) : trace (log e w) = trace w ++ [e].
Proof. reflexivity. Qed.


Lemma fetch_articles_run (ids : list Z) (w : World) :
  try_except (l ← get_articles_by_ids ids; mret (Some l)) any_Exception (mret None) w
  = (Ok (match w.(reader_articles) ids with Returned l => Some l | Failed _ => None end),
     log (EvArticlesByIds ids) w).
Proof.
  unfold try_except, get_articles_by_ids, mbind, M_bind, mret, M_ret.
  destruct (reader_articles w ids); reflexivity.
Qed.



(** ** The refresh pass *)

Lemma refresh_write_run (staged : StagedArticle) (s c h : option Z) (now : Q) (w : World) :
  w.(faults) = [] -> ¬ (now == 0)%Q ->
  ∃ record w1,
    update_staged_article staged None s c h (Some now) w = (Ok (Some record), w1)
    ∧ w1.(faults) = []
    ∧ record.(last_checked_ts) = now
    ∧ record.(staged_at) = staged.(staged_at)
    ∧ same_but_metrics record.(article) staged.(article).
Proof.
  intros Hf Hnow. rewrite update_staged_article_eq. cbv zeta.
  rewrite (float_or_nonzero now (clock w) Hnow).
  destruct w as [r t fs ? ? ? ? ? ? ? ? ?]. simpl in Hf. subst fs.
  eexists _, _. split; [reflexivity|]. simpl. repeat split.
Qed.

Lemma dict_set_keys {V : Type} (key : Z) (v : V) (items : list (Z * V)) :
  is_Some (dict_lookup key items) -> (dict_set key v items).*1 = items.*1.
Proof.
  induction items as [|[k v0] rest IH]; simpl; [intros [x Hx]; discriminate|].
  destruct (decide (k = key)) as [->|Hne]; [reflexivity|].
  intros H. simpl. f_equal. exact (IH H).
Qed.

Lemma dict_lookup_set_eq {V : Type} (key : Z) (v : V) (items : list (Z * V)) :
  dict_lookup key (dict_set key v items) = Some v.
Proof.
  induction items as [|[k v0] rest IH]; simpl.
  - destruct (decide (key = key)); [reflexivity|congruence].
  - destruct (decide (k = key)) as [->|Hne]; simpl.
    + destruct (decide (key = key)); [reflexivity|congruence].
    + destruct (decide (k = key)); [congruence|exact IH].
Qed.

Lemma dict_elem_lookup {V : Type} (key : Z) (v : V) (items : list (Z * V)) :
  NoDup items.*1 -> (key, v) ∈ items -> dict_lookup key items = Some v.
Proof.
  induction items as [|[k v0] rest IH]; simpl; intros Hnd Hin; [inversion Hin|].
  apply NoDup_cons in Hnd as [Hk Hnd].
  apply elem_of_cons in Hin as [[= -> ->]|Hin].
  - destruct (decide (k = k)); [reflexivity|congruence].
  - destruct (decide (k = key)) as [->|Hne]; [|exact (IH Hnd Hin)].
    exfalso. apply Hk. apply list_elem_of_fmap. exists (key, v). split; [reflexivity|exact Hin].
Qed.

(** The third loop of [_refresh_metrics] in normal operation: it keeps the
    keys, and a record it leaves in the map is the old one or a re-stamped
    one of an id of the batch. *)
Lemma refresh_each_restamps (ids : list Z) (details : list (Z * story)) (now : Q)
    (staged_map : staged_dict) (w : World) :
  w.(faults) = [] -> ¬ (now == 0)%Q ->
  ∃ staged_map' w',
    refresh_each ids details now staged_map w = (Ok staged_map', w')
    ∧ staged_map'.*1 = staged_map.*1
    ∧ ∀ key record, dict_lookup key staged_map' = Some record ->
        ∃ old, dict_lookup key staged_map = Some old
               ∧ record.(staged_at) = old.(staged_at)
               ∧ same_but_metrics record.(article) old.(article)
               ∧ (key ∈ ids -> record.(last_checked_ts) = now)
               ∧ (key ∉ ids -> record = old).
Proof.
  intros Hf Hnow. revert staged_map w Hf.
  induction ids as [|id rest IH]; intros staged_map w Hf.
  - exists staged_map, w. split; [reflexivity|]. split; [reflexivity|].
    intros key record H. exists record. split; [exact H|]. split; [reflexivity|].
    split; [repeat split|]. split; [intros Hin; inversion Hin|reflexivity].
  - cbn [refresh_each]. destruct (dict_lookup id staged_map) as [staged|] eqn:El.
    + destruct (refresh_write_run staged (dict_lookup id details ≫= story_score)
                  (dict_lookup id details ≫= story_descendants)
                  (dict_lookup id details ≫= story_time) now w Hf Hnow)
        as (rec & w1 & Hrun & Hf1 & Hlc & Hsa & Hsame).
      rewrite bind_raise, Hrun. cbn [fst snd].
      destruct (IH (dict_set id rec staged_map) w1 Hf1) as (m' & w' & Hrest & Hkeys & Hl).
      exists m', w'. split; [exact Hrest|].
      split; [rewrite Hkeys; apply dict_set_keys; rewrite El; eexists; reflexivity|].
      intros key record Hrec. destruct (Hl key record Hrec) as (old & Hold & H1 & H2 & H3 & H4).
      destruct (decide (key = id)) as [->|Hne].
      * rewrite dict_lookup_set_eq in Hold. injection Hold as <-.
        exists staged. split; [exact El|]. split; [congruence|].
        split; [|split; [|intros Hni; exfalso; apply Hni, list_elem_of_here]].
        -- destruct H2 as (?&?&?&?&?&?&?&?&?). destruct Hsame as (?&?&?&?&?&?&?&?&?).
           repeat split; congruence.
        -- intros _. destruct (decide (id ∈ rest)) as [Hin|Hni]; [exact (H3 Hin)|].
           rewrite (H4 Hni). exact Hlc.
      * rewrite dict_lookup_set_ne in Hold by exact Hne.
        exists old. split; [exact Hold|]. split; [exact H1|]. split; [exact H2|].
        split; [intros Hin; apply H3; apply elem_of_cons in Hin as [?|?]; [congruence|assumption]
               |intros Hni; apply H4; intros Hin; apply Hni, list_elem_of_further, Hin].
    + destruct (IH staged_map w Hf) as (m' & w' & Hrest & Hkeys & Hl).
      exists m', w'. split; [exact Hrest|]. split; [exact Hkeys|].
      intros key record Hrec. destruct (Hl key record Hrec) as (old & Hold & H1 & H2 & H3 & H4).
      exists old. split; [exact Hold|]. split; [exact H1|]. split; [exact H2|].
      split.
      * intros Hin. apply elem_of_cons in Hin as [->|Hin]; [congruence|exact (H3 Hin)].
      * intros Hni. apply H4. intros Hin. apply Hni, list_elem_of_further, Hin.
Qed.

Lemma refresh_ids_none (staged_map : staged_dict) (now : Q) :
  (∀ key staged, (key, staged) ∈ staged_map -> refresh_due now staged = false) ->
  refresh_ids staged_map now = [].
Proof.
  induction staged_map as [|[k st] rest IH]; intros H; [reflexivity|].
  simpl. rewrite (H k st) by apply list_elem_of_here.
  apply IH. intros key staged Hin. apply (H key staged), list_elem_of_further, Hin.
Qed.

Lemma just_checked_is_not_due (now : Q) (staged : StagedArticle) :
  staged.(last_checked_ts) = now -> refresh_due now staged = false.
Proof.
  intros H. unfold refresh_due. rewrite H. destruct (Qle_bool _ _) eqn:E; [|reflexivity].
  apply Qle_bool_iff in E. exfalso.
  assert (now - now == 0)%Q as H0 by ring.
  rewrite H0 in E. revert E. vm_compute. intros E. apply E. reflexivity.
Qed.

(** X11.  A refresh pass that got its answer from Hacker News, in normal
    operation, leaves no record due at the same instant: every record of
    the batch is re-stamped with [now], whether or not Hacker News still knows
    it, the others are untouched, and every record keeps its key, its
    [staged_at] and everything of its article but the engagement fields. *)
Theorem refresh_pass_leaves_nothing_due
    (staged_map : staged_dict) (now : Q) (w : World) (details : list story) :
  w.(faults) = [] -> ¬ (now == 0)%Q -> NoDup staged_map.*1 ->
  w.(hn_story_details) (refresh_ids staged_map now) = Returned details ->
  ∃ staged_map',
    (_refresh_metrics staged_map now w).1 = Ok staged_map'
    ∧ staged_map'.*1 = staged_map.*1
    ∧ refresh_ids staged_map' now = []
    ∧ ∀ key record, dict_lookup key staged_map' = Some record ->
        ∃ old, dict_lookup key staged_map = Some old
               ∧ record.(staged_at) = old.(staged_at)
               ∧ same_but_metrics record.(article) old.(article)
               ∧ (key ∈ refresh_ids staged_map now -> record.(last_checked_ts) = now)
               ∧ (key ∉ refresh_ids staged_map now -> record = old).
Proof.
  intros Hf Hnow Hnd Hdet. rewrite refresh_metrics_run.
  destruct (refresh_ids staged_map now) as [|first rest] eqn:Eb.
  { exists staged_map. split; [reflexivity|]. split; [reflexivity|]. split; [exact Eb|].
    intros key record H. exists record. split; [exact H|]. split; [reflexivity|].
    split; [repeat split|]. split; [intros Hin; inversion Hin|reflexivity]. }
  cbv beta iota zeta. rewrite Hdet.
  destruct (refresh_each_restamps (first :: rest) (index_details details []) now staged_map
              (log (EvStoryDetails (first :: rest)) w)) as (m' & w' & Hrun & Hkeys & Hl);
    [destruct w; exact Hf|exact Hnow|].
  exists m'. rewrite Hrun. split; [reflexivity|]. split; [exact Hkeys|]. split.
  - apply refresh_ids_none. intros key record Hin.
    assert (dict_lookup key m' = Some record) as Hrec
      by (apply dict_elem_lookup; [rewrite Hkeys; exact Hnd|exact Hin]).
    destruct (Hl key record Hrec) as (old & Hold & _ & _ & Hin' & Hout).
    destruct (decide (key ∈ first :: rest)) as [Hb|Hb].
    + apply just_checked_is_not_due, Hin', Hb.
    + rewrite (Hout Hb). destruct (refresh_due now old) eqn:Ed; [|reflexivity].
      exfalso. apply Hb. rewrite <- Eb. apply refresh_ids_elem.
      exists old. split; [apply dict_lookup_elem, Hold|exact Ed].
  - intros key record Hrec. destruct (Hl key record Hrec) as (old & Hold & H1 & H2 & H3 & H4).
    exists old. auto 6.
Qed.

Lemma refresh_pass_leaves_nothing_due_witness :
  ∃ staged_map',
    (_refresh_metrics two_staged 1000 quiet_world).1 = Ok staged_map'
    ∧ staged_map'.*1 = two_staged.*1
    ∧ refresh_ids staged_map' 1000 = []
    ∧ ∀ key record, dict_lookup key staged_map' = Some record ->
        ∃ old, dict_lookup key two_staged = Some old
               ∧ record.(staged_at) = old.(staged_at)
               ∧ same_but_metrics record.(article) old.(article)
               ∧ (key ∈ refresh_ids two_staged 1000 -> record.(last_checked_ts) = 1000%Q)
               ∧ (key ∉ refresh_ids two_staged 1000 -> record = old).
Proof.
  apply (refresh_pass_leaves_nothing_due two_staged 1000 quiet_world []).
  - reflexivity.
  - intros H. discriminate H.
  - apply (bool_decide_eq_true _). vm_compute. reflexivity.
  - reflexivity.
Defined.

(** X12.  When nothing is due, [_refresh_metrics] calls nobody and changes
    nothing.  When the call to Hacker News raises, the staged map comes back
    as it was and Redis is not written to: the due records stay due for the
    next tick. *)
Theorem refresh_failure_changes_nothing
    (staged_map : staged_dict) (now : Q) (w : World) :
  (refresh_ids staged_map now = [] -> _refresh_metrics staged_map now w = (Ok staged_map, w))
  ∧ (∀ e, refresh_ids staged_map now ≠ [] ->
       w.(hn_story_details) (refresh_ids staged_map now) = Failed e ->
       (_refresh_metrics staged_map now w).1 = Ok staged_map
       ∧ (_refresh_metrics staged_map now w).2.(redis) = w.(redis)
       ∧ (_refresh_metrics staged_map now w).2.(trace)
         = w.(trace) ++ [EvStoryDetails (refresh_ids staged_map now)]).
Proof.
  rewrite refresh_metrics_run. split.
  - intros ->. reflexivity.
  - intros e Hne Hfail.
    destruct (refresh_ids staged_map now) as [|first rest] eqn:Eb; [congruence|].
    cbv beta iota zeta. rewrite Hfail. cbn [fst snd].
    split; [reflexivity|]. split; [destruct w; reflexivity|reflexivity].
Qed.

(* ===================================================================== *)
(** * Further properties of the auto-forward handler *)
(* ===================================================================== *)

Lemma pop_registered_trace x a chat deadline w :
  registered x a chat deadline w.(redis) -> unexpired w.(clock) deadline ->
  claim_undisturbed w.(faults) ->
  (pop_pending_post x w).2.(trace)
  = w.(trace) ++ [EvRedis [GET_pending x]; EvRedis [DEL_pending x]]
  ∧ (pop_pending_post x w).2.(tg_send_comment) = w.(tg_send_comment)
  ∧ (pop_pending_post x w).2.(telegram_client) = w.(telegram_client)
  ∧ (pop_pending_post x w).2.(CHANNEL_ID) = w.(CHANNEL_ID).
Proof.
  unfold registered. intros Hr Hu Hf.
  pose proof (live_unexpired (clock w) (json_dumps (pending_payload a chat)) deadline Hu) as Hl.
  destruct w as [r t fs tr ? ? ? ? ? ? ? ?]. simpl in *.
  destruct fs as [|[| |] [|f fs]]; simpl in Hf; try contradiction;
    try (destruct f; try congruence);
    run_pending; rewrite Hr; simpl; rewrite Hl; simpl;
    rewrite <- app_assoc; auto.
Qed.

Lemma pop_absent_trace x w :
  w.(redis).(pending) !! x ≫= live w.(clock) = None ->
  (pop_pending_post x w).2.(trace) = w.(trace) ++ [EvRedis [GET_pending x]].
Proof.
  intros H. split_world w; run_pending; try rewrite H; reflexivity.
Qed.

Lemma handle_automatic_forward_unclaimed message x w :
  w.(telegram_client) = true ->
  message.(is_automatic_forward) = true ->
  (w.(CHANNEL_ID) = None ∨ message.(sender_chat_id) = w.(CHANNEL_ID)) ->
  origin_of message = Some x ->
  (pop_pending_post x w).1 = Ok None ->
  handle_automatic_forward message w = (Ok false, (pop_pending_post x w).2).
Proof.
  intros Htc Hauto Hch Ho Hpop.
  unfold handle_automatic_forward, _get_telegram, world.
  unfold mbind at 1, M_bind at 1. rewrite Htc, Hauto. cbn [negb].
  unfold mbind at 1, M_bind at 1.
  rewrite bool_decide_eq_false_2 by (destruct Hch as [H|H]; rewrite H; tauto).
  rewrite Ho.
  unfold mbind at 1, M_bind at 1.
  destruct (pop_pending_post x w) as [o w1]. simpl in Hpop. subst o. reflexivity.
Qed.

(** X13.  The handler needs its Telegram client and raises [RuntimeError]
    without one.  With it, a message that is not an automatic forward, one
    whose sender is not the configured channel, or one that names no channel
    post is answered [False] with the world untouched: no Redis command and
    no Telegram call.  A forward of a post nothing is registered under costs
    one GET and is answered [False] with no Telegram call either. *)
Theorem handler_ignores_what_is_not_its_forward (message : Message) (w : World) :
  (w.(telegram_client) = false ->
   handle_automatic_forward message w = (Raise RuntimeError, w))
  ∧ (w.(telegram_client) = true ->
     message.(is_automatic_forward) = false
     ∨ (w.(CHANNEL_ID) ≠ None ∧ message.(sender_chat_id) ≠ w.(CHANNEL_ID))
     ∨ origin_of message = None ->
     handle_automatic_forward message w = (Ok false, w))
  ∧ (∀ x, w.(telegram_client) = true ->
     message.(is_automatic_forward) = true ->
     (w.(CHANNEL_ID) = None ∨ message.(sender_chat_id) = w.(CHANNEL_ID)) ->
     origin_of message = Some x ->
     w.(redis).(pending) !! x ≫= live w.(clock) = None ->
     (handle_automatic_forward message w).1 = Ok false
     ∧ (handle_automatic_forward message w).2.(redis) = w.(redis)
     ∧ (handle_automatic_forward message w).2.(trace)
       = w.(trace) ++ [EvRedis [GET_pending x]]).
Proof.
  split; [|split].
  - intros Htc. unfold handle_automatic_forward, _get_telegram.
    unfold mbind at 1, M_bind at 1. rewrite Htc. reflexivity.
  - intros Htc Hg. unfold handle_automatic_forward, _get_telegram, world.
    unfold mbind at 1, M_bind at 1. rewrite Htc.
    destruct (is_automatic_forward message) eqn:Ea; [|reflexivity].
    cbn [negb]. unfold mbind at 1, M_bind at 1.
    destruct (bool_decide _) eqn:Eb; [reflexivity|].
    apply bool_decide_eq_false in Eb.
    destruct Hg as [Hg|[Hg|Hg]]; [congruence|contradiction|].
    rewrite Hg. reflexivity.
  - intros x Htc Hauto Hch Ho Hnone.
    destruct (pop_absent x w Hnone) as [Hres Hred].
    rewrite (handle_automatic_forward_unclaimed message x w Htc Hauto Hch Ho Hres).
    cbn [fst snd]. split; [reflexivity|]. split; [exact Hred|].
    apply pop_absent_trace, Hnone.
Qed.

(** X14.  An automatic forward of channel post [x] that finds the link of
    [x] registered and alive, in normal operation, is answered once: the
    comment bundle goes to the discussion chat of the link, or to the chat of
    the forward when the link has none, as a reply in the forward's thread;
    the handler returns [True] once Telegram has taken it, the link is gone
    and is not written back.  The same forward delivered again, at any time
    and whatever Redis does, is answered [False] with no Telegram call. *)
Theorem forward_is_answered_once
    (message : Message) (x : Z) (a : Article) (chat : option Z) (deadline : option Q)
    (w : World) :
  w.(telegram_client) = true ->
  message.(is_automatic_forward) = true ->
  (w.(CHANNEL_ID) = None ∨ message.(sender_chat_id) = w.(CHANNEL_ID)) ->
  origin_of message = Some x ->
  registered x a chat deadline w.(redis) ->
  unexpired w.(clock) deadline ->
  claim_undisturbed w.(faults) ->
  (is_Some message.(message_thread_id) ∨ is_Some message.(message_id)) ->
  let target := default message.(chat_id) (int_or chat None) in
  w.(tg_send_comment) target a message.(message_thread_id) message.(message_id) = true ->
  let result := handle_automatic_forward message w in
  result.1 = Ok true
  ∧ result.2.(redis).(pending) = delete x w.(redis).(pending)
  ∧ result.2.(trace)
    = w.(trace) ++ [EvRedis [GET_pending x]; EvRedis [DEL_pending x];
                    EvSendComment target a message.(message_thread_id) message.(message_id)]
  ∧ ∀ t fs,
      let again := handle_automatic_forward message (set_clock t (set_faults fs result.2)) in
      again.1 = Ok false
      ∧ again.2.(redis) = result.2.(redis)
      ∧ again.2.(trace) = result.2.(trace) ++ [EvRedis [GET_pending x]].
Proof.
  intros Htc Hauto Hch Ho Hreg Hu Hf Hreply target Hsend result.
  destruct (pop_registered x a chat deadline w Hreg Hu Hf) as (Hpop & Hpend & _ & _).
  destruct (pop_registered_trace x a chat deadline w Hreg Hu Hf) as (Htr & Hsc & Htc1 & Hch1).
  assert (result = (Ok true, log (EvSendComment target a message.(message_thread_id)
                                     message.(message_id)) (pop_pending_post x w).2)) as Hres.
  { subst result.
    rewrite (handle_automatic_forward_claimed message x (mkPending a chat) w) by assumption.
    cbv zeta. cbn [discussion_chat_id pending_article]. fold target.
    unfold send_comment_bundle.
    destruct (message_thread_id message) as [th|] eqn:Eth;
      [|destruct (message_id message) as [mid|] eqn:Emid;
        [|destruct Hreply as [[? H]|[? H]]; discriminate]];
      unfold mbind at 1, M_bind at 1; rewrite Hsc, Hsend; reflexivity. }
  assert (result.2.(redis) = (pop_pending_post x w).2.(redis)) as Hred
    by (rewrite Hres; cbn [snd]; destruct (pop_pending_post x w).2; reflexivity).
  split; [rewrite Hres; reflexivity|].
  split; [rewrite Hred; exact Hpend|].
  split.
  { rewrite Hres. cbn [snd]. rewrite trace_log, Htr, <- app_assoc. reflexivity. }
  intros t fs again.
  set (w2 := set_clock t (set_faults fs result.2)).
  assert (redis w2 = redis result.2) as Hr2 by (subst w2; destruct result.2; reflexivity).
  assert (trace w2 = trace result.2) as Ht2 by (subst w2; destruct result.2; reflexivity).
  assert (w2.(redis).(pending) !! x ≫= live w2.(clock) = None) as Hnone.
  { rewrite Hr2, Hred, Hpend, lookup_delete_eq. reflexivity. }
  assert (telegram_client w2 = true) as Htc2.
  { subst w2. rewrite Hres. cbn [snd]. rewrite <- Htc, <- Htc1.
    destruct (pop_pending_post x w).2; reflexivity. }
  assert (CHANNEL_ID w2 = CHANNEL_ID w) as Hch2.
  { subst w2. rewrite Hres. cbn [snd]. rewrite <- Hch1.
    destruct (pop_pending_post x w).2; reflexivity. }
  destruct (pop_absent x w2 Hnone) as [Hres2 Hred2].
  subst again. fold w2.
  rewrite (handle_automatic_forward_unclaimed message x w2 Htc2 Hauto) ;
    [|rewrite Hch2; exact Hch|exact Ho|exact Hres2].
  cbn [fst snd]. split; [reflexivity|]. split; [rewrite Hred2; exact Hr2|].
  rewrite <- Ht2. apply pop_absent_trace, Hnone.
Qed.

Lemma forward_is_answered_once_witness :
  let w := (store_pending_post 7 art7 None quiet_world).2 in
  let result := handle_automatic_forward forward_of_7 w in
  result.1 = Ok true
  ∧ result.2.(redis).(pending) = delete 7 w.(redis).(pending)
  ∧ result.2.(trace)
    = w.(trace) ++ [EvRedis [GET_pending 7]; EvRedis [DEL_pending 7];
                    EvSendComment (-200) art7 None (Some 31)]
  ∧ ∀ t fs,
      let again := handle_automatic_forward forward_of_7
                     (set_clock t (set_faults fs result.2)) in
      again.1 = Ok false
      ∧ again.2.(redis) = result.2.(redis)
      ∧ again.2.(trace) = result.2.(trace) ++ [EvRedis [GET_pending 7]].
Proof.
  intros w.
  apply (forward_is_answered_once forward_of_7 7 art7 None
           (Some (1000 + inject_Z PENDING_REDIS_TTL)%Q) w).
  - reflexivity.
  - reflexivity.
  - right. reflexivity.
  - reflexivity.
  - vm_compute. reflexivity.
  - vm_compute. reflexivity.
  - exact I.
  - right. eexists. reflexivity.
  - reflexivity.
Defined.

(* ===================================================================== *)
(** * [str] and [int] on story ids *)
(* ===================================================================== *)

Lemma digit_of_pretty_char (d : N) :
  (d < 10)%N -> digit_of (pretty_N_char d) = Some (Z.of_N d).
Proof.
  intros H.
  assert (d = 0 ∨ d = 1 ∨ d = 2 ∨ d = 3 ∨ d = 4 ∨ d = 5 ∨ d = 6 ∨ d = 7 ∨ d = 8 ∨ d = 9)%N
    as Hd by lia.
  repeat destruct Hd as [->|Hd]; try subst d; reflexivity.
Qed.

Lemma pretty_char_not_blank (d : N) : is_blank (pretty_N_char d) = false.
Proof. unfold pretty_N_char. repeat case_match; reflexivity. Qed.

(** The decimal digits [pretty_N_go] puts in front of [s] are read back by
    [digits_value] as the number they were made from. *)
Lemma digits_value_pretty (x : N) :
  ∀ (s : string) (b : bool), (0 < x)%N ->
    digits_value 0 b (String.list_ascii_of_string (pretty_N_go x s))
    = digits_value (Z.of_N x) true (String.list_ascii_of_string s).
Proof.
  induction (N.lt_wf_0 x) as [x _ IH]. intros s b Hx.
  rewrite pretty_N_go_step by exact Hx.
  assert (x `mod` 10 < 10)%N as Hm by (apply N.mod_lt; lia).
  destruct (decide (x `div` 10 = 0)%N) as [H0|Hpos].
  - rewrite H0, pretty_N_go_0. cbn [String.list_ascii_of_string digits_value].
    rewrite (digit_of_pretty_char _ Hm). f_equal.
    pose proof (N.div_mod x 10 ltac:(discriminate)) as E. rewrite H0 in E.
    revert E. generalize (x `mod` 10)%N. intros r E. clear - E. lia.
  - rewrite (IH (x `div` 10)%N);
      [|apply N.div_lt; [exact Hx|reflexivity]|apply N.neq_0_lt_0, Hpos].
    cbn [String.list_ascii_of_string digits_value].
    rewrite (digit_of_pretty_char _ Hm). f_equal.
    pose proof (N.div_mod x 10 ltac:(discriminate)) as E.
    revert E. generalize (x `div` 10)%N (x `mod` 10)%N. intros q r E. clear - E. lia.
Qed.

Lemma pretty_go_not_blank (x : N) :
  ∀ s : string,
    Forall (λ c, is_blank c = false) (String.list_ascii_of_string s) ->
    Forall (λ c, is_blank c = false) (String.list_ascii_of_string (pretty_N_go x s)).
Proof.
  induction (N.lt_wf_0 x) as [x _ IH]. intros s Hs.
  destruct (decide (x = 0)%N) as [->|Hx]; [rewrite pretty_N_go_0; exact Hs|].
  rewrite pretty_N_go_step by apply N.neq_0_lt_0, Hx.
  apply IH; [apply N.div_lt; [apply N.neq_0_lt_0, Hx|reflexivity]|].
  cbn [String.list_ascii_of_string]. constructor; [apply pretty_char_not_blank|exact Hs].
Qed.

(** The first character of a positive number's decimal is a digit. *)
Lemma pretty_go_head (x : N) :
  ∀ s : string, (0 < x)%N ->
    ∃ d rest, (d < 10)%N
              ∧ String.list_ascii_of_string (pretty_N_go x s) = pretty_N_char d :: rest.
Proof.
  induction (N.lt_wf_0 x) as [x _ IH]. intros s Hx.
  rewrite pretty_N_go_step by exact Hx.
  destruct (decide (x `div` 10 = 0)%N) as [H0|Hpos].
  - rewrite H0, pretty_N_go_0. eexists _, _. split; [|reflexivity]. apply N.mod_lt. lia.
  - apply IH; [apply N.div_lt; [exact Hx|reflexivity]|apply N.neq_0_lt_0, Hpos].
Qed.

Lemma drop_blanks_id (cs : list ascii) :
  Forall (λ c, is_blank c = false) cs -> drop_blanks cs = cs.
Proof. intros [|c rest Hc _]; [reflexivity|]. simpl. rewrite Hc. reflexivity. Qed.

Lemma strip_id (cs : list ascii) :
  Forall (λ c, is_blank c = false) cs -> strip cs = cs.
Proof.
  intros H. unfold strip. rewrite (drop_blanks_id cs H).
  rewrite drop_blanks_id by (apply Forall_reverse, H). apply reverse_involutive.
Qed.

Lemma int_of_text_pretty_pos (p : positive) :
  int_of_text (pretty (N.pos p)) = Some (Z.pos p)
  ∧ int_of_text ("-" +:+ pretty (N.pos p)) = Some (Z.neg p).
Proof.
  unfold pretty, pretty_N. rewrite decide_False by discriminate.
  pose proof (pretty_go_not_blank (N.pos p) "" (Forall_nil_2 _)) as Hnb.
  pose proof (digits_value_pretty (N.pos p) "" false eq_refl) as Hv.
  destruct (pretty_go_head (N.pos p) "" eq_refl) as (d & rest & Hd & Hhead).
  unfold int_of_text. split.
  - rewrite strip_id by exact Hnb. rewrite Hhead in *.
    assert (d = 0 ∨ d = 1 ∨ d = 2 ∨ d = 3 ∨ d = 4 ∨ d = 5 ∨ d = 6 ∨ d = 7 ∨ d = 8 ∨ d = 9)%N
      as Hcases by lia.
    repeat destruct Hcases as [->|Hcases]; try subst d; exact Hv.
  - change (String.list_ascii_of_string ("-" +:+ pretty_N_go (N.pos p) ""))
      with ("-"%char :: String.list_ascii_of_string (pretty_N_go (N.pos p) "")).
    rewrite strip_id by (constructor; [reflexivity|exact Hnb]).
    rewrite Hv. reflexivity.
Qed.

Lemma int_of_text_pretty (n : Z) : int_of_text (pretty n) = Some n.
Proof. destruct n as [|p|p]; [reflexivity|apply int_of_text_pretty_pos..]. Qed.

(** X15.  [int(str(n))] is [n]: the text [_normalize_article_id] makes of a
    story id is read back by [_int_or_none] as that id, so the loop of
    [publish_latest] that fills the map keys a record staged under [str(n)]
    by [n].  The text of a missing id, [str(None)], is no integer, and a
    record with that id is left out of the map. *)
Theorem int_of_str_round_trip (n : Z) :
  _int_or_none (PyStr (_normalize_article_id (PyInt n))) = Some n
  ∧ _int_or_none (PyStr (_normalize_article_id PyNone)) = None
  ∧ ∀ (staged : StagedArticle) (rest : list StagedArticle) (staged_map : staged_dict),
      (staged.(article).(article_id) = _normalize_article_id (PyInt n) ->
       index_staged (staged :: rest) staged_map
       = index_staged rest (dict_set n staged staged_map))
      ∧ (staged.(article).(article_id) = _normalize_article_id PyNone ->
         index_staged (staged :: rest) staged_map = index_staged rest staged_map).
Proof.
  assert (_int_or_none (PyStr (_normalize_article_id (PyInt n))) = Some n) as Hn.
  { apply int_of_text_pretty. }
  split; [exact Hn|]. split; [reflexivity|].
  intros staged rest staged_map. split; intros Hid; cbn [index_staged]; rewrite Hid.
  - rewrite Hn. reflexivity.
  - reflexivity.
Qed.

(* ===================================================================== *)
(** * The keys of the tick's map *)
(* ===================================================================== *)

Lemma keyed_by_id_set (key : Z) (staged : StagedArticle) (staged_map : staged_dict) :
  keyed_by_id staged_map ->
  _int_or_none (PyStr staged.(article).(article_id)) = Some key ->
  keyed_by_id (dict_set key staged staged_map).
Proof.
  intros Hm Hk other st. destruct (decide (other = key)) as [->|Hne].
  - rewrite dict_lookup_set_eq. intros [= <-]. exact Hk.
  - rewrite dict_lookup_set_ne by exact Hne. apply Hm.
Qed.

Lemma index_staged_keyed (staged_articles : list StagedArticle) (staged_map : staged_dict) :
  keyed_by_id staged_map -> keyed_by_id (index_staged staged_articles staged_map).
Proof.
  revert staged_map. induction staged_articles as [|staged rest IH]; intros m Hm; [exact Hm|].
  cbn [index_staged].
  destruct (_int_or_none (PyStr (article_id (article staged)))) as [id|] eqn:E;
    [|exact (IH m Hm)].
  apply IH, keyed_by_id_set; assumption.
Qed.

Lemma persist_record (a : Article) (s l : Q) (w : World) :
  ∃ res, (_persist a s l w).1 = Ok res ∧ ∀ record, res = Some record -> record.(article) = a.
Proof.
  pose proof (persist_run a s l w) as H. cbv zeta in H.
  destruct (first_fault w); destruct H as [H _]; rewrite H; eexists;
    (split; [reflexivity|]); intros record [= <-]; reflexivity.
Qed.

Lemma stage_each_keyed (articles : list Article) (staged_map : staged_dict) (w : World) :
  keyed_by_id staged_map ->
  ∃ staged_map', (stage_each articles staged_map w).1 = Ok staged_map'
                 ∧ keyed_by_id staged_map'.
Proof.
  revert staged_map w. induction articles as [|a rest IH]; intros m w Hm.
  - exists m. split; [reflexivity|exact Hm].
  - cbn [stage_each].
    destruct (_int_or_none (PyStr (article_id a))) as [id|] eqn:E; [|exact (IH m w Hm)].
    rewrite bind_raise.
    destruct (persist_record a (float_or None (clock w)) (float_or None (clock w)) w)
      as (res & Hres & Hart).
    change (_persist a (float_or None (clock w)) (float_or None (clock w)) w)
      with (stage_article a None w) in Hres.
    rewrite Hres. destruct res as [record|]; [|apply IH, Hm].
    apply IH, keyed_by_id_set; [exact Hm|]. rewrite (Hart record eq_refl). exact E.
Qed.

Lemma refresh_each_keyed (ids : list Z) (details : list (Z * story)) (now : Q)
    (staged_map : staged_dict) (w : World) :
  keyed_by_id staged_map ->
  ∃ staged_map', (refresh_each ids details now staged_map w).1 = Ok staged_map'
                 ∧ keyed_by_id staged_map'.
Proof.
  revert staged_map w. induction ids as [|id rest IH]; intros m w Hm.
  - exists m. split; [reflexivity|exact Hm].
  - cbn [refresh_each]. destruct (dict_lookup id m) as [staged|] eqn:El; [|exact (IH m w Hm)].
    rewrite bind_raise, update_staged_article_eq. cbv zeta. cbn [default from_option].
    match goal with |- context [_persist ?a ?s ?l w] =>
      destruct (persist_record a s l w) as (res & Hres & Hart) end.
    rewrite Hres. destruct res as [record|]; [|apply IH, Hm].
    apply IH, keyed_by_id_set; [exact Hm|]. rewrite (Hart record eq_refl). cbn [article_id].
    exact (Hm id staged El).
Qed.

(** X16.  Every step of the tick that touches the map keeps it keyed by the
    integer of its records' article ids: filling it from the listing,
    staging the new articles, and refreshing the due ones.  A record is so
    always written back to Redis, marked and looked up under the id it is
    kept under. *)
Theorem staged_map_stays_keyed_by_id (staged_map : staged_dict) :
  keyed_by_id staged_map ->
  (∀ staged_articles, keyed_by_id (index_staged staged_articles staged_map))
  ∧ (∀ candidate_ids w, ∃ staged_map',
       (_stage_new_articles candidate_ids staged_map w).1 = Ok staged_map'
       ∧ keyed_by_id staged_map')
  ∧ (∀ now w, ∃ staged_map',
       (_refresh_metrics staged_map now w).1 = Ok staged_map'
       ∧ keyed_by_id staged_map').
Proof.
  intros Hm. split; [|split].
  - intros l. apply index_staged_keyed, Hm.
  - intros candidates w. unfold _stage_new_articles.
    destruct (unseen_ids_never_raises candidates staged_map [] w) as [ids Hids].
    rewrite (bind_ok _ _ w ids Hids).
    destruct ids as [|first rest]; [exists staged_map; split; [reflexivity|exact Hm]|].
    rewrite bind_raise, fetch_articles_run. cbn [fst snd].
    destruct (reader_articles _ _) as [l|e]; [apply stage_each_keyed, Hm|].
    exists staged_map. split; [reflexivity|exact Hm].
  - intros now w. rewrite refresh_metrics_run.
    destruct (refresh_ids staged_map now) as [|first rest];
      [exists staged_map; split; [reflexivity|exact Hm]|].
    cbv beta iota zeta.
    destruct (hn_story_details w (first :: rest)) as [l|e]; [apply refresh_each_keyed, Hm|].
    exists staged_map. split; [reflexivity|exact Hm].
Qed.

Lemma staged_map_stays_keyed_by_id_witness :
  (∀ staged_articles, keyed_by_id (index_staged staged_articles two_staged))
  ∧ (∀ candidate_ids w, ∃ staged_map',
       (_stage_new_articles candidate_ids two_staged w).1 = Ok staged_map'
       ∧ keyed_by_id staged_map')
  ∧ (∀ now w, ∃ staged_map',
       (_refresh_metrics two_staged now w).1 = Ok staged_map'
       ∧ keyed_by_id staged_map').
Proof.
  apply (staged_map_stays_keyed_by_id two_staged).
  intros key staged H. unfold two_staged in H. cbn [dict_lookup] in H.
  repeat case_decide; simplify_eq; reflexivity.
Defined.

(* ===================================================================== *)
(** * The writer *)
(* ===================================================================== *)

(** What the loop of [attempt_send] does from call [n] on: it goes through a
    prefix of its steps, every send but the last was refused with an error
    it takes for transient, and the last send decides. *)
Lemma attempt_loop_run (telegram : nat -> Writer.send_result) (attempts : Z)
    (thread_id : option Z) (message : Writer.call) (steps : list (nat * Q)) :
  ∀ n : nat,
    let r := Writer.attempt_loop telegram attempts thread_id message steps n in
    ∃ count : nat,
      (count <= length steps)%nat
      ∧ (steps ≠ [] -> (1 <= count)%nat)
      ∧ r.2 = flat_map (Writer.step_calls message) (take count steps)
      ∧ (∀ i, (S i < count)%nat ->
           ∃ idx delay detail,
             steps !! i = Some (idx, delay)
             ∧ telegram (n + i)%nat = Writer.Refused detail
             ∧ Writer.recoverable thread_id detail = true
             ∧ Z.of_nat idx + 1 < attempts)
      ∧ (r.1 = true -> ∃ m, telegram (n + count - 1)%nat = Writer.Sent m)
      ∧ (r.1 = false -> steps ≠ [] ->
           ∃ detail, telegram (n + count - 1)%nat = Writer.Refused detail).
Proof.
  induction steps as [|[idx delay] rest IH]; intros n r.
  - exists 0%nat. subst r. simpl. split_and!; try reflexivity; try congruence; try lia.
  - assert (∀ (b : bool) (calls : list Writer.call),
              (b = true -> ∃ m, telegram n = Writer.Sent m) ->
              (b = false -> ∃ detail, telegram n = Writer.Refused detail) ->
              calls = Writer.step_calls message (idx, delay) ->
              ∃ count : nat,
                (count <= length ((idx, delay) :: rest))%nat
                ∧ ((idx, delay) :: rest ≠ [] -> (1 <= count)%nat)
                ∧ calls = flat_map (Writer.step_calls message) (take count ((idx, delay) :: rest))
                ∧ (∀ i, (S i < count)%nat ->
                     ∃ idx0 delay0 detail,
                       ((idx, delay) :: rest) !! i = Some (idx0, delay0)
                       ∧ telegram (n + i)%nat = Writer.Refused detail
                       ∧ Writer.recoverable thread_id detail = true
                       ∧ Z.of_nat idx0 + 1 < attempts)
                ∧ (b = true -> ∃ m, telegram (n + count - 1)%nat = Writer.Sent m)
                ∧ (b = false -> (idx, delay) :: rest ≠ [] ->
                     ∃ detail, telegram (n + count - 1)%nat = Writer.Refused detail)) as Hone.
    { intros b calls Ht Hf ->. exists 1%nat.
      replace (n + 1 - 1)%nat with n by lia.
      split; [simpl; lia|]. split; [intros _; lia|].
      split; [cbn [take flat_map]; rewrite take_0; cbn [flat_map]; rewrite app_nil_r; reflexivity|].
      split; [intros i Hi; lia|]. split; [exact Ht|]. intros Hb _. exact (Hf Hb). }
    subst r. cbn [Writer.attempt_loop].
    destruct (telegram n) as [m|detail] eqn:En.
    + cbn [fst snd]. apply Hone; [intros _; exists m; reflexivity|intros H; discriminate H|reflexivity].
    + destruct (Writer.recoverable thread_id detail
                && bool_decide (Z.of_nat idx + 1 < attempts)) eqn:Eretry.
      * apply andb_true_iff in Eretry as [Hrec Hidx]. apply bool_decide_eq_true in Hidx.
        destruct (IH (S n)) as (count & Hlen & Hpos & Hcalls & Hearly & Htrue & Hfalse).
        destruct rest as [|step rest'].
        { (* the retry finds no step left *)
          cbn [Writer.attempt_loop fst snd].
          apply Hone; [intros H; discriminate H|intros _; exists detail; reflexivity|reflexivity]. }
        specialize (Hpos ltac:(discriminate)).
        exists (S count). cbn [fst snd length] in *.
        split; [lia|]. split; [intros _; lia|]. split.
        { cbn [take flat_map]. rewrite Hcalls. unfold Writer.step_calls at 2. cbn [snd].
          rewrite <- app_assoc. reflexivity. }
        split.
        { intros i Hi. destruct i as [|i].
          - exists idx, delay, detail. rewrite Nat.add_0_r. auto.
          - destruct (Hearly i ltac:(lia)) as (idx' & delay' & d' & Hl & Ht & Hr & Hi').
            exists idx', delay', d'. replace (n + S i)%nat with (S n + i)%nat by lia. auto. }
        replace (n + S count - 1)%nat with (S n + count - 1)%nat by lia.
        split; [exact Htrue|]. intros Hf _. apply Hfalse; [exact Hf|discriminate].
      * cbn [fst snd].
        apply Hone; [intros H; discriminate H|intros _; exists detail; reflexivity|reflexivity].
Qed.

Lemma attempt_steps (attempts : Z) :
  ∃ k : nat,
    imap pair (Writer.slice_to attempts Writer.backoffs)
    = take k [(0%nat, 0%Q); (1%nat, 3 # 10); (2%nat, 8 # 10); (3%nat, 15 # 10)].
Proof.
  assert (∀ k, imap pair (take k Writer.backoffs)
               = take k [(0%nat, 0%Q); (1%nat, 3 # 10); (2%nat, 8 # 10); (3%nat, 15 # 10)])
    as Hk by (intros [|[|[|[|[|k]]]]]; reflexivity).
  unfold Writer.slice_to. destruct (attempts <? 0); eexists; apply Hk.
Qed.

(** X17.  [send_comment_bundle] refuses to run without a thread or a message
    to reply to.  Otherwise it never raises, and whatever [attempts] is it
    calls the client at most four times and at most [max(1, attempts)]
    times, always with the same message: the retry after a thread or reply
    error repeats the call as it was.  It sleeps 0.3, 0.8 and 1.5 seconds
    before the second, third and fourth call and never after the last.
    Every call but the last was refused with an error it takes for
    transient, and it returns [True] exactly when the last call went
    through. *)
Theorem comment_is_sent_at_most_four_times
    (telegram : nat -> Writer.send_result) (build_comment_body : Article -> string)
    (chat_id : Z) (a : Article) (thread_id root_reply_id : option Z) (attempts : Z) :
  let r := Writer.send_comment_bundle telegram build_comment_body chat_id a
                                      thread_id root_reply_id attempts in
  let message := Writer.comment_message chat_id thread_id root_reply_id
                                        (build_comment_body a) (build_article_keyboard a) in
  (thread_id = None -> root_reply_id = None -> r = (Raise ValueError, []))
  ∧ (is_Some thread_id ∨ is_Some root_reply_id ->
     ∃ count : nat,
       (count <= 4)%nat
       ∧ Z.of_nat count <= Z.max 1 attempts
       ∧ r.2 = take (2 * count - 1) (Writer.full_schedule message)
       ∧ (∀ i, (S i < count)%nat ->
            ∃ detail, telegram i = Writer.Refused detail
                      ∧ Writer.recoverable thread_id detail = true)
       ∧ (r.1 = Ok true ∨ r.1 = Ok false)
       ∧ (r.1 = Ok true <-> (1 <= count)%nat ∧ ∃ m, telegram (count - 1)%nat = Writer.Sent m)).
Proof.
  intros r message. split.
  { intros -> ->. reflexivity. }
  intros Hway.
  assert (r = (Ok (Writer.attempt_send telegram chat_id thread_id root_reply_id attempts
                     (build_comment_body a) false (Some (build_article_keyboard a))).1,
               (Writer.attempt_send telegram chat_id thread_id root_reply_id attempts
                     (build_comment_body a) false (Some (build_article_keyboard a))).2)) as ->.
  { subst r. unfold Writer.send_comment_bundle.
    destruct thread_id, root_reply_id; try reflexivity.
    destruct Hway as [[x H]|[x H]]; discriminate H. }
  unfold Writer.attempt_send. fold (Writer.comment_message chat_id thread_id root_reply_id
                                      (build_comment_body a) (build_article_keyboard a)).
  fold message.
  destruct (attempt_steps attempts) as [k Hk]. rewrite Hk.
  set (E := [(0%nat, 0%Q); (1%nat, 3 # 10); (2%nat, 8 # 10); (3%nat, 15 # 10)]) in *.
  destruct (attempt_loop_run telegram attempts thread_id message (take k E) 0)
    as (count & Hlen & Hpos & Hcalls & Hearly & Htrue & Hfalse).
  cbv zeta in Hcalls, Htrue, Hfalse.
  set (res := Writer.attempt_loop telegram attempts thread_id message (take k E) 0) in *.
  cbn [fst snd].
  assert (count <= 4)%nat as H4.
  { etransitivity; [exact Hlen|]. rewrite length_take. subst E. simpl. lia. }
  assert (take count (take k E) = take count E) as Htake.
  { rewrite take_take. f_equal. rewrite length_take in Hlen. lia. }
  exists count. split; [exact H4|]. split.
  { destruct count as [|[|c]]; [lia..|].
    destruct (Hearly c ltac:(lia)) as (idx & delay & detail & Hl & _ & _ & Hidx).
    apply lookup_take_Some in Hl as [Hl _].
    assert (idx = c) as ->.
    { subst E. destruct c as [|[|[|[|c]]]]; simpl in Hl; try congruence; lia. }
    lia. }
  split.
  { rewrite Hcalls, Htake. subst E.
    destruct count as [|[|[|[|[|c]]]]]; [reflexivity..|lia]. }
  split.
  { intros i Hi. destruct (Hearly i Hi) as (idx & delay & detail & _ & Ht & Hr & _).
    exists detail. auto. }
  split; [destruct res.1; auto|].
  split.
  - intros [= Hres]. destruct (Htrue Hres) as [m Hm].
    assert (1 <= count)%nat as H1.
    { apply Hpos. intros Hnil. subst res. rewrite Hnil in Hres. discriminate Hres. }
    split; [exact H1|]. exists m. exact Hm.
  - intros [H1 [m Hm]]. destruct res.1 eqn:Eres; [reflexivity|].
    destruct (Hfalse eq_refl) as [detail Hd].
    + intros Hnil. rewrite Hnil in Hlen. simpl in Hlen. lia.
    + simpl in Hd. congruence.
Qed.

Lemma comment_is_sent_at_most_four_times_witness :
  let r := Writer.send_comment_bundle Writer.flapping (λ a, a.(title)) (-200) art7
                                      (Some 5) None 4 in
  let message := Writer.comment_message (-200) (Some 5) None
                                        art7.(title) (build_article_keyboard art7) in
  ∃ count : nat,
    (count <= 4)%nat
    ∧ Z.of_nat count <= Z.max 1 4
    ∧ r.2 = take (2 * count - 1) (Writer.full_schedule message)
    ∧ (∀ i, (S i < count)%nat ->
         ∃ detail, Writer.flapping i = Writer.Refused detail
                   ∧ Writer.recoverable (Some 5) detail = true)
    ∧ (r.1 = Ok true ∨ r.1 = Ok false)
    ∧ (r.1 = Ok true <-> (1 <= count)%nat ∧ ∃ m, Writer.flapping (count - 1)%nat = Writer.Sent m).
Proof.
  intros r message.
  apply (proj2 (comment_is_sent_at_most_four_times Writer.flapping (λ a, a.(title)) (-200) art7
                  (Some 5) None 4)).
  left. eexists. reflexivity.
Defined.

Lemma caption_cases (a : Article) :
  (build_article_caption a = Raise TypeError ∧ numbers_missing a)
  ∨ (∃ caption, build_article_caption a = Ok caption ∧ ¬ numbers_missing a).
Proof.
  unfold build_article_caption, is_hot, numbers_missing.
  destruct (hn_score a) as [score|]; [|left; split; [reflexivity|left; reflexivity]].
  destruct (100 <? score) eqn:Es.
  - right. eexists. split; [reflexivity|].
    apply Z.ltb_lt in Es. intros [H|(s & [= <-] & Hs & _)]; [discriminate H|lia].
  - destruct (hn_comment_count a) as [comments|].
    + right. eexists. split; [reflexivity|].
      intros [H|(s & _ & _ & H)]; discriminate H.
    + left. split; [reflexivity|]. right. exists score. apply Z.ltb_ge in Es. auto.
Qed.

(** X18.  [send_article_bundle] raises [TypeError] before it calls Telegram
    exactly for an article that has no score, or a score of at most 100 and
    no comment count.  For every other article it calls the client once or
    twice: with a picture it sends the photo first and, when that is
    refused, the text with the same caption, thread and keyboard; without a
    picture only the text.  It returns the message of the call that went
    through, which is its last, and it raises only when the text was
    refused. *)
Theorem headline_needs_its_numbers_and_falls_back_to_text
    (telegram : nat -> Writer.send_result) (chat_id : Z) (a : Article)
    (thread_id : option Z) (include_keyboard : bool) :
  let r := Writer.send_article_bundle telegram chat_id a thread_id include_keyboard in
  let keyboard := if include_keyboard then Some (build_article_keyboard a) else None in
  (r.1 = Raise TypeError <-> numbers_missing a)
  ∧ (r.1 = Raise TypeError -> r.2 = [])
  ∧ (¬ numbers_missing a ->
     ∃ caption,
       build_article_caption a = Ok caption
       ∧ let text := Writer.SendMessage chat_id caption thread_id None keyboard false None in
         (1 <= length r.2 <= 2)%nat
         ∧ (∀ url, Writer.photo_of a = Some url ->
              head r.2 = Some (Writer.SendPhoto chat_id url caption thread_id keyboard))
         ∧ (Writer.photo_of a = None -> r.2 = [text])
         ∧ (length r.2 = 2%nat ->
              r.2 !! 1%nat = Some text ∧ ∃ detail, telegram 0%nat = Writer.Refused detail)
         ∧ (∀ m, r.1 = Ok m <-> telegram (length r.2 - 1)%nat = Writer.Sent m)
         ∧ (r.1 = Raise TransportError
            <-> last r.2 = Some text
                ∧ ∃ detail, telegram (length r.2 - 1)%nat = Writer.Refused detail)).
Proof.
  intros r keyboard. subst r. unfold Writer.send_article_bundle. fold keyboard.
  destruct (caption_cases a) as [[Hc Hm]|(caption & Hc & Hm)]; rewrite Hc.
  { split; [tauto|]. split; [reflexivity|]. intros H. contradiction. }
  split; [|split].
  { split; [|contradiction].
    destruct (Writer.photo_of a); [destruct (telegram 0%nat)|];
      try destruct (telegram 1%nat); try destruct (telegram 0%nat); discriminate. }
  { destruct (Writer.photo_of a); [destruct (telegram 0%nat)|];
      try destruct (telegram 1%nat); try destruct (telegram 0%nat); discriminate. }
  intros _. exists caption. split; [reflexivity|]. cbv zeta.
  destruct (Writer.photo_of a) as [url|].
  - destruct (telegram 0%nat) as [m0|d0] eqn:E0.
    + cbn [fst snd length head app Nat.sub]; rewrite ?E0.
      split_and!; try lia; try discriminate.
      * intros u [= <-]. reflexivity.
      * intros m. split; intros H; congruence.
      * split; [discriminate|]. intros [_ [d H]]. discriminate H.
    + destruct (telegram 1%nat) as [m1|d1] eqn:E1; cbn [fst snd length head app Nat.sub]; rewrite ?E0, ?E1.
      * split_and!; try lia; try discriminate.
        -- intros u [= <-]. reflexivity.
        -- intros _. split; [reflexivity|]. exists d0. reflexivity.
        -- intros m. split; intros H; congruence.
        -- split; [discriminate|]. intros [_ [d H]]. discriminate H.
      * split_and!; try lia; try discriminate.
        -- intros u [= <-]. reflexivity.
        -- intros _. split; [reflexivity|]. exists d0. reflexivity.
        -- intros m. split; intros H; congruence.
        -- split; [|reflexivity]. intros _. split; [reflexivity|]. exists d1. reflexivity.
  - destruct (telegram 0%nat) as [m0|d0] eqn:E0; cbn [fst snd length head app Nat.sub]; rewrite ?E0.
    + split_and!; try lia; try discriminate; try reflexivity.
      * intros m. split; intros H; congruence.
      * split; [discriminate|]. intros [_ [d H]]. discriminate H.
    + split_and!; try lia; try discriminate; try reflexivity.
      * intros m. split; intros H; congruence.
      * split; [|reflexivity]. intros _. split; [reflexivity|]. exists d0. reflexivity.
Qed.

Lemma headline_needs_its_numbers_and_falls_back_to_text_witness :
  let r := Writer.send_article_bundle Writer.flapping (-100) art7 None false in
  ∃ caption,
    build_article_caption art7 = Ok caption
    ∧ let text := Writer.SendMessage (-100) caption None None None false None in
      (1 <= length r.2 <= 2)%nat
      ∧ (∀ url, Writer.photo_of art7 = Some url ->
           head r.2 = Some (Writer.SendPhoto (-100) url caption None None))
      ∧ (Writer.photo_of art7 = None -> r.2 = [text])
      ∧ (length r.2 = 2%nat ->
           r.2 !! 1%nat = Some text ∧ ∃ detail, Writer.flapping 0%nat = Writer.Refused detail)
      ∧ (∀ m, r.1 = Ok m <-> Writer.flapping (length r.2 - 1)%nat = Writer.Sent m)
      ∧ (r.1 = Raise TransportError
         <-> last r.2 = Some text
             ∧ ∃ detail, Writer.flapping (length r.2 - 1)%nat = Writer.Refused detail).
Proof.
  intros r.
  apply (proj2 (proj2 (headline_needs_its_numbers_and_falls_back_to_text
                         Writer.flapping (-100) art7 None false))).
  intros [H|(s & H & Hs & Hc)]; [discriminate H|].
  vm_compute in H, Hc. discriminate Hc.
Defined.

(* ===================================================================== *)
(** * The Telegram client *)
(* ===================================================================== *)

Lemma request_loop_run (http : nat -> TelegramClient.http_result) (c : TelegramClient.client) :
  ∀ (len start : nat) (last_error : option TelegramClient.raised),
    Z.of_nat (start + len) = c.(TelegramClient.max_retries) -> (1 <= len)%nat ->
    let r := TelegramClient.request_loop http c (seq start len) last_error in
    ∃ count : nat,
      (1 <= count <= len)%nat
      ∧ r.2 = flat_map (λ k, TelegramClient.Request :: TelegramClient.pause c k)
                       (seq start (count - 1)) ++ [TelegramClient.Request]
      ∧ (∀ i, (S i < count)%nat ->
           ∃ e, TelegramClient.one_request (http (start + i)%nat) = TelegramClient.Retry e)
      ∧ match r.1 with
        | inl result =>
            TelegramClient.one_request (http (start + count - 1)%nat)
            = TelegramClient.Done result
        | inr e =>
            TelegramClient.one_request (http (start + count - 1)%nat)
            = TelegramClient.Escapes e
            ∨ (count = len
               ∧ TelegramClient.one_request (http (start + count - 1)%nat)
                 = TelegramClient.Retry e)
        end.
Proof.
  induction len as [|len IH]; intros start last_error Hmax Hlen r; [lia|].
  subst r. cbn [seq TelegramClient.request_loop].
  destruct (TelegramClient.one_request (http start)) as [result|e|e] eqn:E0.
  - exists 1%nat. cbn [fst snd]. replace (start + 1 - 1)%nat with start by lia.
    split; [lia|]. split; [reflexivity|]. split; [intros i Hi; lia|exact E0].
  - exists 1%nat. cbn [fst snd]. replace (start + 1 - 1)%nat with start by lia.
    split; [lia|]. split; [reflexivity|]. split; [intros i Hi; lia|left; exact E0].
  - destruct (bool_decide (Z.of_nat start + 1 = TelegramClient.max_retries c)) eqn:Elast.
    + apply bool_decide_eq_true in Elast.
      exists 1%nat. cbn [fst snd TelegramClient.after_loop default from_option].
      replace (start + 1 - 1)%nat with start by lia.
      split; [lia|]. split; [reflexivity|]. split; [intros i Hi; lia|].
      right. split; [lia|exact E0].
    + apply bool_decide_eq_false in Elast.
      destruct (IH (S start) (Some e) ltac:(lia) ltac:(lia))
        as (count & Hcount & Hcalls & Hearly & Hlast).
      exists (S count). cbn [fst snd].
      split; [lia|]. split.
      { rewrite Hcalls. replace (S count - 1)%nat with (S (count - 1)) by lia.
        cbn [seq flat_map]. rewrite <- !app_assoc. reflexivity. }
      split.
      { intros i Hi. destruct i as [|i].
        - exists e. rewrite Nat.add_0_r. exact E0.
        - destruct (Hearly i ltac:(lia)) as [e' He'].
          exists e'. replace (start + S i)%nat with (S start + i)%nat by lia. exact He'. }
      replace (start + S count - 1)%nat with (S start + count - 1)%nat by lia.
      destruct (TelegramClient.request_loop http c (seq (S start) len) (Some e)).1
        as [result|e']; [exact Hlast|].
      destruct Hlast as [Hl|[Hl1 Hl2]]; [left; exact Hl|right; split; [lia|exact Hl2]].
Qed.

Lemma init_bounds (token : string) (retries : Z) (pause : Q) (c : TelegramClient.client) :
  TelegramClient.init token retries pause = Some c ->
  1 <= c.(TelegramClient.max_retries) ∧ (0 <= c.(TelegramClient.backoff))%Q.
Proof.
  unfold TelegramClient.init. destruct (bool_decide (token = "")); [discriminate|].
  intros [= <-]. simpl. split; [lia|apply Q.le_max_l].
Qed.

Lemma one_request_is_specific (answer : TelegramClient.http_result) s d :
  TelegramClient.one_request answer
  ≠ TelegramClient.Retry (TelegramClient.TelegramAPIError TelegramClient.Unspecific s d).
Proof.
  unfold TelegramClient.one_request.
  destruct answer as [|status [payload|bytes]]; try discriminate.
  destruct (negb (status =? 200)); [discriminate|].
  destruct payload; try discriminate.
  destruct (negb _); [discriminate|]. destruct (dict_get _ _); discriminate.
Qed.

Lemma slept_app (l1 l2 : list TelegramClient.net_call) :
  (TelegramClient.slept (l1 ++ l2) == TelegramClient.slept l1 + TelegramClient.slept l2)%Q.
Proof.
  induction l1 as [|[|s] l1 IH]; simpl.
  - ring.
  - exact IH.
  - unfold TelegramClient.slept in *. simpl. rewrite IH. ring.
Qed.

Lemma slept_pause (c : TelegramClient.client) (k : nat) :
  (TelegramClient.slept (TelegramClient.Request :: TelegramClient.pause c k)
   == c.(TelegramClient.backoff) * inject_Z (2 ^ Z.of_nat k))%Q.
Proof.
  unfold TelegramClient.pause. cbv zeta.
  destruct (Qeq_bool _ 0) eqn:E.
  - apply Qeq_bool_iff in E. rewrite E. reflexivity.
  - unfold TelegramClient.slept. simpl. ring.
Qed.

Lemma slept_schedule (c : TelegramClient.client) (n start : nat) :
  (TelegramClient.slept
     (flat_map (λ k, TelegramClient.Request :: TelegramClient.pause c k) (seq start n))
   == c.(TelegramClient.backoff)
      * (inject_Z (2 ^ Z.of_nat (start + n)) - inject_Z (2 ^ Z.of_nat start)))%Q.
Proof.
  revert start. induction n as [|n IH]; intros start.
  - rewrite Nat.add_0_r. simpl. unfold TelegramClient.slept. simpl. ring.
  - cbn [seq flat_map].
    change (TelegramClient.Request :: TelegramClient.pause c start ++ ?l)
      with ((TelegramClient.Request :: TelegramClient.pause c start) ++ l).
    rewrite slept_app, slept_pause, IH.
    replace (S start + n)%nat with (start + S n)%nat by lia.
    replace (2 ^ Z.of_nat (S start)) with (2 * 2 ^ Z.of_nat start)
      by (rewrite Nat2Z.inj_succ, Z.pow_succ_r by lia; reflexivity).
    rewrite inject_Z_mult. ring.
Qed.

(** X19.  One call of a client that [__init__] has built sends at least one
    and at most [max_retries] requests.  It returns the result of the first
    answer with status 200 and a truthy [ok]; every request before the last
    failed in a way the loop retries, the pause after attempt [k] is
    [backoff * 2 ** k], there is no pause after the last request, and the
    call has slept [backoff * (2 ** (count - 1) - 1)] seconds in all.  A
    [TelegramAPIError] is raised only when all [max_retries] requests have
    failed, and it is the error of the last one, never the unspecific error
    that follows the loop.  An answer that is no object, or has no [result],
    ends the call at once with the exception of the lookup. *)
Theorem request_is_retried_within_bounds
    (http : nat -> TelegramClient.http_result) (token : string) (retries : Z) (pause : Q)
    (c : TelegramClient.client) :
  TelegramClient.init token retries pause = Some c ->
  let r := TelegramClient._request http c in
  ∃ count : nat,
    (1 <= count)%nat
    ∧ Z.of_nat count <= c.(TelegramClient.max_retries)
    ∧ r.2 = flat_map (λ k, TelegramClient.Request :: TelegramClient.pause c k)
                     (seq 0 (count - 1)) ++ [TelegramClient.Request]
    ∧ (TelegramClient.slept r.2
       == c.(TelegramClient.backoff) * (inject_Z (2 ^ Z.of_nat (count - 1)) - 1))%Q
    ∧ (∀ i, (S i < count)%nat ->
         ∃ e, TelegramClient.one_request (http i) = TelegramClient.Retry e)
    ∧ match r.1 with
      | inl result =>
          TelegramClient.one_request (http (count - 1)%nat) = TelegramClient.Done result
      | inr (TelegramClient.TelegramAPIError why status description) =>
          why ≠ TelegramClient.Unspecific
          ∧ Z.of_nat count = c.(TelegramClient.max_retries)
          ∧ TelegramClient.one_request (http (count - 1)%nat)
            = TelegramClient.Retry (TelegramClient.TelegramAPIError why status description)
      | inr e =>
          TelegramClient.one_request (http (count - 1)%nat) = TelegramClient.Escapes e
      end.
Proof.
  intros Hinit r. destruct (init_bounds token retries pause c Hinit) as [Hmax _].
  destruct (request_loop_run http c (Z.to_nat c.(TelegramClient.max_retries)) 0 None
              ltac:(simpl; lia) ltac:(lia)) as (count & Hcount & Hcalls & Hearly & Hlast).
  cbv zeta in Hcalls, Hlast. fold (TelegramClient._request http c) in Hcalls, Hlast.
  fold r in Hcalls, Hlast. cbn [Nat.add] in Hlast.
  exists count. split; [lia|]. split; [lia|]. split; [exact Hcalls|].
  split.
  { rewrite Hcalls, slept_app, slept_schedule. cbn [Nat.add].
    change (TelegramClient.slept [TelegramClient.Request]) with 0%Q.
    change (inject_Z (2 ^ Z.of_nat 0)) with 1%Q. ring. }
  split; [exact Hearly|].
  destruct r.1 as [result|e]; [exact Hlast|].
  assert (∀ answer, TelegramClient.one_request answer ≠ TelegramClient.Escapes
            (TelegramClient.TelegramAPIError TelegramClient.Unspecific None None)
          ∧ ∀ why s d, TelegramClient.one_request answer
                       ≠ TelegramClient.Escapes (TelegramClient.TelegramAPIError why s d))
    as Hesc.
  { intros answer. unfold TelegramClient.one_request.
    split; [|intros why s d];
      (destruct answer as [|status [payload|bytes]]; try discriminate;
       destruct (negb (status =? 200)); [discriminate|];
       destruct payload; try discriminate;
       destruct (negb _); [discriminate|]; destruct (dict_get _ _); discriminate). }
  destruct e as [why status description| |].
  - destruct Hlast as [Hl|[Hl1 Hl2]]; [exfalso; exact (proj2 (Hesc _) _ _ _ Hl)|].
    split; [|split; [lia|exact Hl2]].
    intros ->. exact (one_request_is_specific _ _ _ Hl2).
  - destruct Hlast as [Hl|[_ Hl]]; [exact Hl|].
    exfalso. revert Hl. unfold TelegramClient.one_request.
    destruct (http _) as [|status [payload|bytes]]; try discriminate.
    destruct (negb (status =? 200)); [discriminate|].
    destruct payload; try discriminate.
    destruct (negb _); [discriminate|]. destruct (dict_get _ _); discriminate.
  - destruct Hlast as [Hl|[_ Hl]]; [exact Hl|].
    exfalso. revert Hl. unfold TelegramClient.one_request.
    destruct (http _) as [|status [payload|bytes]]; try discriminate.
    destruct (negb (status =? 200)); [discriminate|].
    destruct payload; try discriminate.
    destruct (negb _); [discriminate|]. destruct (dict_get _ _); discriminate.
Qed.

Lemma request_is_retried_within_bounds_witness :
  let c := TelegramClient.mkClient 3 (4 # 10) in
  let r := TelegramClient._request TelegramClient.recovering c in
  ∃ count : nat,
    (1 <= count)%nat
    ∧ Z.of_nat count <= c.(TelegramClient.max_retries)
    ∧ r.2 = flat_map (λ k, TelegramClient.Request :: TelegramClient.pause c k)
                     (seq 0 (count - 1)) ++ [TelegramClient.Request]
    ∧ (TelegramClient.slept r.2
       == c.(TelegramClient.backoff) * (inject_Z (2 ^ Z.of_nat (count - 1)) - 1))%Q
    ∧ (∀ i, (S i < count)%nat ->
         ∃ e, TelegramClient.one_request (TelegramClient.recovering i)
              = TelegramClient.Retry e)
    ∧ match r.1 with
      | inl result =>
          TelegramClient.one_request (TelegramClient.recovering (count - 1)%nat)
          = TelegramClient.Done result
      | inr (TelegramClient.TelegramAPIError why status description) =>
          why ≠ TelegramClient.Unspecific
          ∧ Z.of_nat count = c.(TelegramClient.max_retries)
          ∧ TelegramClient.one_request (TelegramClient.recovering (count - 1)%nat)
            = TelegramClient.Retry (TelegramClient.TelegramAPIError why status description)
      | inr e =>
          TelegramClient.one_request (TelegramClient.recovering (count - 1)%nat)
          = TelegramClient.Escapes e
      end.
Proof.
  intros c r.
  apply (request_is_retried_within_bounds TelegramClient.recovering "token" 3 (4 # 10) c).
  reflexivity.
Defined.

(* ===================================================================== *)
(** * The details of a set of stories *)
(* ===================================================================== *)

Lemma unique_ints_spec (ids : list py_arg) :
  ∀ (unique_ids : list Z) (seen : gset Z),
    (∀ z, z ∈ seen <-> z ∈ unique_ids) -> NoDup unique_ids ->
    NoDup (HackerNews.unique_ints ids unique_ids seen)
    ∧ ∀ z, z ∈ HackerNews.unique_ints ids unique_ids seen
           <-> z ∈ unique_ids ∨ ∃ raw_id, raw_id ∈ ids ∧ _int_or_none raw_id = Some z.
Proof.
  induction ids as [|raw_id rest IH]; intros unique_ids seen Hseen Hnd.
  - split; [exact Hnd|]. intros z. split; [auto|].
    intros [H|(raw & Hin & _)]; [exact H|inversion Hin].
  - cbn [HackerNews.unique_ints]. destruct (_int_or_none raw_id) as [iid|] eqn:Eint.
    + destruct (bool_decide (iid ∈ seen)) eqn:Es.
      * apply bool_decide_eq_true in Es.
        destruct (IH unique_ids seen Hseen Hnd) as [Hn Hm]. split; [exact Hn|].
        intros z. rewrite Hm. split.
        -- intros [H|(raw & Hin & Hr)]; [auto|]. right. exists raw.
           split; [apply list_elem_of_further, Hin|exact Hr].
        -- intros [H|(raw & Hin & Hr)]; [auto|].
           apply elem_of_cons in Hin as [->|Hin].
           ++ left. apply Hseen. congruence.
           ++ right. exists raw. auto.
      * apply bool_decide_eq_false in Es.
        destruct (IH (unique_ids ++ [iid]) ({[iid]} ∪ seen)) as [Hn Hm].
        { intros z. rewrite elem_of_union, elem_of_singleton, elem_of_app,
            list_elem_of_singleton, Hseen. tauto. }
        { apply NoDup_app. split; [exact Hnd|]. split; [|apply NoDup_singleton].
          intros x Hx Hx'. apply list_elem_of_singleton in Hx'. subst x.
          apply Es, Hseen, Hx. }
        split; [exact Hn|]. intros z. rewrite Hm, elem_of_app, list_elem_of_singleton. split.
        -- intros [[H| ->]|(raw & Hin & Hr)]; [auto| |].
           ++ right. exists raw_id. split; [apply list_elem_of_here|exact Eint].
           ++ right. exists raw. split; [apply list_elem_of_further, Hin|exact Hr].
        -- intros [H|(raw & Hin & Hr)]; [auto|].
           apply elem_of_cons in Hin as [->|Hin].
           ++ left. right. congruence.
           ++ right. exists raw. auto.
    + destruct (IH unique_ids seen Hseen Hnd) as [Hn Hm]. split; [exact Hn|].
      intros z. rewrite Hm. split.
      * intros [H|(raw & Hin & Hr)]; [auto|]. right. exists raw.
        split; [apply list_elem_of_further, Hin|exact Hr].
      * intros [H|(raw & Hin & Hr)]; [auto|].
        apply elem_of_cons in Hin as [->|Hin]; [congruence|].
        right. exists raw. auto.
Qed.

(** Two lists sorted by the same key, with the same elements, no two of
    which share a key, are the same list. *)
Lemma sorted_perm_unique {A : Type} (key : A -> Q) (l1 : list A) :
  ∀ l2 : list A,
    StronglySorted (key_le key) l1 -> StronglySorted (key_le key) l2 -> l1 ≡ₚ l2 ->
    (∀ x y, x ∈ l1 -> y ∈ l1 -> (key x == key y)%Q -> x = y) ->
    l1 = l2.
Proof.
  induction l1 as [|x l1 IH]; intros l2 Hs1 Hs2 Hp Hinj.
  - apply Permutation_nil_l in Hp. congruence.
  - destruct l2 as [|y l2]; [apply Permutation_nil_r in Hp; discriminate|].
    apply StronglySorted_inv in Hs1 as [Hs1 Hx].
    apply StronglySorted_inv in Hs2 as [Hs2 Hy].
    assert (x = y) as <-.
    { assert (x ∈ y :: l2) as Hxin by (rewrite <- Hp; apply list_elem_of_here).
      assert (y ∈ x :: l1) as Hyin by (rewrite Hp; apply list_elem_of_here).
      apply elem_of_cons in Hxin as [E|Hxin]; [exact E|].
      apply elem_of_cons in Hyin as [E|Hyin]; [congruence|].
      rewrite Forall_forall in Hx, Hy.
      apply Hinj; [apply list_elem_of_here|apply list_elem_of_further, Hyin|].
      apply Qle_antisym; [apply (Hx y Hyin)|apply (Hy x Hxin)]. }
    f_equal. apply IH; [exact Hs1|exact Hs2|exact (Permutation_cons_inv Hp)|].
    intros a b Ha Hb. apply Hinj; apply list_elem_of_further; assumption.
Qed.

Lemma index_of_app (iid : Z) (before after : list Z) :
  iid ∉ before ->
  HackerNews.index_of iid (before ++ iid :: after) = Some (Z.of_nat (length before)).
Proof.
  induction before as [|first before IH]; intros Hni; simpl.
  - rewrite bool_decide_eq_true_2 by reflexivity. reflexivity.
  - rewrite bool_decide_eq_false_2 by (intros ->; apply Hni, list_elem_of_here).
    rewrite IH by (intros H; apply Hni, list_elem_of_further, H). simpl. f_equal. lia.
Qed.

Lemma gather_run (fetch_item : Z -> option json) (web_item : json -> string) (completed : list Z) :
  ∀ stories,
    (∀ iid, iid ∈ completed -> HackerNews.well_formed fetch_item iid) ->
    HackerNews.gather fetch_item web_item completed stories
    = Ok (stories ++ omap (HackerNews.story_of fetch_item web_item) completed).
Proof.
  induction completed as [|iid rest IH]; intros stories Hwf.
  - simpl. rewrite app_nil_r. reflexivity.
  - assert (∀ i, i ∈ rest -> HackerNews.well_formed fetch_item i) as Hrest
      by (intros i Hi; apply Hwf, list_elem_of_further, Hi).
    pose proof (Hwf iid (list_elem_of_here _ _)) as Hi.
    unfold HackerNews.well_formed in Hi.
    cbn [HackerNews.gather omap list_omap]. unfold HackerNews.story_of at 1.
    destruct (fetch_item iid) as [item|]; [|apply IH, Hrest].
    destruct item as [|b|n|q|s|items|members]; try contradiction.
    + simpl. apply IH, Hrest.
    + destruct (truthy (JObj members)) eqn:Et.
      * destruct (HackerNews._normalize_story web_item (JObj members)) as [[story|]|e|] eqn:En.
        -- rewrite IH by exact Hrest. rewrite <- app_assoc. reflexivity.
        -- apply IH, Hrest.
        -- exfalso. revert En. unfold HackerNews._normalize_story. rewrite Et. simpl.
           destruct (dict_get "type" members) as [[| | | |kind| |]|]; try discriminate.
           destruct (bool_decide _); discriminate.
        -- exfalso. revert En. unfold HackerNews._normalize_story. rewrite Et. simpl.
           destruct (dict_get "type" members) as [[| | | |kind| |]|]; try discriminate.
           destruct (bool_decide _); discriminate.
      * unfold HackerNews._normalize_story. rewrite Et. simpl. apply IH, Hrest.
Qed.

Lemma story_of_id (fetch_item : Z -> option json) (web_item : json -> string) (iid : Z) (story : HackerNews.story_dict) :
  HackerNews.well_formed fetch_item iid -> (HackerNews.story_of fetch_item web_item) iid = Some story -> HackerNews.get "id" story = JInt iid.
Proof.
  unfold HackerNews.well_formed, HackerNews.story_of.
  destruct (fetch_item iid) as [item|]; [|discriminate].
  destruct item as [|b|n|q|s|items|members]; try contradiction; [discriminate|].
  intros Hid. unfold HackerNews._normalize_story.
  destruct (negb (truthy (JObj members))) eqn:Et; [discriminate|].
  destruct Hid as [->|Hid]; [discriminate Et|].
  destruct (dict_get "type" members) as [[| | | |kind| |]|]; try discriminate.
  destruct (bool_decide _); [|discriminate].
  intros [= <-]. unfold HackerNews.get at 1. cbn [dict_get].
  rewrite decide_True by reflexivity. cbn [default from_option].
  unfold HackerNews.get. rewrite Hid. reflexivity.
Qed.

Lemma keyed_run (fetch_item : Z -> option json) (web_item : json -> string) (unique_ids l : list Z) :
  (∀ iid, iid ∈ l -> HackerNews.well_formed fetch_item iid) ->
  HackerNews.keyed unique_ids (omap (HackerNews.story_of fetch_item web_item) l)
  = Ok (omap (HackerNews.decorated_of fetch_item web_item unique_ids) l).
Proof.
  induction l as [|iid rest IH]; intros Hwf; [reflexivity|].
  assert (∀ i, i ∈ rest -> HackerNews.well_formed fetch_item i) as Hrest
    by (intros i Hi; apply Hwf, list_elem_of_further, Hi).
  cbn [omap list_omap]. unfold HackerNews.decorated_of at 1. 
  destruct ((HackerNews.story_of fetch_item web_item) iid) as [story|] eqn:Es; [|apply IH, Hrest].
  cbn [HackerNews.keyed]. unfold HackerNews.sort_key.
  rewrite (story_of_id fetch_item web_item iid story (Hwf iid (list_elem_of_here _ _)) Es).
  rewrite (IH Hrest). reflexivity.
Qed.

Lemma decorated_sorted (fetch_item : Z -> option json) (web_item : json -> string) (unique_ids : list Z) :
  NoDup unique_ids ->
  ∀ before after, unique_ids = before ++ after ->
    StronglySorted (key_le (λ entry : Z * HackerNews.story_dict, inject_Z entry.1))
                   (omap (HackerNews.decorated_of fetch_item web_item unique_ids) after)
    ∧ Forall (λ entry : Z * HackerNews.story_dict, Z.of_nat (length before) <= entry.1)
             (omap (HackerNews.decorated_of fetch_item web_item unique_ids) after).
Proof.
  intros Hnd before after. revert before.
  induction after as [|iid after IH]; intros before Hsplit.
  - split; constructor.
  - destruct (IH (before ++ [iid])) as [Hs Hf]; [rewrite <- app_assoc; exact Hsplit|].
    assert (Forall (λ entry : Z * HackerNews.story_dict, Z.of_nat (length before) <= entry.1)
              (omap (HackerNews.decorated_of fetch_item web_item unique_ids) after)) as Hf'.
    { eapply Forall_impl; [exact Hf|]. intros entry He.
      rewrite length_app in He. cbn [length] in He. lia. }
    cbn [omap list_omap].
    destruct (HackerNews.decorated_of fetch_item web_item unique_ids iid) as [first|] eqn:Ed;
      [|split; assumption].
    assert (first.1 = Z.of_nat (length before)) as Hfirst.
    { unfold HackerNews.decorated_of in Ed.
      destruct (HackerNews.story_of fetch_item web_item iid) as [story|]; [|discriminate].
      injection Ed as <-. cbn [fst]. rewrite Hsplit, index_of_app; [reflexivity|].
      rewrite Hsplit in Hnd. apply NoDup_app in Hnd as (_ & Hd & _).
      intros Hin. apply (Hd iid Hin), list_elem_of_here. }
    split.
    + constructor; [exact Hs|]. eapply Forall_impl; [exact Hf|].
      intros entry He. unfold key_le. rewrite <- Zle_Qle, Hfirst.
      rewrite length_app in He. cbn [length] in He. lia.
    + constructor; [lia|exact Hf'].
Qed.

Lemma index_of_inj (unique_ids : list Z) (a b : Z) (i : Z) :
  HackerNews.index_of a unique_ids = Some i -> HackerNews.index_of b unique_ids = Some i ->
  a = b.
Proof.
  revert i. induction unique_ids as [|first rest IH]; intros i; simpl; [discriminate|].
  assert (∀ x j, HackerNews.index_of x rest = Some j -> 0 <= j) as Hpos.
  { clear. induction rest as [|y rest IH]; intros x j; simpl; [discriminate|].
    destruct (bool_decide (y = x)); [intros [= <-]; lia|].
    destruct (HackerNews.index_of x rest) as [k|] eqn:E; [|discriminate].
    intros [= <-]. specialize (IH x k E). lia. }
  destruct (bool_decide (first = a)) eqn:Ea, (bool_decide (first = b)) eqn:Eb.
  - apply bool_decide_eq_true in Ea, Eb. congruence.
  - intros [= <-]. destruct (HackerNews.index_of b rest) as [k|] eqn:E; [|discriminate].
    intros [= Hk]. specialize (Hpos b k E). lia.
  - destruct (HackerNews.index_of a rest) as [k|] eqn:E; [|discriminate].
    intros [= <-] [= Hk]. specialize (Hpos a k E). lia.
  - destruct (HackerNews.index_of a rest) as [k|] eqn:E; [|discriminate].
    destruct (HackerNews.index_of b rest) as [k'|] eqn:E'; [|discriminate].
    intros [= <-] [= Hk]. apply (IH k); [reflexivity|]. f_equal. lia.
Qed.

Lemma index_of_member (unique_ids : list Z) (iid : Z) :
  iid ∈ unique_ids -> is_Some (HackerNews.index_of iid unique_ids).
Proof.
  induction unique_ids as [|first rest IH]; intros Hin; [inversion Hin|]. simpl.
  destruct (bool_decide (first = iid)) eqn:E; [eexists; reflexivity|].
  apply bool_decide_eq_false in E.
  apply elem_of_cons in Hin as [->|Hin]; [congruence|].
  destruct (IH Hin) as [k ->]. eexists. reflexivity.
Qed.

Lemma decorated_keys_differ (fetch_item : Z -> option json) (web_item : json -> string) (unique_ids : list Z) (x y : Z * HackerNews.story_dict) :
  x ∈ omap (HackerNews.decorated_of fetch_item web_item unique_ids) unique_ids ->
  y ∈ omap (HackerNews.decorated_of fetch_item web_item unique_ids) unique_ids ->
  (inject_Z x.1 == inject_Z y.1)%Q -> x = y.
Proof.
  intros Hx Hy Hk.
  assert (x.1 = y.1) as Hk' by (revert Hk; unfold Qeq; simpl; lia). clear Hk.
  rename Hk' into Hk.
  apply list_elem_of_omap in Hx as (a & Ha & Hda).
  apply list_elem_of_omap in Hy as (b & Hb & Hdb).
  unfold HackerNews.decorated_of in Hda, Hdb.
  destruct (HackerNews.story_of fetch_item web_item a) as [sa|] eqn:Ea; [|discriminate].
  destruct (HackerNews.story_of fetch_item web_item b) as [sb|] eqn:Eb; [|discriminate].
  injection Hda as <-. injection Hdb as <-. cbn [fst] in Hk.
  destruct (index_of_member unique_ids a Ha) as [i Hi].
  destruct (index_of_member unique_ids b Hb) as [j Hj].
  rewrite Hi, Hj in Hk. cbv [default from_option id] in Hk. subst j.
  assert (a = b) as -> by exact (index_of_inj unique_ids a b i Hi Hj).
  rewrite Hi. congruence.
Qed.

Lemma decorated_stories (fetch_item : Z -> option json) (web_item : json -> string) (unique_ids l : list Z) :
  (omap (HackerNews.decorated_of fetch_item web_item unique_ids) l).*2 = omap (HackerNews.story_of fetch_item web_item) l.
Proof.
  induction l as [|iid rest IH]; [reflexivity|].
  cbn [omap list_omap]. unfold HackerNews.decorated_of at 1. 
  destruct ((HackerNews.story_of fetch_item web_item) iid); [cbn [fmap list_fmap snd]; f_equal|]; exact IH.
Qed.

Lemma gather_raises (fetch_item : Z -> option json) (web_item : json -> string) (completed : list Z) :
  ∀ stories,
    (∃ iid item, iid ∈ completed ∧ fetch_item iid = Some item ∧ truthy item = true
                 ∧ ∀ members, item ≠ JObj members) ->
    HackerNews.gather fetch_item web_item completed stories = Raise AttributeError.
Proof.
  induction completed as [|iid rest IH]; intros stories (bad & item & Hin & Hf & Ht & Hno);
    [inversion Hin|].
  cbn [HackerNews.gather].
  assert (∀ acc, bad ∈ rest ->
            HackerNews.gather fetch_item web_item rest acc = Raise AttributeError) as Hlater.
  { intros acc Hr. apply IH. exists bad, item. auto. }
  destruct (decide (iid = bad)) as [->|Hne].
  - rewrite Hf, Ht. unfold HackerNews._normalize_story. rewrite Ht. simpl.
    destruct item; try reflexivity. exfalso. exact (Hno _ eq_refl).
  - apply elem_of_cons in Hin as [->|Hin]; [congruence|].
    destruct (fetch_item iid) as [other|]; [|apply Hlater, Hin].
    destruct (truthy other) eqn:Eo; [|apply Hlater, Hin].
    unfold HackerNews._normalize_story. rewrite Eo. simpl.
    destruct other; try reflexivity; try apply (Hlater _ Hin).
    destruct (dict_get "type" members) as [[| | | |kind| |]|]; try apply (Hlater _ Hin).
    destruct (bool_decide _); apply (Hlater _ Hin).
Qed.


Lemma unique_ints_nodup (ids : list py_arg) :
  NoDup (HackerNews.unique_ints ids [] ∅)
  ∧ ∀ iid, iid ∈ HackerNews.unique_ints ids [] ∅
           <-> ∃ raw_id, raw_id ∈ ids ∧ _int_or_none raw_id = Some iid.
Proof.
  destruct (unique_ints_spec ids [] ∅) as [Hnd Hmem];
    [intros z; rewrite elem_of_empty, elem_of_nil; tauto|constructor|].
  split; [exact Hnd|]. intros iid. rewrite Hmem, elem_of_nil. tauto.
Qed.

Lemma get_story_details_run (fetch_item : Z -> option json) (web_item : json -> string)
    (ids : list py_arg) (completed : list Z) :
  completed ≡ₚ HackerNews.unique_ints ids [] ∅ ->
  (∀ iid, iid ∈ HackerNews.unique_ints ids [] ∅ -> HackerNews.well_formed fetch_item iid) ->
  HackerNews.get_story_details fetch_item web_item ids completed
  = Ok (omap (HackerNews.story_of fetch_item web_item) (HackerNews.unique_ints ids [] ∅)).
Proof.
  intros Hperm Hwf. destruct (unique_ints_nodup ids) as [Hnd _].
  unfold HackerNews.get_story_details.
  destruct (HackerNews.unique_ints ids [] ∅) as [|first rest] eqn:Eu; [reflexivity|].
  rewrite gather_run by (intros iid Hin; apply Hwf; rewrite <- Hperm; exact Hin).
  cbn [app]. rewrite keyed_run by (intros iid Hin; apply Hwf; rewrite <- Hperm; exact Hin).
  f_equal. rewrite <- (decorated_stories fetch_item web_item (first :: rest) (first :: rest)).
  f_equal. symmetry.
  apply (sorted_perm_unique (λ entry : Z * HackerNews.story_dict, inject_Z entry.1)).
  - apply (decorated_sorted fetch_item web_item (first :: rest) Hnd [] (first :: rest)).
    reflexivity.
  - apply py_sort_sorted.
  - rewrite py_sort_perm, Hperm. reflexivity.
  - intros x y. apply decorated_keys_differ.
Qed.

(** X20.  [get_story_details] asks Firebase for each id once: the ids it
    fetches are the ints among the ids it is given, without repetition.
    When Firebase answers every fetch with the item that was asked for (or
    with nothing), the result is the normalized stories among them in the
    order of the request, in whatever order the pool finishes the fetches;
    items that are no stories and failed fetches are left out.  When one of
    the answers is a JSON value other than an object or a falsy one, the call
    raises [AttributeError], again in whatever order the fetches finish. *)
Theorem story_details_ignore_completion_order
    (fetch_item : Z -> option json) (web_item : json -> string)
    (ids : list py_arg) (completed : list Z) :
  completed ≡ₚ HackerNews.unique_ints ids [] ∅ ->
  let unique_ids := HackerNews.unique_ints ids [] ∅ in
  NoDup unique_ids
  ∧ (∀ iid, iid ∈ unique_ids <-> ∃ raw_id, raw_id ∈ ids ∧ _int_or_none raw_id = Some iid)
  ∧ ((∀ iid, iid ∈ unique_ids -> HackerNews.well_formed fetch_item iid) ->
     HackerNews.get_story_details fetch_item web_item ids completed
     = Ok (omap (HackerNews.story_of fetch_item web_item) unique_ids))
  ∧ ((∃ iid item, iid ∈ unique_ids ∧ fetch_item iid = Some item ∧ truthy item = true
                  ∧ ∀ members, item ≠ JObj members) ->
     HackerNews.get_story_details fetch_item web_item ids completed = Raise AttributeError).
Proof.
  intros Hperm unique_ids. destruct (unique_ints_nodup ids) as [Hnd Hmem].
  split; [exact Hnd|]. split; [exact Hmem|]. split.
  - intros Hwf. apply get_story_details_run; assumption.
  - intros (bad & item & Hin & Hbad). unfold HackerNews.get_story_details.
    subst unique_ids.
    destruct (HackerNews.unique_ints ids [] ∅) as [|first rest] eqn:Eu; [inversion Hin|].
    rewrite (gather_raises fetch_item web_item completed []); [reflexivity|].
    exists bad, item. rewrite Hperm. auto.
Qed.

Lemma story_details_ignore_completion_order_witness :
  let ids := [PyInt 42; PyStr "7"; PyInt 8; PyInt 42; PyNone] in
  HackerNews.get_story_details HackerNews.sample_items HackerNews.sample_web_item
                               ids [8; 7; 42]
  = Ok (omap (HackerNews.story_of HackerNews.sample_items HackerNews.sample_web_item)
             [42; 7; 8]).
Proof.
  intros ids.
  destruct (story_details_ignore_completion_order
              HackerNews.sample_items HackerNews.sample_web_item ids [8; 7; 42])
    as (_ & _ & H & _).
  - apply (bool_decide_unpack _). vm_compute. exact I.
  - apply H. intros iid Hin. vm_compute in Hin.
    repeat (apply elem_of_cons in Hin as [->|Hin]; [vm_compute; auto|]).
    inversion Hin.
Defined.

(* ===================================================================== *)
(** * The reader *)
(* ===================================================================== *)

Lemma text_or_nonempty (value : json) (otherwise text : string) :
  otherwise ≠ "" -> Reader.as_text (Reader.py_or value (JStr otherwise)) = Ok text ->
  text ≠ "".
Proof.
  intros Ho. unfold Reader.py_or. destruct (truthy value) eqn:Et.
  - destruct value; try discriminate. intros [= <-]. simpl in Et.
    intros ->. discriminate Et.
  - intros [= <-]. exact Ho.
Qed.

Lemma truthy_text (value : json) (otherwise text : string) :
  truthy value = true -> Reader.as_text (Reader.py_or value (JStr otherwise)) = Ok text ->
  value = JStr text.
Proof.
  intros Et. unfold Reader.py_or. rewrite Et.
  destruct value; try discriminate. intros [= <-]. reflexivity.
Qed.

(** X21.  An article that [_build_article] builds can be shown: its title,
    its url and its discussion url are never empty, it has no top comments,
    its highlights are its summary when it has one, and each of its at most
    two references links to its url or to its discussion url.  Its id is
    the text of the payload's id, which the tick reads back as the same int;
    a payload without an id gives the id [None], which the tick takes for
    no story.  The only exception [_build_article] raises is the
    [AttributeError] of a summary that is not text. *)
Theorem built_article_is_presentable (payload : list (string * json)) :
  (∀ e, Reader._build_article payload = Raise e -> e = AttributeError)
  ∧ ∀ a, Reader._build_article payload = Ok a ->
      a.(title) ≠ "" ∧ a.(url) ≠ "" ∧ a.(discussion_url) ≠ ""
      ∧ a.(top_comments) = []
      ∧ a.(highlights) = (if bool_decide (a.(summary) = "") then [] else [a.(summary)])
      ∧ (length a.(references) <= 2)%nat
      ∧ (∀ label link, (label, link) ∈ a.(references) ->
           link ≠ "" ∧ (label = "Original story" ∧ link = a.(url)
                        ∨ label = "Hacker News discussion" ∧ link = a.(discussion_url)))
      ∧ (∀ n, dict_get "id" payload = Some (JInt n) ->
           _int_or_none (PyStr a.(article_id)) = Some n)
      ∧ (dict_get "id" payload = None ->
           a.(article_id) = "None"
           ∧ ∀ staged_map w, stage_each [a] staged_map w = (Ok staged_map, w)).
Proof.
  unfold Reader._build_article. split.
  - intros e. destruct (Reader.summary_of payload) as [text|e'|] eqn:Es; try discriminate.
    + repeat (match goal with
              | |- context [match ?x with _ => _ end] => destruct x; try discriminate
              end).
    + intros [= <-]. revert Es. unfold Reader.summary_of.
      destruct (Reader.py_or _ _); try congruence.
      unfold Reader.py_strip. destruct (_ && _); discriminate.
  - intros a. destruct (Reader.summary_of payload) as [text|e'|]; try discriminate.
    destruct (Reader.str_of (HackerNews.get "id" payload)) as [id| |] eqn:Eid; try discriminate.
    destruct (Reader.as_text (Reader.py_or (HackerNews.get "title" payload) (JStr "Untitled")))
      as [title_text| |] eqn:Etitle; try discriminate.
    set (url_value := Reader.py_or (HackerNews.get "url" payload)
                                   (HackerNews.get "hn_url" payload)) in *.
    set (discussion_value := Reader.py_or (HackerNews.get "hn_url" payload)
                                          (Reader.py_or url_value (JStr ""))) in *.
    destruct (Reader.as_text (Reader.py_or url_value (JStr "https://news.ycombinator.com/")))
      as [url_text| |] eqn:Eurl; try discriminate.
    destruct (Reader.as_text
                (Reader.py_or discussion_value (JStr "https://news.ycombinator.com/")))
      as [discussion_text| |] eqn:Edisc; try discriminate.
    destruct (match HackerNews.get "image" payload with
              | JNull => Ok None | JStr image => Ok (Some image) | _ => Unmodelled end)
      as [image| |]; try discriminate.
    intros [= <-]. cbn [title url discussion_url top_comments highlights summary references
                         article_id].
    assert (url_text ≠ "") as Hu by (eapply text_or_nonempty; [|exact Eurl]; discriminate).
    assert (discussion_text ≠ "") as Hd
      by (eapply text_or_nonempty; [|exact Edisc]; discriminate).
    split; [eapply text_or_nonempty; [|exact Etitle]; discriminate|].
    split; [exact Hu|]. split; [exact Hd|]. split; [reflexivity|]. split; [reflexivity|].
    split; [destruct (truthy url_value), (truthy discussion_value); simpl; lia|].
    split.
    { intros label link Hin. apply elem_of_app in Hin as [Hin|Hin].
      - destruct (truthy url_value); [|inversion Hin].
        apply list_elem_of_singleton in Hin. injection Hin as -> ->. auto.
      - destruct (truthy discussion_value); [|inversion Hin].
        apply list_elem_of_singleton in Hin. injection Hin as -> ->. auto. }
    split.
    { intros n Hn. revert Eid. unfold HackerNews.get. rewrite Hn. simpl.
      intros [= <-]. apply int_of_text_pretty. }
    intros Hn. revert Eid. unfold HackerNews.get. rewrite Hn. simpl. intros [= <-].
    split; reflexivity.
Qed.

Lemma built_article_is_presentable_witness :
  ∃ a, Reader._build_article Reader.sample_payload = Ok a
       ∧ a.(title) ≠ "" ∧ a.(url) ≠ "" ∧ a.(discussion_url) ≠ ""
       ∧ a.(top_comments) = []
       ∧ a.(highlights) = (if bool_decide (a.(summary) = "") then [] else [a.(summary)])
       ∧ (length a.(references) <= 2)%nat
       ∧ (∀ label link, (label, link) ∈ a.(references) ->
            link ≠ "" ∧ (label = "Original story" ∧ link = a.(url)
                         ∨ label = "Hacker News discussion" ∧ link = a.(discussion_url)))
       ∧ (∀ n, dict_get "id" Reader.sample_payload = Some (JInt n) ->
            _int_or_none (PyStr a.(article_id)) = Some n)
       ∧ (dict_get "id" Reader.sample_payload = None ->
            a.(article_id) = "None"
            ∧ ∀ staged_map w, stage_each [a] staged_map w = (Ok staged_map, w)).
Proof.
  eexists. split; [vm_compute; reflexivity|].
  apply (proj2 (built_article_is_presentable Reader.sample_payload)).
  vm_compute. reflexivity.
Defined.

Lemma refresh_run (upstream : Z -> reply (list (list (string * json))))
    (limit : Z) (at_time : Q) (m : Reader.Modules) :
  let r := Reader._refresh_articles upstream limit at_time m in
  Reader.fetches r.2 = S (Reader.fetches m)
  ∧ Reader.handlers_ARTICLE_BY_ID r.2 = Reader.handlers_ARTICLE_BY_ID m
  ∧ (r.1 ≠ Ok () ->
       Reader.objects r.2 = Reader.objects m
       ∧ Reader.reader_ARTICLE_BY_ID r.2 = Reader.reader_ARTICLE_BY_ID m
       ∧ Reader.ARTICLE_CACHE r.2 = Reader.ARTICLE_CACHE m
       ∧ Reader.ARTICLE_CACHE_TS r.2 = Reader.ARTICLE_CACHE_TS m)
  ∧ (r.1 = Ok () ->
       ∃ payloads,
         upstream limit = Returned payloads
         ∧ Reader.build_all payloads = Ok (Reader.ARTICLE_CACHE r.2)
         ∧ Reader.ARTICLE_CACHE r.2 ≠ []
         ∧ Reader.ARTICLE_CACHE_TS r.2 = at_time
         ∧ Reader.reader_ARTICLE_BY_ID r.2 = length (Reader.objects m)
         ∧ Reader.objects r.2
           = Reader.objects m
             ++ [foldl (λ d a, dict_set a.(article_id) a d) [] (Reader.ARTICLE_CACHE r.2)]).
Proof.
  unfold Reader._refresh_articles. cbv zeta.
  assert (∀ (o : outcome unit),
            o ≠ Ok () ->
            let asked := Reader.mkModules (Reader.objects m) (Reader.reader_ARTICLE_BY_ID m)
                           (Reader.handlers_ARTICLE_BY_ID m) (Reader.ARTICLE_CACHE m)
                           (Reader.ARTICLE_CACHE_TS m) (S (Reader.fetches m)) in
            Reader.fetches (o, asked).2 = S (Reader.fetches m)
            ∧ Reader.handlers_ARTICLE_BY_ID (o, asked).2 = Reader.handlers_ARTICLE_BY_ID m
            ∧ ((o, asked).1 ≠ Ok () ->
                 Reader.objects (o, asked).2 = Reader.objects m
                 ∧ Reader.reader_ARTICLE_BY_ID (o, asked).2 = Reader.reader_ARTICLE_BY_ID m
                 ∧ Reader.ARTICLE_CACHE (o, asked).2 = Reader.ARTICLE_CACHE m
                 ∧ Reader.ARTICLE_CACHE_TS (o, asked).2 = Reader.ARTICLE_CACHE_TS m)
            ∧ ((o, asked).1 = Ok () ->
                 ∃ payloads,
                   upstream limit = Returned payloads
                   ∧ Reader.build_all payloads = Ok (Reader.ARTICLE_CACHE (o, asked).2)
                   ∧ Reader.ARTICLE_CACHE (o, asked).2 ≠ []
                   ∧ Reader.ARTICLE_CACHE_TS (o, asked).2 = at_time
                   ∧ Reader.reader_ARTICLE_BY_ID (o, asked).2 = length (Reader.objects m)
                   ∧ Reader.objects (o, asked).2
                     = Reader.objects m
                       ++ [foldl (λ d a, dict_set a.(article_id) a d) []
                                 (Reader.ARTICLE_CACHE (o, asked).2)])) as Hfailed.
  { intros o Ho asked. cbn [fst snd]. subst asked. cbn.
    split; [reflexivity|]. split; [reflexivity|]. split; [intros _; auto|].
    intros H. contradiction. }
  destruct (upstream limit) as [payloads|e]; [|apply Hfailed; discriminate].
  destruct (Reader.build_all payloads) as [[|a articles]|e|] eqn:Eb;
    try (apply Hfailed; discriminate).
  cbn. split; [reflexivity|]. split; [reflexivity|].
  split; [intros H; exfalso; apply H; reflexivity|].
  intros _. exists payloads. split; [reflexivity|]. split; [exact Eb|].
  split; [discriminate|]. auto.
Qed.

(** X22.  [get_articles] returns at most [count] articles and asks upstream
    at most once.  For a [count] of zero or less it returns the empty list
    and touches nothing.  While the cache is not empty, younger than 180
    seconds and at least [count] long, it serves the cache without asking.
    When upstream fails with a [RuntimeError], an [ExaError] included, a
    cache that is not empty is served however old or short it is, and with an
    empty cache the error is raised; whenever the call raises, the cache and
    the indexes are as before. *)
Theorem cache_is_served_while_fresh_and_when_upstream_fails
    (upstream : Z -> reply (list (list (string * json))))
    (count : Z) (now at_time : Q) (m : Reader.Modules) :
  let r := Reader.get_articles upstream count now at_time m in
  let fresh := Reader.ARTICLE_CACHE m ≠ []
               ∧ (now - Reader.ARTICLE_CACHE_TS m < 180)%Q
               ∧ count <= Z.of_nat (length (Reader.ARTICLE_CACHE m)) in
  (∀ articles, r.1 = Ok articles -> Z.of_nat (length articles) <= Z.max 0 count)
  ∧ (Reader.fetches r.2 <= S (Reader.fetches m))%nat
  ∧ (count <= 0 -> r = (Ok [], m))
  ∧ (0 < count -> fresh ->
       r = (Ok (take (Z.to_nat count) (Reader.ARTICLE_CACHE m)), m))
  ∧ (0 < count -> ¬ fresh -> upstream count = Failed RuntimeError ->
       Reader.fetches r.2 = S (Reader.fetches m)
       ∧ r.1 = match Reader.ARTICLE_CACHE m with
               | [] => Raise RuntimeError
               | cached => Ok (take (Z.to_nat count) cached)
               end)
  ∧ (∀ e, r.1 = Raise e ->
       Reader.objects r.2 = Reader.objects m
       ∧ Reader.reader_ARTICLE_BY_ID r.2 = Reader.reader_ARTICLE_BY_ID m
       ∧ Reader.ARTICLE_CACHE r.2 = Reader.ARTICLE_CACHE m).
Proof.
  intros r fresh. subst r. unfold Reader.get_articles.
  destruct (count <=? 0) eqn:Ec.
  { apply Z.leb_le in Ec. cbn [fst snd].
    split; [intros l [= <-]; simpl; lia|]. split; [lia|]. split; [reflexivity|].
    split; [lia|]. split; [lia|]. intros e H. discriminate H. }
  apply Z.leb_gt in Ec. unfold Reader._ensure_articles.
  destruct (negb (bool_decide (Reader.ARTICLE_CACHE m = []))
            && Qlt_bool (now - Reader.ARTICLE_CACHE_TS m) Reader.ARTICLE_CACHE_TTL
            && (count <=? Z.of_nat (length (Reader.ARTICLE_CACHE m)))) eqn:Efresh.
  - (* served from the cache *)
    cbn [fst snd].
    split; [intros l [= <-]; rewrite length_take; lia|]. split; [lia|]. split; [lia|].
    split; [reflexivity|]. split; [|intros e H; discriminate H].
    intros _ Hstale. exfalso. apply Hstale.
    apply andb_true_iff in Efresh as [Efresh Hlen].
    apply andb_true_iff in Efresh as [Hne Hage].
    apply negb_true_iff, bool_decide_eq_false in Hne. apply Z.leb_le in Hlen.
    unfold Qlt_bool in Hage. apply negb_true_iff in Hage.
    split; [exact Hne|]. split; [|exact Hlen].
    apply Qnot_le_lt. intros Hle. apply Qle_bool_iff in Hle.
    unfold Reader.ARTICLE_CACHE_TTL in Hage. congruence.
  - (* a refresh is tried *)
    assert (¬ fresh) as Hstale.
    { intros (Hne & Hage & Hlen). apply andb_false_iff in Efresh as [Efresh|Hl].
      - apply andb_false_iff in Efresh as [Hn|Ha].
        + apply negb_false_iff, bool_decide_eq_true in Hn. contradiction.
        + unfold Qlt_bool in Ha. apply negb_false_iff, Qle_bool_iff in Ha.
          unfold Reader.ARTICLE_CACHE_TTL in Ha. apply (Qlt_not_le _ _ Hage Ha).
      - apply Z.leb_gt in Hl. lia. }
    destruct (refresh_run upstream count at_time m) as (Hfetch & _ & Hfail & Hok).
    cbv zeta in Hfetch, Hfail, Hok.
    destruct (Reader._refresh_articles upstream count at_time m) as [[[]|e|] m'] eqn:Er;
      cbn [fst snd] in *.
    + split; [intros l [= <-]; rewrite length_take; lia|]. split; [lia|]. split; [lia|].
      split; [intros _ Hf; contradiction|]. split; [|intros e H; discriminate H].
      intros _ _ Hup. destruct (Hok eq_refl) as (payloads & Hp & _). congruence.
    + destruct (Hfail ltac:(discriminate)) as (Hobj & Hname & Hcache & _).
      assert (upstream count = Failed RuntimeError -> e = RuntimeError) as Hexn.
      { intros Hup. revert Er. unfold Reader._refresh_articles. rewrite Hup.
        intros [= <- _]. reflexivity. }
      destruct e; cbn [fst snd];
        try (split; [intros l H; discriminate H|]; split; [lia|]; split; [lia|];
             split; [intros _ Hf; contradiction|];
             split; [intros _ _ Hup; specialize (Hexn Hup); discriminate Hexn|];
             intros e' _; auto).
      rewrite Hcache. destruct (Reader.ARTICLE_CACHE m) as [|first rest] eqn:Ecache;
        cbn [fst snd].
      * split; [intros l H; discriminate H|]. split; [lia|]. split; [lia|].
        split; [intros _ Hf; contradiction|]. split; [intros _ _ _; auto|].
        intros e' _. auto.
      * split; [intros l [= <-]; rewrite length_take; lia|]. split; [lia|]. split; [lia|].
        split; [intros _ Hf; contradiction|]. split; [intros _ _ _; auto|].
        intros e' H. discriminate H.
    + split; [intros l H; discriminate H|]. split; [lia|]. split; [lia|].
      split; [intros _ Hf; contradiction|].
      split; [|intros e H; discriminate H].
      intros _ _ Hup. exfalso. revert Er. unfold Reader._refresh_articles. rewrite Hup.
      discriminate.
Qed.

Lemma cache_is_served_while_fresh_and_when_upstream_fails_witness :
  let m := Reader.mkModules [[]] 0 0 [art42] 0 0 in
  (Reader.get_articles (λ _, Failed RuntimeError) 3 1000 1000 m).1 = Ok [art42].
Proof.
  intros m.
  destruct (cache_is_served_while_fresh_and_when_upstream_fails
              (λ _, Failed RuntimeError) 3 1000 1000 m) as (_ & _ & _ & _ & H & _).
  destruct H as [_ H].
  - lia.
  - intros (_ & Hage & _). vm_compute in Hage. discriminate Hage.
  - reflexivity.
  - exact H.
Defined.

Lemma dict_get_set_eq {V : Type} (key : string) (v : V) (d : list (string * V)) :
  dict_get key (dict_set key v d) = Some v.
Proof.
  induction d as [|[k v0] d IH]; cbn.
  - rewrite decide_True by reflexivity. reflexivity.
  - destruct (decide (k = key)) as [->|Hne]; cbn.
    + rewrite decide_True by reflexivity. reflexivity.
    + rewrite decide_False by exact Hne. exact IH.
Qed.

Lemma dict_get_set_ne {V : Type} (key other : string) (v : V) (d : list (string * V)) :
  other ≠ key -> dict_get other (dict_set key v d) = dict_get other d.
Proof.
  intros Hne. induction d as [|[k v0] d IH]; cbn.
  - rewrite decide_False by congruence. reflexivity.
  - destruct (decide (k = key)) as [->|Hk]; cbn.
    + rewrite !decide_False by congruence. reflexivity.
    + destruct (decide (k = other)); [reflexivity|exact IH].
Qed.

Lemma store_in_frame (name : nat) (a : Article) (m : Reader.Modules) :
  Reader.reader_ARTICLE_BY_ID (Reader.store_in name a m) = Reader.reader_ARTICLE_BY_ID m
  ∧ Reader.handlers_ARTICLE_BY_ID (Reader.store_in name a m) = Reader.handlers_ARTICLE_BY_ID m
  ∧ length (Reader.objects (Reader.store_in name a m)) = length (Reader.objects m)
  ∧ ∀ other id, other ≠ name ->
      Reader.lookup_in other id (Reader.store_in name a m) = Reader.lookup_in other id m.
Proof.
  unfold Reader.store_in, Reader.lookup_in. cbn.
  split; [reflexivity|]. split; [reflexivity|]. split; [apply length_alter|].
  intros other id Hne. rewrite list_lookup_alter_ne by congruence. reflexivity.
Qed.

Lemma index_articles_cons (a : Article) (rest : list Article) (m : Reader.Modules) :
  Reader.index_articles (a :: rest) m
  = Reader.index_articles rest (Reader.store_in (Reader.reader_ARTICLE_BY_ID m) a m).
Proof. reflexivity. Qed.

Lemma index_articles_frame (articles : list Article) :
  ∀ m : Reader.Modules,
    Reader.reader_ARTICLE_BY_ID (Reader.index_articles articles m)
    = Reader.reader_ARTICLE_BY_ID m
    ∧ Reader.handlers_ARTICLE_BY_ID (Reader.index_articles articles m)
      = Reader.handlers_ARTICLE_BY_ID m
    ∧ ∀ other id, other ≠ Reader.reader_ARTICLE_BY_ID m ->
        Reader.lookup_in other id (Reader.index_articles articles m)
        = Reader.lookup_in other id m.
Proof.
  induction articles as [|a rest IH]; intros m; [auto|].
  rewrite index_articles_cons.
  destruct (store_in_frame (Reader.reader_ARTICLE_BY_ID m) a m) as (Hr & Hh & _ & Hl).
  destruct (IH (Reader.store_in (Reader.reader_ARTICLE_BY_ID m) a m)) as (Hr' & Hh' & Hl').
  split; [rewrite Hr'; exact Hr|]. split; [rewrite Hh'; exact Hh|].
  intros other id Hne. rewrite Hl' by (rewrite Hr; exact Hne). apply Hl, Hne.
Qed.

Lemma store_in_found (name : nat) (a : Article) (m : Reader.Modules) :
  (name < length (Reader.objects m))%nat ->
  Reader.lookup_in name a.(article_id) (Reader.store_in name a m) = Some a.
Proof.
  intros Hlt. unfold Reader.store_in, Reader.lookup_in. cbn.
  destruct (lookup_lt_is_Some_2 _ _ Hlt) as [d Hd].
  rewrite list_lookup_alter, Hd. cbn. rewrite decide_True by reflexivity.
  cbn. apply dict_get_set_eq.
Qed.

(** X23.  The reader and the handlers each have a name [ARTICLE_BY_ID], and
    the import binds both to one dict: an article the reader indexes is
    found by the buttons' lookup in [handle_callback_query].  A successful
    [_refresh_articles] binds the reader's name to a new dict and leaves the
    handlers' name with the old one.  From then on the two are different
    dicts: the refresh adds nothing to what the lookup finds, the articles
    it fetched are in the reader's dict only, and nothing the reader indexes
    later reaches the lookup.  What the handlers store themselves is found
    before and after. *)
Theorem refresh_parts_the_two_indexes
    (upstream : Z -> reply (list (list (string * json))))
    (limit : Z) (at_time : Q) (m : Reader.Modules) :
  (Reader.handlers_ARTICLE_BY_ID m < length (Reader.objects m))%nat ->
  let r := Reader._refresh_articles upstream limit at_time m in
  (Reader.reader_ARTICLE_BY_ID m = Reader.handlers_ARTICLE_BY_ID m ->
   ∀ a, Reader.handlers_lookup a.(article_id) (Reader.index_articles [a] m) = Some a)
  ∧ (∀ a, Reader.handlers_lookup a.(article_id) (Reader.handlers_store a m) = Some a)
  ∧ (r.1 = Ok () ->
     Reader.reader_ARTICLE_BY_ID r.2 ≠ Reader.handlers_ARTICLE_BY_ID r.2
     ∧ (∀ id, Reader.handlers_lookup id r.2 = Reader.handlers_lookup id m)
     ∧ (∀ a, a ∈ Reader.ARTICLE_CACHE r.2 ->
          is_Some (Reader.lookup_in (Reader.reader_ARTICLE_BY_ID r.2) a.(article_id) r.2))
     ∧ (∀ articles id,
          Reader.handlers_lookup id (Reader.index_articles articles r.2)
          = Reader.handlers_lookup id m)
     ∧ (∀ a, Reader.handlers_lookup a.(article_id) (Reader.handlers_store a r.2) = Some a)).
Proof.
  intros Hbound r. split; [|split].
  - intros Hsame a. unfold Reader.handlers_lookup, Reader.index_articles. cbn [foldl].
    destruct (store_in_frame (Reader.reader_ARTICLE_BY_ID m) a m) as (_ & -> & _).
    rewrite <- Hsame. apply store_in_found. rewrite Hsame. exact Hbound.
  - intros a. unfold Reader.handlers_lookup, Reader.handlers_store.
    destruct (store_in_frame (Reader.handlers_ARTICLE_BY_ID m) a m) as (_ & -> & _).
    apply store_in_found, Hbound.
  - intros Hok.
    destruct (refresh_run upstream limit at_time m) as (_ & Hh & _ & Hrun).
    fold r in Hh, Hrun. cbv zeta in Hrun.
    destruct (Hrun Hok) as (payloads & _ & _ & _ & _ & Hname & Hobj).
    assert (∀ id, Reader.handlers_lookup id r.2 = Reader.handlers_lookup id m) as Hold.
    { intros id. unfold Reader.handlers_lookup, Reader.lookup_in.
      rewrite Hh, Hobj, lookup_app_l by exact Hbound. reflexivity. }
    assert (Reader.reader_ARTICLE_BY_ID r.2 ≠ Reader.handlers_ARTICLE_BY_ID r.2) as Hne
      by (rewrite Hname, Hh; lia).
    split; [exact Hne|]. split; [exact Hold|]. split.
    { intros a Ha. unfold Reader.lookup_in.
      rewrite Hname, Hobj, lookup_app_r by lia. rewrite Nat.sub_diag. cbn.
      revert Ha. generalize (Reader.ARTICLE_CACHE r.2). intros l.
      assert (∀ d, (is_Some (dict_get (article_id a) d) ∨ a ∈ l) ->
                is_Some (dict_get (article_id a)
                           (foldl (λ d b, dict_set (article_id b) b d) d l))) as Hgen.
      { induction l as [|b l IH]; intros d [Hd|Hin]; cbn [foldl];
          [exact Hd|inversion Hin|apply IH; left|apply IH].
        - destruct (decide (article_id a = article_id b)) as [E|E].
          + rewrite E, dict_get_set_eq. eexists; reflexivity.
          + rewrite dict_get_set_ne by exact E. exact Hd.
        - apply elem_of_cons in Hin as [->|Hin]; [left|right; exact Hin].
          rewrite dict_get_set_eq. eexists; reflexivity. }
      intros Ha. apply Hgen. right. exact Ha. }
    split.
    { intros articles id. rewrite <- Hold. unfold Reader.handlers_lookup.
      destruct (index_articles_frame articles r.2) as (_ & -> & Hl).
      apply Hl. congruence. }
    intros a. unfold Reader.handlers_lookup, Reader.handlers_store.
    destruct (store_in_frame (Reader.handlers_ARTICLE_BY_ID r.2) a r.2) as (_ & -> & _).
    apply store_in_found. rewrite Hh, Hobj, length_app. lia.
Qed.

Lemma refresh_parts_the_two_indexes_witness :
  let upstream := λ _ : Z, Returned [Reader.sample_payload] in
  let r := Reader._refresh_articles upstream 3 1000 Reader.imported in
  r.1 = Ok ()
  ∧ Reader.reader_ARTICLE_BY_ID r.2 ≠ Reader.handlers_ARTICLE_BY_ID r.2
  ∧ (∀ id, Reader.handlers_lookup id r.2 = Reader.handlers_lookup id Reader.imported)
  ∧ (∀ a, a ∈ Reader.ARTICLE_CACHE r.2 ->
       is_Some (Reader.lookup_in (Reader.reader_ARTICLE_BY_ID r.2) a.(article_id) r.2))
  ∧ (∀ articles id,
       Reader.handlers_lookup id (Reader.index_articles articles r.2)
       = Reader.handlers_lookup id Reader.imported)
  ∧ (∀ a, Reader.handlers_lookup a.(article_id) (Reader.handlers_store a r.2) = Some a).
Proof.
  intros upstream r.
  assert (r.1 = Ok ()) as Hok by (vm_compute; reflexivity).
  split; [exact Hok|].
  apply (proj2 (proj2 (refresh_parts_the_two_indexes upstream 3 1000 Reader.imported
                         ltac:(simpl; lia)))).
  exact Hok.
Defined.

(* ===================================================================== *)
(** * From ids to articles *)
(* ===================================================================== *)

Lemma unique_ints_fixed (l : list Z) :
  ∀ (unique_ids : list Z) (seen : gset Z),
    (∀ z, z ∈ seen <-> z ∈ unique_ids) -> NoDup (unique_ids ++ l) ->
    HackerNews.unique_ints (PyInt <$> l) unique_ids seen = unique_ids ++ l.
Proof.
  induction l as [|iid l IH]; intros unique_ids seen Hseen Hnd.
  - simpl. rewrite app_nil_r. reflexivity.
  - cbn [fmap list_fmap HackerNews.unique_ints _int_or_none].
    rewrite bool_decide_eq_false_2.
    + rewrite IH.
      * rewrite <- app_assoc. reflexivity.
      * intros z. rewrite elem_of_union, elem_of_singleton, elem_of_app,
          list_elem_of_singleton, Hseen. tauto.
      * rewrite <- app_assoc. exact Hnd.
    + rewrite Hseen. apply NoDup_app in Hnd as (_ & Hd & _).
      intros Hin. apply (Hd iid Hin), list_elem_of_here.
Qed.

Lemma found_stories (fetch_item : Z -> option json) (web_item : json -> string)
    (unique_ids : list Z) :
  (∀ iid, iid ∈ unique_ids -> HackerNews.well_formed fetch_item iid) ->
  Forall2 (λ iid story, HackerNews.get "id" story = JInt iid)
          (HackerNews.found fetch_item web_item unique_ids)
          (omap (HackerNews.story_of fetch_item web_item) unique_ids).
Proof.
  induction unique_ids as [|iid rest IH]; intros Hwf; [constructor|].
  assert (∀ i, i ∈ rest -> HackerNews.well_formed fetch_item i) as Hrest
    by (intros i Hi; apply Hwf, list_elem_of_further, Hi).
  unfold HackerNews.found. rewrite filter_cons. cbn [omap list_omap].
  destruct (HackerNews.story_of fetch_item web_item iid) as [story|] eqn:Es.
  - rewrite decide_True by (eexists; reflexivity).
    constructor; [|exact (IH Hrest)].
    apply (story_of_id fetch_item web_item iid story); [|exact Es].
    apply Hwf, list_elem_of_here.
  - rewrite decide_False by (intros [x Hx]; discriminate). exact (IH Hrest).
Qed.

Lemma enrich_each_ids (exa_results : list (string * list (string * json)))
    (stories : list (list (string * json))) :
  ∀ enriched, Reader.enrich_each exa_results stories = Ok enriched ->
    Forall2 (λ story payload, HackerNews.get "id" payload = HackerNews.get "id" story)
            stories enriched.
Proof.
  induction stories as [|story rest IH]; intros enriched; cbn [Reader.enrich_each].
  - intros [= <-]. constructor.
  - destruct (Reader.exa_entry_of exa_results _) as [entry|e|]; try discriminate.
    destruct (Reader.enrich_each exa_results rest) as [l|e|]; try discriminate.
    intros [= <-]. constructor; [|apply IH; reflexivity].
    unfold Reader.enriched_payload, HackerNews.get at 1. cbn [dict_get].
    rewrite decide_True by reflexivity. reflexivity.
Qed.

Lemma enrich_run (exa : list json -> reply json) (stories : list (list (string * json))) :
  let r := Reader._enrich_story_payloads exa stories in
  (length r.2 <= 1)%nat
  ∧ (∀ urls, urls ∈ r.2 -> urls = Reader.story_urls stories ∧ urls ≠ [])
  ∧ ∀ enriched, r.1 = Ok enriched ->
      Forall2 (λ story payload, HackerNews.get "id" payload = HackerNews.get "id" story)
              stories enriched.
Proof.
  unfold Reader._enrich_story_payloads.
  destruct stories as [|story rest].
  { cbn. split; [lia|]. split; [intros urls H; inversion H|].
    intros enriched [= <-]. constructor. }
  destruct (Reader.story_urls (story :: rest)) as [|u urls] eqn:Eu; cbn [fst snd length].
  - split; [lia|]. split; [intros x H; inversion H|]. apply enrich_each_ids.
  - split; [lia|]. split.
    { intros x H. apply list_elem_of_singleton in H. subst x. split; [reflexivity|discriminate]. }
    intros enriched. destruct (exa (u :: urls)) as [payload|e]; [|discriminate].
    destruct (Reader.exa_items payload) as [items|e|]; try discriminate.
    destruct (Reader.exa_index items []) as [results|e|]; try discriminate.
    apply enrich_each_ids.
Qed.

Lemma build_all_each (payloads : list (list (string * json))) :
  ∀ articles, Reader.build_all payloads = Ok articles ->
    Forall2 (λ payload a, Reader._build_article payload = Ok a) payloads articles.
Proof.
  induction payloads as [|payload rest IH]; intros articles; cbn [Reader.build_all].
  - intros [= <-]. constructor.
  - destruct (Reader._build_article payload) as [a|e|] eqn:Ea; try discriminate.
    destruct (Reader.build_all rest) as [l|e|]; try discriminate.
    intros [= <-]. constructor; [exact Ea|apply IH; reflexivity].
Qed.

Lemma built_id (payload : list (string * json)) (a : Article) (n : Z) :
  Reader._build_article payload = Ok a -> HackerNews.get "id" payload = JInt n ->
  a.(article_id) = pretty n.
Proof.
  unfold Reader._build_article. intros Hb Hid. rewrite Hid in Hb. cbn [Reader.str_of] in Hb.
  destruct (Reader.summary_of payload) as [text|e|]; try discriminate.
  repeat (match type of Hb with
          | context [match ?x with _ => _ end] => destruct x; try discriminate
          end);
    injection Hb as <-; reflexivity.
Qed.

(** X24.  When Firebase answers every fetch with the item that was asked
    for, the articles [get_articles_by_ids] returns are those of the
    requested stories: one for each id under which Firebase has a story, in
    the order of the request, each with the text of its id as its article id
    and no two with the same id, whatever Exa answers and in whatever order
    the fetches finish.  So every article the tick is given reads back as an
    id it asked for.  Exa is asked at most once, for the urls of the stories
    that have one, and the articles returned are the ones the reader has
    indexed. *)
Theorem articles_by_ids_are_the_requested_stories
    (exa : list json -> reply json) (fetch_item : Z -> option json)
    (web_item : json -> string) (ids : list py_arg) (completed : list Z)
    (m : Reader.Modules) :
  let unique_ids := HackerNews.unique_ints ids [] ∅ in
  completed ≡ₚ unique_ids ->
  (∀ iid, iid ∈ unique_ids -> HackerNews.well_formed fetch_item iid) ->
  let r := Reader.get_articles_by_ids exa fetch_item web_item ids completed m in
  (length r.1.2 <= 1)%nat
  ∧ (∀ e, r.1.1 = Raise e -> r.2 = m)
  ∧ ∀ articles, r.1.1 = Ok articles ->
      article_id <$> articles = pretty <$> HackerNews.found fetch_item web_item unique_ids
      ∧ NoDup (article_id <$> articles)
      ∧ (∀ a, a ∈ articles ->
           ∃ iid raw_id, raw_id ∈ ids ∧ _int_or_none raw_id = Some iid
                         ∧ _int_or_none (PyStr a.(article_id)) = Some iid)
      ∧ r.2 = Reader.index_articles articles m.
Proof.
  intros unique_ids Hperm Hwf r.
  destruct (unique_ints_nodup ids) as [Hnd Hmem]. fold unique_ids in Hnd, Hmem.
  assert (NoDup (pretty <$> HackerNews.found fetch_item web_item unique_ids)) as Hnd'.
  { apply (NoDup_fmap_2 _). apply NoDup_filter, Hnd. }
  assert (∀ articles,
            article_id <$> articles = pretty <$> HackerNews.found fetch_item web_item unique_ids ->
            ∀ a, a ∈ articles ->
              ∃ iid raw_id, raw_id ∈ ids ∧ _int_or_none raw_id = Some iid
                            ∧ _int_or_none (PyStr a.(article_id)) = Some iid) as Hback.
  { intros articles Hids a Ha.
    assert (article_id a ∈ pretty <$> HackerNews.found fetch_item web_item unique_ids) as Hin.
    { rewrite <- Hids. apply list_elem_of_fmap. exists a. auto. }
    apply list_elem_of_fmap in Hin as (iid & Hid & Hfound).
    apply list_elem_of_filter in Hfound as [_ Hu].
    apply Hmem in Hu as (raw_id & Hraw & Hint).
    exists iid, raw_id. split; [exact Hraw|]. split; [exact Hint|].
    rewrite Hid. apply int_of_text_pretty. }
  subst r. unfold Reader.get_articles_by_ids. fold unique_ids.
  destruct unique_ids as [|first rest] eqn:Eu.
  { cbn [fst snd length]. split; [lia|]. split; [reflexivity|].
    intros articles [= <-]. split; [reflexivity|]. split; [constructor|].
    split; [intros a Ha; inversion Ha|reflexivity]. }
  assert (HackerNews.unique_ints (PyInt <$> first :: rest) [] ∅ = first :: rest) as Hfixed.
  { apply (unique_ints_fixed (first :: rest) [] ∅);
      [intros z; rewrite elem_of_empty, elem_of_nil; tauto|exact Hnd]. }
  rewrite (get_story_details_run fetch_item web_item (PyInt <$> first :: rest) completed)
    by (rewrite Hfixed; assumption).
  rewrite Hfixed.
  pose proof (found_stories fetch_item web_item (first :: rest) Hwf) as Hstories.
  destruct (omap (HackerNews.story_of fetch_item web_item) (first :: rest))
    as [|story stories] eqn:Eo.
  { cbn [fst snd length]. split; [lia|]. split; [reflexivity|].
    intros articles [= <-]. apply Forall2_nil_inv_r in Hstories. rewrite Hstories.
    split; [reflexivity|]. split; [constructor|].
    split; [intros a Ha; inversion Ha|reflexivity]. }
  destruct (enrich_run exa (story :: stories)) as (Hcalls & _ & Henriched).
  cbv zeta in Hcalls, Henriched.
  destruct (Reader._enrich_story_payloads exa (story :: stories)) as [[enriched|e|] calls];
    cbn [fst snd] in *;
    try (split; [exact Hcalls|]; split; [reflexivity|]; intros articles H; discriminate H).
  specialize (Henriched enriched eq_refl).
  destruct (Reader.build_all enriched) as [articles|e|] eqn:Eb; cbn [fst snd];
    try (split; [exact Hcalls|]; split; [reflexivity|]; intros l H; discriminate H).
  split; [exact Hcalls|]. split; [intros e H; discriminate H|].
  intros l [= <-].
  assert (article_id <$> articles
          = pretty <$> HackerNews.found fetch_item web_item (first :: rest)) as Hids.
  { pose proof (build_all_each enriched articles Eb) as Hbuilt.
    clear -Hstories Henriched Hbuilt.
    revert enriched articles Henriched Hbuilt.
    induction Hstories as [|iid s ids' stories' Hid _ IH]; intros enriched articles He Hb.
    - apply Forall2_nil_inv_l in He. subst enriched.
      apply Forall2_nil_inv_l in Hb. subst articles. reflexivity.
    - apply Forall2_cons_inv_l in He as (payload & enriched' & Hp & He & ->).
      apply Forall2_cons_inv_l in Hb as (a & articles' & Ha & Hb & ->).
      cbn [fmap list_fmap]. f_equal; [|apply (IH enriched'); assumption].
      apply (built_id payload a iid Ha). rewrite Hp. exact Hid. }
  split; [exact Hids|]. split; [rewrite Hids; exact Hnd'|].
  split; [apply Hback, Hids|reflexivity].
Qed.

Lemma articles_by_ids_are_the_requested_stories_witness :
  let ids := [PyInt 42; PyStr "7"; PyInt 8; PyInt 42; PyNone] in
  let r := Reader.get_articles_by_ids (λ _, Failed TransportError)
             HackerNews.sample_items HackerNews.sample_web_item ids [8; 7; 42]
             Reader.imported in
  (length r.1.2 <= 1)%nat
  ∧ (∀ e, r.1.1 = Raise e -> r.2 = Reader.imported)
  ∧ ∀ articles, r.1.1 = Ok articles ->
      article_id <$> articles
      = pretty <$> HackerNews.found HackerNews.sample_items HackerNews.sample_web_item
                                    (HackerNews.unique_ints ids [] ∅)
      ∧ NoDup (article_id <$> articles)
      ∧ (∀ a, a ∈ articles ->
           ∃ iid raw_id, raw_id ∈ ids ∧ _int_or_none raw_id = Some iid
                         ∧ _int_or_none (PyStr a.(article_id)) = Some iid)
      ∧ r.2 = Reader.index_articles articles Reader.imported.
Proof.
  intros ids r.
  apply (articles_by_ids_are_the_requested_stories (λ _, Failed TransportError)
           HackerNews.sample_items HackerNews.sample_web_item ids [8; 7; 42] Reader.imported).
  - apply (bool_decide_unpack _). vm_compute. exact I.
  - intros iid Hin. vm_compute in Hin.
    repeat (apply elem_of_cons in Hin as [->|Hin]; [vm_compute; auto|]).
    inversion Hin.
Defined.
